(** * compare.py: the line extractor, the line matcher, the word differ,
      the aggregator, the annotator and the content comparator, embedded and
      verified.

    Conventions of the embedding.
    - A Python [str] is a [string]; a character is an [ascii], read as a code
      point below 256 (Latin-1).  [len] is [String.length].
    - A Python [int] is a [Z]; list positions are [nat].
    - A Python [float] is a [Q], the value the double holds.  The quotients,
      the difference and the rounding of the summary of
      [compare_pdfs_and_build_pairs] and the score of rapidfuzz are rounded
      to the nearest double by [Py.float64]; the arithmetic on the
      coordinates of the lines and the percentage of [pdf_content_accuracy]
      are exact.
    - A dict with a fixed set of keys is a record; a key that may hold [None]
      is an [option] field.
    - A [for] loop over a list is a [fold_left] over it whose accumulator is
      the tuple of variables the loop body assigns. *)

From Stdlib Require Import List Bool Arith ZArith QArith Qabs Lia.
From Stdlib Require Import Ascii String Permutation Sorted.
Import ListNotations.

Close Scope Q_scope.
Open Scope string_scope.
Open Scope list_scope.

(** ** Python string primitives *)

Module Py.

(** [c.isspace()] for a code point below 256. *)
Definition isspace (c : ascii) : bool :=
  let n := N_of_ascii c in
  (((9 <=? n) && (n <=? 13)) || ((28 <=? n) && (n <=? 32))
   || (n =? 133) || (n =? 160))%N.

(** [c.lower()] for a code point below 256. *)
Definition lower_char (c : ascii) : ascii :=
  let n := N_of_ascii c in
  if (((65 <=? n) && (n <=? 90))
      || ((192 <=? n) && (n <=? 222) && negb (n =? 215)))%N
  then ascii_of_N (n + 32) else c.

(** [s.lower()] *)
Fixpoint lower (s : string) : string :=
  match s with
  | EmptyString => EmptyString
  | String c s' => String (lower_char c) (lower s')
  end.

(** [s.lstrip()] *)
Fixpoint lstrip (s : string) : string :=
  match s with
  | EmptyString => EmptyString
  | String c s' => if isspace c then lstrip s' else s
  end.

(** [s.rstrip()] *)
Fixpoint rstrip (s : string) : string :=
  match s with
  | EmptyString => EmptyString
  | String c s' =>
      match rstrip s' with
      | EmptyString => if isspace c then EmptyString else String c EmptyString
      | r => String c r
      end
  end.

(** [s.strip()] *)
Definition strip (s : string) : string := rstrip (lstrip s).

(** The loop of [s.split()]: [cur] is the word being read. *)
Fixpoint split_from (cur : string) (s : string) : list string :=
  match s with
  | EmptyString => match cur with EmptyString => [] | _ => [cur] end
  | String c s' =>
      if isspace c
      then match cur with
           | EmptyString => split_from EmptyString s'
           | _ => cur :: split_from EmptyString s'
           end
      else split_from (cur ++ String c EmptyString) s'
  end.

(** [s.split()]: the maximal runs of characters that are not white space. *)
Definition split (s : string) : list string := split_from EmptyString s.

(** [sep.join(l)] *)
Definition join (sep : string) (l : list string) : string := String.concat sep l.

(** [s.replace(old, new)] for one-character [old] and [new]. *)
Fixpoint replace_char (old new : ascii) (s : string) : string :=
  match s with
  | EmptyString => EmptyString
  | String c s' =>
      String (if Ascii.eqb c old then new else c) (replace_char old new s')
  end.

(** Truth value of a [str]: [not s] holds for the empty string only. *)
Definition falsy (s : string) : bool :=
  match s with EmptyString => true | _ => false end.

(** [len(s)] *)
Definition len (s : string) : Z := Z.of_nat (String.length s).

(** [l[i1:i2]] for [0 <= i1]; an [i2] below [i1] gives the empty list, and
    positions past the end are cut off, as Python does. *)
Definition slice {A : Type} (l : list A) (i1 i2 : nat) : list A :=
  firstn (i2 - i1) (skipn i1 l).

(** [[w] * n] *)
Definition times {A : Type} (w : A) (n : Z) : list A := repeat w (Z.to_nat n).

(** [sorted(l)] on strings: insertion into an ordered list, by code points. *)
Fixpoint insert_sorted (x : string) (l : list string) : list string :=
  match l with
  | [] => [x]
  | y :: l' => if String.leb x y then x :: l else y :: insert_sorted x l'
  end.

Definition sorted (l : list string) : list string :=
  fold_right insert_sorted [] l.

(** [max(l, key=key)]: the first element whose key no later one exceeds;
    [None] stands for the [ValueError] on an empty list. *)
Definition max_by {A : Type} (key : A -> Q) (l : list A) : option A :=
  match l with
  | [] => None
  | x :: rest =>
      Some (fold_left
              (fun best y => if Qlt_le_dec (key best) (key y) then y else best)
              rest x)
  end.

(** The integer nearest to [n / d], for [0 < d], a tie going to the even
    one. *)
Definition half_even (n d : Z) : Z :=
  let q := (n / d)%Z in
  let r := (n mod d)%Z in
  let up :=
    if (2 * r <? d)%Z then false
    else if (d <? 2 * r)%Z then true
    else Z.odd q in
  (if up then q + 1 else q)%Z.

(** Rounding to binary64 of the magnitude [n / d], counted in units of
    [2 ^ -1074], the smallest positive double: below [2 ^ 52] units the
    doubles are the whole numbers of units; from there on a double has 53
    significant bits, so its last bit is worth [2 ^ c] units for
    [c = floor (log2 (n / d)) - 52].  The nearest one is taken, a tie going
    to the even significand. *)
Definition float64_units (n d : Z) : Z :=
  let c := Z.max 0 (Z.log2 (n / d) - 52) in
  (half_even n (d * 2 ^ c) * 2 ^ c)%Z.

(** The double nearest to [x], as IEEE 754 rounds the result of an
    operation.  No number rounded here is large enough to overflow. *)
Definition float64 (x : Q) : Q :=
  Qmake (Z.sgn (Qnum x)
         * float64_units (Z.abs (Qnum x) * 2 ^ 1074) (Zpos (Qden x)))
        (2 ^ 1074).

(** [x / y] on two [int]s, for [y] other than 0: the quotient, correctly
    rounded. *)
Definition truediv (x y : Z) : Q := float64 (inject_Z x / inject_Z y)%Q.

(** [x - y] and [x * y] on [float]s. *)
Definition float_sub (x y : Q) : Q := float64 (x - y)%Q.

Definition float_mul (x y : Q) : Q := float64 (x * y)%Q.

(** [round(x, 4)] on a [float]: the value of [x] is rounded to the nearest
    multiple of 1/10000, a tie going to the even one, and the result is the
    double nearest to that decimal number. *)
Definition round4 (x : Q) : Q :=
  float64 (Qmake (half_even (Qnum x * 10000) (Zpos (Qden x))) 10000).

(** [x / y] on numbers; [None] stands for [ZeroDivisionError]. *)
Definition div (x y : Z) : option Q :=
  if (y =? 0)%Z then None else Some (inject_Z x / inject_Z y)%Q.

(** [min(l)] on numbers: the first smallest element; [None] stands for the
    [ValueError] raised on an empty sequence. *)
Definition min_list (l : list Q) : option Q :=
  match l with
  | [] => None
  | x :: l' =>
      Some (fold_left (fun m y => if Qlt_le_dec y m then y else m) l' x)
  end.

(** [max(l)] on numbers: the first greatest element. *)
Definition max_list (l : list Q) : option Q :=
  match l with
  | [] => None
  | x :: l' =>
      Some (fold_left (fun m y => if Qlt_le_dec m y then y else m) l' x)
  end.

(** [d.get(key, default)] on a key that may be absent. *)
Definition get {A : Type} (value : option A) (default : A) : A :=
  match value with
  | Some v => v
  | None => default
  end.


End Py.

(** ** rapidfuzz: [fuzz.token_sort_ratio] and [distance.Levenshtein.distance] *)

Module Rapidfuzz.

(** Length of a longest common subsequence of two strings. *)
Fixpoint lcs_len (s t : string) {struct s} : nat :=
  match s with
  | EmptyString => 0
  | String x s' =>
      (fix against (t : string) : nat :=
         match t with
         | EmptyString => 0
         | String y t' =>
             if Ascii.eqb x y then S (lcs_len s' t')
             else Nat.max (lcs_len s' t) (against t')
         end) t
  end.

(** [distance.Indel.distance]: insertions and deletions only. *)
Definition indel_distance (s t : string) : nat :=
  String.length s + String.length t - 2 * lcs_len s t.

(** [fuzz.ratio]: the normalized Indel similarity, scaled to 0..100.  The
    distance and the maximum are cast to [double]; the quotient, the
    difference and the product are operations on [double]s. *)
Definition ratio (s t : string) : Q :=
  let maximum := (String.length s + String.length t)%nat in
  let norm_dist :=
    match maximum with
    | O => 0%Q
    | _ =>
        Py.float64
          (Py.float64 (inject_Z (Z.of_nat (indel_distance s t)))
           / Py.float64 (inject_Z (Z.of_nat maximum)))%Q
    end in
  Py.float_mul (Py.float_sub 1 norm_dist) 100.

(** The white space of rapidfuzz's tokenizer in a string of one-byte
    characters: the ASCII one only. *)
Definition is_space (c : ascii) : bool :=
  let n := N_of_ascii c in
  (((9 <=? n) && (n <=? 13)) || ((28 <=? n) && (n <=? 32)))%N.

(** The loop of the tokenizer: [cur] is the word being read. *)
Fixpoint split_from (cur : string) (s : string) : list string :=
  match s with
  | EmptyString => match cur with EmptyString => [] | _ => [cur] end
  | String c s' =>
      if is_space c
      then match cur with
           | EmptyString => split_from EmptyString s'
           | _ => cur :: split_from EmptyString s'
           end
      else split_from (cur ++ String c EmptyString) s'
  end.

(** The words of a string: the maximal runs of characters that are not
    white space. *)
Definition split (s : string) : list string := split_from EmptyString s.

(** [fuzz.token_sort_ratio] with no processor: [ratio] of the two strings'
    sorted words, joined by one space. *)
Definition token_sort_ratio (s t : string) : Q :=
  ratio (Py.join " " (Py.sorted (split s)))
        (Py.join " " (Py.sorted (split t))).

(** [distance.Levenshtein.distance] with unit weights. *)
Fixpoint levenshtein (s t : string) {struct s} : nat :=
  match s with
  | EmptyString => String.length t
  | String x s' =>
      (fix against (t : string) : nat :=
         match t with
         | EmptyString => String.length s
         | String y t' =>
             Nat.min (Nat.min (S (levenshtein s' t)) (S (against t')))
                     (levenshtein s' t' + (if Ascii.eqb x y then 0 else 1))
         end) t
  end.

End Rapidfuzz.

(** ** The normalizer and the similarity scorer *)

(** [normalize_text(t)]; [None] is Python's [None].  [lower] cannot raise on a
    [str], so the [except] branch is dead. *)
Definition normalize_text (t : option string) : string :=
  match t with
  | None => ""
  | Some t =>
      let t := Py.replace_char (ascii_of_N 160) " "%char t in
      let t := Py.join " " (Py.split t) in
      Py.lower (Py.strip t)
  end.

(** [similarity_score(a, b)] *)
Definition similarity_score (a b : string) : Q :=
  if Py.falsy a && Py.falsy b then 100%Q
  else if Py.falsy a || Py.falsy b then 0%Q
  else Rapidfuzz.token_sort_ratio a b.

(** ** The line matcher *)

(** A line as [extract_lines_with_bbox] builds it; [norm] is the key
    [compare_pdfs_and_build_pairs] adds afterwards. *)
Record Line : Type := mkLine {
  page : Z;
  line_no : Z;
  text : string;
  x0 : Q;
  y0 : Q;
  x1 : Q;
  y1 : Q;
  norm : option string
}.

(** [line.get('norm', '')] *)
Definition get_norm (l : Line) : string :=
  match norm l with Some s => s | None => "" end.

(** [abs(o['page'] - gen_line['page'])] *)
Definition page_delta (g o : Line) : Z := Z.abs (page o - page g).

(** The two [continue] guards of the first loop, negated: [o] is scored. *)
Definition nearby (y_tolerance : Q) (page_window : Z) (g o : Line) : bool :=
  if (page_window <? page_delta g o)%Z then false
  else if Qlt_le_dec (y_tolerance + 5 * inject_Z (page_delta g o))%Q
                     (Qabs (y0 o - y0 g))
       then false
       else true.

Definition scored (g o : Line) : Q * Line :=
  (similarity_score (get_norm g) (get_norm o), o).

(** [find_best_match(gen_line, orig_lines, y_tolerance, page_window)] *)
Definition find_best_match (gen_line : Line) (orig_lines : list Line)
    (y_tolerance : Q) (page_window : Z) : Q * option Line :=
  let candidates :=
    fold_left
      (fun candidates o =>
         if nearby y_tolerance page_window gen_line o
         then candidates ++ [scored gen_line o]
         else candidates)
      orig_lines [] in
  let candidates :=
    match candidates with
    | [] =>
        fold_left (fun candidates o => candidates ++ [scored gen_line o])
                  orig_lines candidates
    | _ => candidates
    end in
  match Py.max_by fst candidates with
  | Some (s, o) => (s, Some o)
  | None => (0%Q, None)
  end.

(** ** difflib.SequenceMatcher, as [word_level_diff_html] uses it:
       [isjunk=None], [autojunk=True] *)

Module Difflib.

Local Open Scope nat_scope.

Inductive tag : Type := Equal | Replace | Delete | Insert.

(** An opcode [(tag, i1, i2, j1, j2)]. *)
Definition opcode : Type := (tag * nat * nat * nat * nat)%type.

(** A matching block [(i, j, size)]. *)
Definition block : Type := (nat * nat * nat)%type.

(** [b2j.setdefault(elt, []).append(i)] on a dict kept as an association
    list. *)
Fixpoint setdefault_append (d : list (string * list nat)) (elt : string)
    (i : nat) : list (string * list nat) :=
  match d with
  | [] => [(elt, [i])]
  | (k, v) :: d' =>
      if String.eqb k elt then (k, v ++ [i]) :: d'
      else (k, v) :: setdefault_append d' elt i
  end.

(** [enumerate(b)] *)
Definition enumerate {A : Type} (b : list A) : list (nat * A) :=
  combine (seq 0 (List.length b)) b.

(** [__chain_b]: the positions of every element of [b], without the
    elements that occur more than [n // 100 + 1] times when [b] has 200
    elements or more.  No element is junk. *)
Definition chain_b (b : list string) : list (string * list nat) :=
  let b2j :=
    fold_left (fun d ie => setdefault_append d (snd ie) (fst ie))
              (enumerate b) [] in
  let n := List.length b in
  if 200 <=? n then
    let ntest := n / 100 + 1 in
    filter (fun kv => negb (ntest <? List.length (snd kv))) b2j
  else b2j.

(** [b2j.get(elt, nothing)] *)
Fixpoint b2j_get (b2j : list (string * list nat)) (elt : string) : list nat :=
  match b2j with
  | [] => []
  | (k, v) :: d' => if String.eqb k elt then v else b2j_get d' elt
  end.

(** [bjunk.__contains__]: [bjunk] is the empty set. *)
Definition isbjunk (elt : string) : bool := false.

(** [j2len.get(j, 0)] on a dict kept as an association list. *)
Fixpoint j2len_get (j2len : list (nat * nat)) (j : nat) : nat :=
  match j2len with
  | [] => 0
  | (k, v) :: d' => if k =? j then v else j2len_get d' j
  end.

(** [j2len.get(j-1, 0)]: the key [-1] is never present. *)
Definition j2len_get_pred (j2len : list (nat * nat)) (j : nat) : nat :=
  match j with
  | O => 0
  | S j' => j2len_get j2len j'
  end.

(** [a[i]] at a position inside the list. *)
Definition item (a : list string) (i : nat) : string := nth i a "".

Section FindLongestMatch.

Variables a b : list string.
Variable b2j : list (string * list nat).
Variables alo ahi blo bhi : nat.

(** The inner loop of [find_longest_match] at row [i]: [js] is what is left
    of [b2j.get(a[i], nothing)]; the state is [(best, newj2len)]. *)
Fixpoint scan_row (i : nat) (j2len : list (nat * nat)) (js : list nat)
    (st : block * list (nat * nat)) : block * list (nat * nat) :=
  match js with
  | [] => st
  | j :: js' =>
      if j <? blo then scan_row i j2len js' st
      else if bhi <=? j then st
      else
        let '((besti, bestj, bestsize), newj2len) := st in
        let k := j2len_get_pred j2len j + 1 in
        let newj2len := newj2len ++ [(j, k)] in
        if bestsize <? k
        then scan_row i j2len js' ((i + 1 - k, j + 1 - k, k), newj2len)
        else scan_row i j2len js' ((besti, bestj, bestsize), newj2len)
  end.

(** The outer loop: the state is [(best, j2len)]. *)
Definition scan_rows : block * list (nat * nat) :=
  fold_left
    (fun st i =>
       let '(best, j2len) := st in
       scan_row i j2len (b2j_get b2j (item a i)) (best, []))
    (seq alo (ahi - alo)) ((alo, blo, 0), []).

(** The two [while] loops that grow the block backwards; [junk] tells which
    of the two it is (elements that are not junk first, junk ones after). *)
Fixpoint extend_back (junk : bool) (besti bestj bestsize : nat) : block :=
  match besti, bestj with
  | S i', S j' =>
      if (alo <? besti) && (blo <? bestj)
         && Bool.eqb (isbjunk (item b j')) junk
         && String.eqb (item a i') (item b j')
      then extend_back junk i' j' (bestsize + 1)
      else (besti, bestj, bestsize)
  | _, _ => (besti, bestj, bestsize)
  end.

(** The two [while] loops that grow the block forwards; [fuel] bounds the
    number of rounds, and [ahi - (besti + bestsize)] rounds are enough. *)
Fixpoint extend_fwd (junk : bool) (fuel : nat) (besti bestj bestsize : nat)
    : block :=
  match fuel with
  | O => (besti, bestj, bestsize)
  | S fuel' =>
      if (besti + bestsize <? ahi) && (bestj + bestsize <? bhi)
         && Bool.eqb (isbjunk (item b (bestj + bestsize))) junk
         && String.eqb (item a (besti + bestsize)) (item b (bestj + bestsize))
      then extend_fwd junk fuel' besti bestj (bestsize + 1)
      else (besti, bestj, bestsize)
  end.

Definition extend (junk : bool) (m : block) : block :=
  let '(besti, bestj, bestsize) := m in
  let '(besti, bestj, bestsize) := extend_back junk besti bestj bestsize in
  extend_fwd junk (ahi - (besti + bestsize)) besti bestj bestsize.

(** [find_longest_match(alo, ahi, blo, bhi)] *)
Definition find_longest_match : block :=
  extend true (extend false (fst scan_rows)).

End FindLongestMatch.

(** The [while queue] loop of [get_matching_blocks].  The Python list
    [queue] is used as a stack: its last element is the head here.  The
    result is [(matching_blocks, queue)] when the loop stops; [fuel] bounds
    the number of rounds. *)
Fixpoint match_loop (a b : list string) (b2j : list (string * list nat))
    (fuel : nat) (queue : list (nat * nat * nat * nat))
    (matching_blocks : list block)
    : list block * list (nat * nat * nat * nat) :=
  match fuel with
  | O => (matching_blocks, queue)
  | S fuel' =>
      match queue with
      | [] => (matching_blocks, [])
      | (alo, ahi, blo, bhi) :: queue =>
          let '(i, j, k) := find_longest_match a b b2j alo ahi blo bhi in
          if 0 <? k then
            let queue :=
              if (alo <? i) && (blo <? j) then (alo, i, blo, j) :: queue
              else queue in
            let queue :=
              if (i + k <? ahi) && (j + k <? bhi)
              then (i + k, ahi, j + k, bhi) :: queue
              else queue in
            match_loop a b b2j fuel' queue (matching_blocks ++ [(i, j, k)])
          else match_loop a b b2j fuel' queue matching_blocks
      end
  end.

(** Order of tuples of three numbers. *)
Definition block_leb (x y : block) : bool :=
  let '(i1, j1, k1) := x in
  let '(i2, j2, k2) := y in
  (i1 <? i2) || ((i1 =? i2) && ((j1 <? j2) || ((j1 =? j2) && (k1 <=? k2)))).

Fixpoint insert_block (x : block) (l : list block) : list block :=
  match l with
  | [] => [x]
  | y :: l' => if block_leb x y then x :: l else y :: insert_block x l'
  end.

(** [matching_blocks.sort()] *)
Definition sort_blocks (l : list block) : list block :=
  fold_right insert_block [] l.

(** The body of the loop that merges adjacent blocks; the state is
    [(i1, j1, k1, non_adjacent)]. *)
Definition collapse_step (st : nat * nat * nat * list block) (x : block)
    : nat * nat * nat * list block :=
  let '(i1, j1, k1, non_adjacent) := st in
  let '(i2, j2, k2) := x in
  if (i1 + k1 =? i2) && (j1 + k1 =? j2)
  then (i1, j1, k1 + k2, non_adjacent)
  else
    let non_adjacent :=
      if 0 <? k1 then non_adjacent ++ [(i1, j1, k1)] else non_adjacent in
    (i2, j2, k2, non_adjacent).

(** The loop that merges adjacent blocks, and what follows it. *)
Definition collapse (matching_blocks : list block) : list block :=
  let '(i1, j1, k1, non_adjacent) :=
    fold_left collapse_step matching_blocks (0, 0, 0, []) in
  if 0 <? k1 then non_adjacent ++ [(i1, j1, k1)] else non_adjacent.

(** Rounds that [match_loop] is given: every round takes a range off the
    stack, and a range of [n] rows leads to at most [2 * n + 1] rounds. *)
Definition rounds (la : nat) : nat := 2 * la + 1.

(** [get_matching_blocks()] *)
Definition get_matching_blocks (a b : list string) : list block :=
  let la := List.length a in
  let lb := List.length b in
  let matching_blocks :=
    fst (match_loop a b (chain_b b) (rounds la) [(0, la, 0, lb)] []) in
  collapse (sort_blocks matching_blocks) ++ [(la, lb, 0)].

(** The body of the loop of [get_opcodes]; the state is [(i, j, answer)]. *)
Definition opcode_step (st : nat * nat * list opcode) (m : block)
    : nat * nat * list opcode :=
  let '(i, j, answer) := st in
  let '(ai, bj, size) := m in
  let answer :=
    if (i <? ai) && (j <? bj) then answer ++ [(Replace, i, ai, j, bj)]
    else if i <? ai then answer ++ [(Delete, i, ai, j, bj)]
    else if j <? bj then answer ++ [(Insert, i, ai, j, bj)]
    else answer in
  let '(i, j) := (ai + size, bj + size) in
  let answer :=
    if 0 <? size then answer ++ [(Equal, ai, i, bj, j)] else answer in
  (i, j, answer).

(** [get_opcodes()] *)
Definition get_opcodes (a b : list string) : list opcode :=
  let '(_, _, answer) :=
    fold_left opcode_step (get_matching_blocks a b) (0, 0, []) in
  answer.

End Difflib.

(** ** The word-level differ *)

(** The one-character string made of a double quote. *)
Definition dquote : string := String (ascii_of_N 34) EmptyString.

(** The f-string [<span class="error CLS">BODY</span>]. *)
Definition span (cls body : string) : string :=
  "<span class=" ++ dquote ++ "error " ++ cls ++ dquote ++ ">"
    ++ body ++ "</span>".

(** [x or "[empty]"] *)
Definition or_empty (x : string) : string :=
  if Py.falsy x then "[empty]" else x.

(** [filter(None, l)]: the strings of [l] that are not empty. *)
Definition filter_truthy (l : list string) : list string :=
  filter (fun x => negb (Py.falsy x)) l.

(** The body of the loop over the opcodes; the state is [(a_out, b_out)]. *)
Definition diff_step (a_tokens b_tokens : list string)
    (st : list string * list string) (op : Difflib.opcode)
    : list string * list string :=
  let '(a_out, b_out) := st in
  let '(tag, i1, i2, j1, j2) := op in
  match tag with
  | Difflib.Equal =>
      (a_out ++ [Py.join " " (Py.slice a_tokens i1 i2)],
       b_out ++ [Py.join " " (Py.slice b_tokens j1 j2)])
  | Difflib.Replace =>
      (a_out ++ [span "replace-generated"
                   (or_empty (Py.join " " (Py.slice a_tokens i1 i2)))],
       b_out ++ [span "replace-original"
                   (or_empty (Py.join " " (Py.slice b_tokens j1 j2)))])
  | Difflib.Delete =>
      (a_out ++ [span "deleted-from-generated"
                   (Py.join " " (Py.slice a_tokens i1 i2))],
       b_out)
  | Difflib.Insert =>
      (a_out,
       b_out ++ [span "added-to-original"
                   (Py.join " " (Py.slice b_tokens j1 j2))])
  end.

(** [word_level_diff_html(a, b)]: [a] is the generated text, [b] the
    original one. *)
Definition word_level_diff_html (a b : string) : string * string :=
  if Py.falsy a && Py.falsy b then ("", "")
  else if Py.falsy a then ("", span "missing-in-generated" b)
  else if Py.falsy b then (span "missing-in-original" a, "")
  else
    let a_tokens := Py.split a in
    let b_tokens := Py.split b in
    let '(a_out, b_out) :=
      fold_left (diff_step a_tokens b_tokens)
                (Difflib.get_opcodes a_tokens b_tokens) ([], []) in
    (Py.join " " (filter_truthy a_out), Py.join " " (filter_truthy b_out)).

(** ** The aggregator *)

Inductive ErrorType : Type := match_ | mismatch | no_match.

Definition ErrorType_eqb (x y : ErrorType) : bool :=
  match x, y with
  | match_, match_ | mismatch, mismatch | no_match, no_match => true
  | _, _ => false
  end.

(** One element of [rows]. *)
Record Row : Type := mkRow {
  gen_page : Z;
  gen_line_no : Z;
  gen_text : string;
  gen_html : string;
  orig_page : option Z;
  orig_line_no : option Z;
  orig_text : option string;
  orig_html : string;
  similarity : Q;
  char_edit_distance : Z;
  y_delta : option Q;
  matched : bool;
  error_type : ErrorType
}.

Record ErrorBreakdown : Type := mkBreakdown {
  matches : Z;
  mismatches : Z;
  no_matches : Z
}.

(** The dict [summary]. *)
Record Summary : Type := mkSummary {
  gen_lines : Z;
  orig_lines : Z;
  matched_lines : Z;
  char_accuracy : Q;
  line_accuracy : Q;
  total_char_diffs : Z;
  total_chars : Z;
  error_breakdown : ErrorBreakdown
}.

(** The variables the main loop assigns. *)
Record Acc : Type := mkAcc {
  acc_rows : list Row;
  acc_total_chars : Z;
  acc_total_diff_chars : Z;
  acc_matched_lines : Z
}.

(** [o['norm'] = normalize_text(o['text'])] *)
Definition set_norm (l : Line) : Line :=
  mkLine (page l) (line_no l) (text l) (x0 l) (y0 l) (x1 l) (y1 l)
         (Some (normalize_text (Some (text l)))).

(** [score >= similarity_threshold] *)
Definition ge_threshold (score similarity_threshold : Q) : bool :=
  if Qlt_le_dec score similarity_threshold then false else true.

(** The body of [for g in gen_lines]. *)
Definition compare_step (orig_lines : list Line) (similarity_threshold : Q)
    (st : Acc) (g : Line) : Acc :=
  let '(score, o) := find_best_match g orig_lines 12%Q 1%Z in
  match o with
  | Some o =>
      let ed := Z.of_nat (Rapidfuzz.levenshtein (text g) (text o)) in
      let total_chars :=
        (acc_total_chars st
         + Z.max (Z.max (Py.len (text g)) (Py.len (text o))) 1)%Z in
      let total_diff_chars := (acc_total_diff_chars st + ed)%Z in
      let matched := ge_threshold score similarity_threshold in
      let matched_lines :=
        if matched then (acc_matched_lines st + 1)%Z
        else acc_matched_lines st in
      let '(a_html, b_html) := word_level_diff_html (text g) (text o) in
      let error_type := if matched then match_ else mismatch in
      mkAcc (acc_rows st ++
               [mkRow (page g) (line_no g) (text g) a_html
                      (Some (page o)) (Some (line_no o)) (Some (text o)) b_html
                      score ed (Some (y0 g - y0 o)%Q) matched error_type])
            total_chars total_diff_chars matched_lines
  | None =>
      mkAcc (acc_rows st ++
               [mkRow (page g) (line_no g) (text g) (span "no-match" (text g))
                      None None None ""
                      0%Q (Py.len (text g)) None false no_match])
            (acc_total_chars st + Z.max (Py.len (text g)) 1)%Z
            (acc_total_diff_chars st + Py.len (text g))%Z
            (acc_matched_lines st)
  end.

(** [len([r for r in rows if r['error_type'] == e])] *)
Definition count_type (e : ErrorType) (rows : list Row) : Z :=
  Z.of_nat (List.length
              (filter (fun r => ErrorType_eqb (error_type r) e) rows)).

(** [compare_pdfs_and_build_pairs], from the two extracted line lists on:
    the result is [(summary, rows)].  The data frame [df] holds the same rows
    and is left out.  [similarity_threshold] is 75 when the caller gives
    none. *)
Definition compare_pdfs_and_build_pairs (orig_lines gen_lines : list Line)
    (similarity_threshold : Q) : Summary * list Row :=
  let orig_lines := map set_norm orig_lines in
  let gen_lines := map set_norm gen_lines in
  let st :=
    fold_left (compare_step orig_lines similarity_threshold) gen_lines
              (mkAcc [] 0 0 0) in
  let rows := acc_rows st in
  let total_chars := acc_total_chars st in
  let total_diff_chars := acc_total_diff_chars st in
  let matched_lines := acc_matched_lines st in
  let char_accuracy :=
    if (total_chars =? 0)%Z then 0%Q
    else Py.float_sub 1 (Py.truediv total_diff_chars total_chars) in
  let line_accuracy :=
    match gen_lines with
    | [] => 0%Q
    | _ => Py.truediv matched_lines (Z.of_nat (List.length gen_lines))
    end in
  (mkSummary (Z.of_nat (List.length gen_lines))
             (Z.of_nat (List.length orig_lines))
             matched_lines
             (Py.round4 char_accuracy)
             (Py.round4 line_accuracy)
             total_diff_chars
             total_chars
             (mkBreakdown (count_type match_ rows)
                          (count_type mismatch rows)
                          (count_type no_match rows)),
   rows).

(** ** The content comparator *)

(** One tuple of [page.get_text("words")]:
    [(x0, y0, x1, y1, word, block_no, line_no, word_no)]. *)
Record WordBox : Type := mkWordBox {
  wx0 : Q;
  wy0 : Q;
  wx1 : Q;
  wy1 : Q;
  word : string;
  block_no : Z;
  wline_no : Z;
  word_no : Z
}.

(** A page is the list of its words; a document the list of its pages. *)
Definition Page : Type := list WordBox.
Definition Document : Type := list Page.

(** [extract_pdf_words], from the opened document on. *)
Definition extract_pdf_words (doc : Document) : list string :=
  fold_left
    (fun words page_words =>
       words ++ map word
                    (filter (fun w => negb (Py.falsy (Py.strip (word w))))
                            page_words))
    doc [].

(** [text1 == text2] on lists of strings. *)
Fixpoint list_eqb (l1 l2 : list string) : bool :=
  match l1, l2 with
  | [], [] => true
  | x :: l1', y :: l2' => String.eqb x y && list_eqb l1' l2'
  | _, _ => false
  end.

(** [compare_pdfs_content_only] *)
Definition compare_pdfs_content_only (pdf1 pdf2 : Document) : bool :=
  let text1 := extract_pdf_words pdf1 in
  let text2 := extract_pdf_words pdf2 in
  list_eqb text1 text2.

(** A [Counter] is a dict in insertion order: an association list with one
    entry per key.  [c[w] += 1]: *)
Fixpoint counter_incr (c : list (string * Z)) (w : string)
    : list (string * Z) :=
  match c with
  | [] => [(w, 1%Z)]
  | (k, n) :: c' =>
      if String.eqb k w then (k, (n + 1)%Z) :: c'
      else (k, n) :: counter_incr c' w
  end.

(** [Counter(l)] *)
Definition Counter (l : list string) : list (string * Z) :=
  fold_left counter_incr l [].

(** [c.get(w, 0)] *)
Fixpoint counter_get (c : list (string * Z)) (w : string) : Z :=
  match c with
  | [] => 0%Z
  | (k, n) :: c' => if String.eqb k w then n else counter_get c' w
  end.

(** [sum(c.values())] *)
Definition counter_total (c : list (string * Z)) : Z :=
  fold_left (fun s kv => (s + snd kv)%Z) c 0%Z.

(** The body of [for word, count in orig_counter.items()]; the state is
    [(match_count, not_found_words)]. *)
Definition tally_step (gen_counter : list (string * Z))
    (st : Z * list string) (item : string * Z) : Z * list string :=
  let '(match_count, not_found_words) := st in
  let '(word, count) := item in
  let found := Z.min count (counter_get gen_counter word) in
  let match_count := (match_count + found)%Z in
  if (found <? count)%Z
  then (match_count, not_found_words ++ Py.times word (count - found))
  else (match_count, not_found_words).

(** [pdf_content_accuracy], from the two opened documents on.  [None] stands
    for a raised [ZeroDivisionError]. *)
Definition pdf_content_accuracy (original generated : Document)
    : option (Q * Z * Z * list string) :=
  let orig_words := extract_pdf_words original in
  let gen_words := extract_pdf_words generated in
  match orig_words with
  | [] => Some (0%Q, 0%Z, 0%Z, [])
  | _ =>
      let orig_counter := Counter (map Py.lower orig_words) in
      let gen_counter := Counter (map Py.lower gen_words) in
      let '(match_count, not_found_words) :=
        fold_left (tally_step gen_counter) orig_counter (0%Z, []) in
      match Py.div match_count (counter_total orig_counter) with
      | None => None
      | Some q =>
          Some ((q * 100)%Q, match_count, counter_total orig_counter,
                not_found_words)
      end
  end.

(** ** The line extractor *)

(** The dict [page.get_text("dict")] of PyMuPDF, as far as the code reads it:
    every key is read with [get] and may be absent.  A [bbox] is
    [(x0, y0, x1, y1)]. *)
Record Span : Type := mkSpan {
  span_text : option string;
  span_bbox : option (Q * Q * Q * Q)
}.

Record TextLine : Type := mkTextLine {
  line_spans : option (list Span)
}.

Record Block : Type := mkBlock {
  block_type : option Z;
  block_lines : option (list TextLine)
}.

Record PageDict : Type := mkPageDict {
  page_blocks : option (list Block)
}.

(** An opened document, as the list of its pages' dicts. *)
Definition TextDocument : Type := list PageDict.

Definition bbox_x0 (b : Q * Q * Q * Q) : Q := fst (fst (fst b)).
Definition bbox_y0 (b : Q * Q * Q * Q) : Q := snd (fst (fst b)).
Definition bbox_x1 (b : Q * Q * Q * Q) : Q := snd (fst b).
Definition bbox_y1 (b : Q * Q * Q * Q) : Q := snd b.

(** The two defaults of [s.get("bbox", ...)]. *)
Definition bbox_far : Q * Q * Q * Q := (1000000000, 1000000000, 0, 0)%Q.
Definition bbox_zero : Q * Q * Q * Q := (0, 0, 0, 0)%Q.

(** [text] of a line of the page dict. *)
Definition line_text (spans : list Span) : string :=
  Py.strip (Py.join "" (map (fun s => Py.get (span_text s) "") spans)).

(** The body of [for line in block.get("lines", [])]; the state is
    [(lines, line_counter)], [None] once an exception was raised. *)
Definition extract_line (pno : nat) (st : option (list Line * Z))
    (line : TextLine) : option (list Line * Z) :=
  match st with
  | None => None
  | Some (lines, line_counter) =>
      let spans := Py.get (line_spans line) [] in
      let text := line_text spans in
      if Py.falsy text then Some (lines, line_counter)
      else
        match
          Py.min_list (map (fun s => bbox_x0 (Py.get (span_bbox s) bbox_far))
                           spans),
          Py.min_list (map (fun s => bbox_y0 (Py.get (span_bbox s) bbox_far))
                           spans),
          Py.max_list (map (fun s => bbox_x1 (Py.get (span_bbox s) bbox_zero))
                           spans),
          Py.max_list (map (fun s => bbox_y1 (Py.get (span_bbox s) bbox_zero))
                           spans)
        with
        | Some x0, Some y0, Some x1, Some y1 =>
            let line_counter := (line_counter + 1)%Z in
            Some (lines ++ [mkLine (Z.of_nat pno + 1) line_counter text
                                   x0 y0 x1 y1 None],
                  line_counter)
        | _, _, _, _ => None
        end
  end.

(** The body of [for block in d.get("blocks", [])]. *)
Definition extract_block (pno : nat) (st : option (list Line * Z))
    (block : Block) : option (list Line * Z) :=
  match block_type block with
  | Some 0%Z =>
      fold_left (extract_line pno) (Py.get (block_lines block) []) st
  | _ => st
  end.

(** The body of [for pno in range(len(doc))]. *)
Definition extract_page (st : option (list Line)) (p : nat * PageDict)
    : option (list Line) :=
  match st with
  | None => None
  | Some lines =>
      match fold_left (extract_block (fst p))
                      (Py.get (page_blocks (snd p)) [])
                      (Some (lines, 0%Z)) with
      | Some (lines, _) => Some lines
      | None => None
      end
  end.

(** [extract_lines_with_bbox], from the opened document on. *)
Definition extract_lines_with_bbox (doc : TextDocument) : option (list Line) :=
  fold_left extract_page (Difflib.enumerate doc) (Some []).


(** ** The annotator *)

(** A highlight annotation: its rectangle [(x0, y0, x1, y1)], its stroke
    colour and the content of its note. *)
Record Annot : Type := mkAnnot {
  annot_rect : Z * Z * Z * Z;
  annot_stroke : Q * Q * Q;
  annot_content : string
}.

(** A page of an opened PDF, as the list of its annotations in the order
    they were added (the code does not touch anything else of a page); a
    document is the list of its pages. *)
Definition PdfPage : Type := list Annot.
Definition PdfDocument : Type := list PdfPage.

(** The value of [r['error_type']] as a string. *)
Definition error_type_str (e : ErrorType) : string :=
  match e with
  | match_ => "match"
  | mismatch => "mismatch"
  | no_match => "no_match"
  end.

(** [colors.get(error_type, colors['mismatch'])]: red, orange, green.  The
    entry ['missing'] is the type of no row. *)
Definition colors (e : ErrorType) : Q * Q * Q :=
  match e with
  | no_match => (1, 0, 0)%Q
  | mismatch => (1, 1 # 2, 0)%Q
  | match_ => (0, 1, 0)%Q
  end.

(** The highlight of a line: the rectangle is estimated from the line
    number. *)
Definition highlight (line_no : Z) (e : ErrorType) : Annot :=
  let y0 := (750 - line_no * 15)%Z in
  mkAnnot (50, y0, 550, y0 + 12)%Z (colors e)
          ("Error: " ++ error_type_str e).

(** [doc[page_num].add_highlight_annot(...)], for [page_num] in range. *)
Fixpoint add_highlight (doc : PdfDocument) (page_num : nat) (a : Annot)
    : PdfDocument :=
  match doc, page_num with
  | [], _ => []
  | p :: doc', O => (p ++ [a]) :: doc'
  | p :: doc', S n => p :: add_highlight doc' n a
  end.

(** The body of either loop of [create_annotated_pdfs]; [page_key] and
    [line_no_key] read the two keys the loop uses.  A page number that is
    [None] or 0 is falsy.  [None] stands for the [TypeError] of
    [None * 15]. *)
Definition annotate (page_key line_no_key : Row -> option Z)
    (st : option PdfDocument) (result : Row) : option PdfDocument :=
  match st with
  | None => None
  | Some doc =>
      match page_key result with
      | Some p =>
          if negb (p =? 0)%Z
             && negb (ErrorType_eqb (error_type result) match_)
          then
            let page_num := (p - 1)%Z in
            if (0 <=? page_num)%Z
               && (page_num <? Z.of_nat (List.length doc))%Z
            then
              match line_no_key result with
              | Some n =>
                  Some (add_highlight doc (Z.to_nat page_num)
                                      (highlight n (error_type result)))
              | None => None
              end
            else Some doc
          else Some doc
      | None => Some doc
      end
  end.

(** [create_annotated_pdfs], from the two copies [orig_annotated] and
    [gen_annotated] on: the result is the pair of the saved documents. *)
Definition create_annotated_pdfs (orig_doc gen_doc : PdfDocument)
    (comparison_results : list Row) : option (PdfDocument * PdfDocument) :=
  match fold_left (annotate orig_page orig_line_no) comparison_results
                  (Some orig_doc) with
  | None => None
  | Some orig_annotated =>
      match fold_left (annotate (fun r => Some (gen_page r))
                                (fun r => Some (gen_line_no r)))
                      comparison_results (Some gen_doc) with
      | None => None
      | Some gen_annotated => Some (orig_annotated, gen_annotated)
      end
  end.


(** * What the specification says, as definitions

    The definitions below follow the words of the specification; the
    properties compare them with the functions above. *)

(** The lines [find_best_match] chooses among: the nearby ones, or all of
    them when no line is nearby. *)
Definition pool (g : Line) (orig_lines : list Line) (ytol : Q) (pw : Z)
    : list Line :=
  let near := filter (nearby ytol pw g) orig_lines in
  match near with
  | [] => orig_lines
  | _ :: _ => near
  end.

(** The best match of a generated line, with the defaults of the comparison
    run. *)
Definition best_match (origs : list Line) (g : Line) : Q * option Line :=
  find_best_match g origs 12%Q 1%Z.

(** What a generated line adds to [total_chars]. *)
Definition line_chars (origs : list Line) (g : Line) : Z :=
  match snd (best_match origs g) with
  | Some o => Z.max (Z.max (Py.len (text g)) (Py.len (text o))) 1
  | None => Z.max (Py.len (text g)) 1
  end.

(** What a generated line adds to [total_diff_chars]. *)
Definition line_diff_chars (origs : list Line) (g : Line) : Z :=
  match snd (best_match origs g) with
  | Some o => Z.of_nat (Rapidfuzz.levenshtein (text g) (text o))
  | None => Py.len (text g)
  end.

(** The error type of a generated line. *)
Definition line_error_type (origs : list Line) (threshold : Q) (g : Line)
    : ErrorType :=
  match best_match origs g with
  | (score, Some _) => if ge_threshold score threshold then match_ else mismatch
  | (_, None) => no_match
  end.

(** Whether a generated line counts in [matched_lines]. *)
Definition line_matched (origs : list Line) (threshold : Q) (g : Line) : bool :=
  match best_match origs g with
  | (score, Some _) => ge_threshold score threshold
  | (_, None) => false
  end.

(** Sum of a list of integers. *)
Definition zsum (l : list Z) : Z := fold_right Z.add 0%Z l.

(** The distinct elements of a list, in the order of their first occurrence. *)
Fixpoint distinct (l : list string) : list string :=
  match l with
  | [] => []
  | x :: l' => x :: filter (fun y => negb (String.eqb y x)) (distinct l')
  end.

(** Number of occurrences of a word in a list. *)
Definition occurrences (l : list string) (w : string) : Z :=
  Z.of_nat (count_occ string_dec l w).

(** The words of a document, whatever the pages they stand on. *)
Definition words_of (doc : Document) : list string :=
  map word
      (filter (fun w => negb (Py.falsy (Py.strip (word w)))) (List.concat doc)).

(** Sample data: a word box, a line of page 1 at height [y], and the two
    documents of the specification's example. *)
Definition sample_word (s : string) : WordBox :=
  mkWordBox 72 100 90 112 s 0 0 0.

Definition sample_line (n : Z) (t : string) (y : Q) : Line :=
  mkLine 1 n t 72 y 300 (y + 12)%Q None.

Definition sample_original : Document :=
  [[sample_word "a"; sample_word "a"; sample_word "b"]].

Definition sample_generated : Document :=
  [[sample_word "a"; sample_word "b"; sample_word "b"]].


(** The run of an opcode on the generated side, [a[i1:i2]], and on the
    original side, [b[j1:j2]]. *)
Definition a_run (a_tokens : list string) (op : Difflib.opcode) : list string :=
  let '(_, i1, i2, _, _) := op in Py.slice a_tokens i1 i2.

Definition b_run (b_tokens : list string) (op : Difflib.opcode) : list string :=
  let '(_, _, _, j1, j2) := op in Py.slice b_tokens j1 j2.

(** What the tag of an opcode says of its two runs: an [equal] run is the
    same words on both sides, a [replace] run has words on both sides, a
    [delete] run has words on the generated side only and an [insert] run on
    the original side only. *)
Definition opcode_ok (a_tokens b_tokens : list string) (op : Difflib.opcode)
    : Prop :=
  let '(tag, i1, i2, j1, j2) := op in
  (i1 <= i2 <= List.length a_tokens /\ j1 <= j2 <= List.length b_tokens)%nat
  /\ match tag with
     | Difflib.Equal =>
         a_run a_tokens op <> [] /\ a_run a_tokens op = b_run b_tokens op
     | Difflib.Replace => a_run a_tokens op <> [] /\ b_run b_tokens op <> []
     | Difflib.Delete => a_run a_tokens op <> [] /\ b_run b_tokens op = []
     | Difflib.Insert => a_run a_tokens op = [] /\ b_run b_tokens op <> []
     end.

(** The marked text of a run on the generated side; an [insert] run has
    none. *)
Definition gen_piece (a_tokens : list string) (op : Difflib.opcode)
    : list string :=
  let words := Py.join " " (a_run a_tokens op) in
  match fst (fst (fst (fst op))) with
  | Difflib.Equal => [words]
  | Difflib.Replace => [span "replace-generated" words]
  | Difflib.Delete => [span "deleted-from-generated" words]
  | Difflib.Insert => []
  end.

(** The marked text of a run on the original side; a [delete] run has
    none. *)
Definition orig_piece (b_tokens : list string) (op : Difflib.opcode)
    : list string :=
  let words := Py.join " " (b_run b_tokens op) in
  match fst (fst (fst (fst op))) with
  | Difflib.Equal => [words]
  | Difflib.Replace => [span "replace-original" words]
  | Difflib.Delete => []
  | Difflib.Insert => [span "added-to-original" words]
  end.




(** Length of a longest common subsequence of two word lists. *)
Fixpoint lcs_words (s t : list string) {struct s} : nat :=
  match s with
  | [] => 0
  | x :: s' =>
      (fix against (t : list string) : nat :=
         match t with
         | [] => 0
         | y :: t' =>
             if String.eqb x y then S (lcs_words s' t')
             else Nat.max (lcs_words s' t) (against t')
         end) t
  end.

(** Number of words in the [equal] runs of a list of opcodes. *)
Definition equal_words (ops : list Difflib.opcode) : nat :=
  fold_right
    (fun op n =>
       match op with
       | (Difflib.Equal, i1, i2, _, _) => (i2 - i1 + n)%nat
       | _ => n
       end)
    0%nat ops.

(** Two texts on which the longest common run, [1 2], crosses the longest
    common subsequence, [A B C D]. *)
Definition crossing_generated : string := "A B C D 1 2".

Definition crossing_original : string := "1 2 A x B x C x D".

(** * Notions used by the further properties *)

(** Some character of [s] is white space. *)
Fixpoint has_space (s : string) : bool :=
  match s with
  | EmptyString => false
  | String c s' => Py.isspace c || has_space s'
  end.

(** A word: a string that is not empty and holds no white space. *)
Definition is_word (w : string) : Prop := w <> "" /\ has_space w = false.

(** A string without any character that is not white space. *)
Fixpoint blank (s : string) : bool :=
  match s with
  | EmptyString => true
  | String c s' => Py.isspace c && blank s'
  end.

(** The lines of the text blocks of a page, in reading order, and those of
    them that have text. *)
Definition text_lines (p : PageDict) : list TextLine :=
  flat_map (fun b => match block_type b with
                     | Some 0%Z => Py.get (block_lines b) []
                     | _ => []
                     end)
           (Py.get (page_blocks p) []).

Definition printed (tl : TextLine) : bool :=
  negb (Py.falsy (line_text (Py.get (line_spans tl) []))).

Definition printed_lines (p : PageDict) : list TextLine :=
  filter printed (text_lines p).

(** [l] is the line extracted from the text line [tl], the [k]-th printed
    one (from 0) of the page of index [pno]. *)
Definition extracted (pno : nat) (k_tl : nat * TextLine) (l : Line) : Prop :=
  let spans := Py.get (line_spans (snd k_tl)) [] in
  page l = (Z.of_nat pno + 1)%Z
  /\ line_no l = (Z.of_nat (fst k_tl) + 1)%Z
  /\ text l = line_text spans
  /\ norm l = None
  /\ Py.min_list (map (fun s => bbox_x0 (Py.get (span_bbox s) bbox_far)) spans)
     = Some (x0 l)
  /\ Py.min_list (map (fun s => bbox_y0 (Py.get (span_bbox s) bbox_far)) spans)
     = Some (y0 l)
  /\ Py.max_list (map (fun s => bbox_x1 (Py.get (span_bbox s) bbox_zero)) spans)
     = Some (x1 l)
  /\ Py.max_list (map (fun s => bbox_y1 (Py.get (span_bbox s) bbox_zero)) spans)
     = Some (y1 l).

(** The highlights the rows put on the page of index [i], in the order of
    the rows. *)
Definition marks (page_key line_no_key : Row -> option Z) (i : nat)
    (rows : list Row) : list Annot :=
  flat_map (fun r =>
              match page_key r, line_no_key r with
              | Some p, Some n =>
                  if (p =? Z.of_nat i + 1)%Z
                     && negb (ErrorType_eqb (error_type r) match_)
                  then [highlight n (error_type r)]
                  else []
              | _, _ => []
              end)
           rows.

(** A row whose line number is present whenever its page is. *)
Definition numbered (page_key line_no_key : Row -> option Z) (r : Row)
    : Prop :=
  page_key r <> None -> line_no_key r <> None.

(** Sample data: a page with one text line of one span, and a page with an
    image block only. *)
Definition sample_text_page (t : string) (y : Q) : PageDict :=
  mkPageDict
    (Some [mkBlock (Some 0%Z)
             (Some [mkTextLine
                      (Some [mkSpan (Some t)
                                    (Some (72, y, 300, y + 12)%Q)])])]).

Definition sample_image_page : PageDict :=
  mkPageDict (Some [mkBlock (Some 1%Z) None]).

(** * Invariants of the loops

    What holds of the variables of [find_longest_match], of
    [get_matching_blocks] and of [get_opcodes] while their loops run. *)

Section LoopInvariants.

Local Open Scope nat_scope.

Variables a b : list string.
Variables alo ahi blo bhi : nat.

(** The elements of the block are the same in [a] and in [b]. *)
Definition block_matches (m : Difflib.block) : Prop :=
  let '(i, j, k) := m in
  forall t, t < k -> Difflib.item a (i + t) = Difflib.item b (j + t).

(** A block inside the window, with its rows among the first [n] ones. *)
Definition block_within (n : nat) (m : Difflib.block) : Prop :=
  let '(i, j, k) := m in
  (alo <= i /\ i + k <= alo + n /\ blo <= j /\ j + k <= bhi)
  /\ block_matches m.

(** The runs of a row, after [n] rows: the run that ends at column [j] is at
    most [n] long, does not start before [blo], and is common to [a] and
    [b]. *)
Definition run_within (n : nat) (jv : nat * nat) : Prop :=
  let '(j, v) := jv in
  v <= n /\ v + blo <= j + 1
  /\ forall t, t < v ->
       Difflib.item a (alo + n - 1 - t) = Difflib.item b (j - t).

Definition row_within (n : nat) (j2len : list (nat * nat)) : Prop :=
  Forall (run_within n) j2len.

(** A common run inside the window. *)
Definition block_inside (m : Difflib.block) : Prop :=
  let '(i, j, k) := m in
  (alo <= i /\ i + k <= ahi /\ blo <= j /\ j + k <= bhi)
  /\ block_matches m.

(** Every recorded position of a key holds that key. *)
Definition positions_ok (d : list (string * list nat)) : Prop :=
  Forall (fun kv => forall j, In j (snd kv) -> Difflib.item b j = fst kv) d.

(** A range [(alo, ahi, blo, bhi)] of the stack, or the one a block covers. *)
Definition rect : Type := (nat * nat * nat * nat)%type.

Definition rect_of (m : Difflib.block) : rect :=
  let '(i, j, k) := m in (i, i + k, j, j + k).

(** [r1] ends before [r2] starts, in [a] and in [b]. *)
Definition before (r1 r2 : rect) : Prop :=
  let '(_, ahi1, _, bhi1) := r1 in
  let '(alo2, _, blo2, _) := r2 in
  ahi1 <= alo2 /\ bhi1 <= blo2.

Definition apart (r1 r2 : rect) : Prop := before r1 r2 \/ before r2 r1.

Definition inside (r1 r2 : rect) : Prop :=
  let '(alo1, ahi1, blo1, bhi1) := r1 in
  let '(alo2, ahi2, blo2, bhi2) := r2 in
  alo2 <= alo1 /\ ahi1 <= ahi2 /\ blo2 <= blo1 /\ bhi1 <= bhi2.

Definition range_ok (r : rect) : Prop :=
  let '(alo, ahi, blo, bhi) := r in
  alo <= ahi /\ ahi <= List.length a /\ blo <= bhi /\ bhi <= List.length b.

(** A block that is not empty, lies inside the two lists and is a common
    run of them. *)
Definition block_ok (m : Difflib.block) : Prop :=
  let '(i, j, k) := m in
  (0 < k /\ i + k <= List.length a /\ j + k <= List.length b) /\ block_matches m.

(** What holds of the stack and of the blocks found so far. *)
Definition loop_inv (queue : list rect) (blocks : list Difflib.block) : Prop :=
  Forall range_ok queue
  /\ Forall block_ok blocks
  /\ ForallOrdPairs apart (map rect_of blocks)
  /\ ForallOrdPairs apart queue
  /\ Forall (fun r => Forall (fun m => apart r (rect_of m)) blocks) queue.

(** Rounds a stack can still lead to. *)
Definition weight (queue : list rect) : nat :=
  fold_right (fun r w => let '(alo, ahi, _, _) := r in 2 * (ahi - alo) + 1 + w)
             0 queue.

(** Block [x] ends before block [y] starts, in [a] and in [b]. *)
Definition bbefore (x y : Difflib.block) : Prop :=
  before (rect_of x) (rect_of y).

Definition positive_size (m : Difflib.block) : Prop :=
  let '(_, _, k) := m in 0 < k.

(** A block inside the two lists that is a common run of them; it may be
    empty. *)
Definition block_fits (m : Difflib.block) : Prop :=
  let '(i, j, k) := m in
  (i + k <= List.length a /\ j + k <= List.length b) /\ block_matches m.

(** The opcodes found so far rewrite [a[:i]] into [b[:j]]. *)
Definition tiled (st : nat * nat * list Difflib.opcode) : Prop :=
  let '(i, j, answer) := st in
  Forall (opcode_ok a b) answer
  /\ List.concat (map (a_run a) answer) = firstn i a
  /\ List.concat (map (b_run b) answer) = firstn j b.

(** After [n] rows every common run that ends in the last row at column [j]
    is at most as long as the recorded one. *)
Definition row_lower (n : nat) (j2len : list (nat * nat)) : Prop :=
  forall j k,
    1 <= k -> k <= n -> k + blo <= j + 1 -> j < bhi ->
    (forall t, t < k ->
       Difflib.item a (alo + n - 1 - t) = Difflib.item b (j - t)) ->
    k <= Difflib.j2len_get j2len j.

(** After [n] rows no common run inside the window and the rows is longer
    than the best block. *)
Definition best_lower (n : nat) (best : Difflib.block) : Prop :=
  forall i' j' k, block_within n (i', j', k) -> k <= snd best.

(** The positions of [x] in [l], counted from [n]. *)
Definition positions_from (n : nat) (l : list string) (x : string)
    : list nat :=
  filter (fun j => String.eqb (nth (j - n) l "") x) (seq n (List.length l)).

(** What the merging loop holds so far. *)
Definition merged (st : nat * nat * nat * list Difflib.block)
    : list Difflib.block :=
  let '(i1, j1, k1, non_adjacent) := st in
  if 0 <? k1 then non_adjacent ++ [(i1, j1, k1)] else non_adjacent.

Definition covered (x : Difflib.block) (l : list Difflib.block) : Prop :=
  exists y, In y l /\ snd x <= snd y.

End LoopInvariants.

(** What one round of the loop does, started from the empty state. *)
Definition round_of (origs : list Line) (thr : Q) (g : Line) : Acc :=
  compare_step origs thr (mkAcc [] 0 0 0) g.

(** A key that is not yet in the counter. *)
Definition fresh (keys : list string) (w : string) : bool :=
  negb (existsb (String.eqb w) keys).

(** * Properties *)

(** ** The similarity scorer *)

(** C8: [similarity_score] is 100 on two empty strings and 0 when exactly one
    of the two strings is empty. *)
Theorem similarity_score_empty :
  similarity_score "" "" = 100%Q
  /\ (forall s, s <> "" -> similarity_score s "" = 0%Q)
  /\ (forall s, s <> "" -> similarity_score "" s = 0%Q).
Proof.
  split; [reflexivity|].
  split; intros s Hs; destruct s as [|c s']; try congruence; reflexivity.
Qed.

(** ** The line matcher *)

Section MaxBy.

Context {A : Type} (key : A -> Q).

Let pick (best y : A) : A :=
  if Qlt_le_dec (key best) (key y) then y else best.

(** The loop of [max] keeps the first element that reaches the greatest key:
    everything before it is strictly smaller, nothing after it is greater. *)
Lemma fold_pick_first_max (rest pre mid : list A) (best : A) :
  (forall y, In y pre -> (key y < key best)%Q) ->
  (forall y, In y mid -> (key y <= key best)%Q) ->
  exists pre' post',
    pre ++ best :: mid ++ rest = pre' ++ fold_left pick rest best :: post'
    /\ (forall y, In y pre' -> (key y < key (fold_left pick rest best))%Q)
    /\ (forall y, In y post' -> (key y <= key (fold_left pick rest best))%Q).
Proof.
  revert pre mid best.
  induction rest as [|y rest IH]; intros pre mid best Hpre Hmid; simpl.
  - exists pre, mid. rewrite app_nil_r. auto.
  - unfold pick at 2 4 6. destruct (Qlt_le_dec (key best) (key y)) as [Hlt|Hle].
    + destruct (IH (pre ++ best :: mid) [] y) as (pre' & post' & E & H1 & H2).
      * intros z Hz. apply in_app_or in Hz. destruct Hz as [Hz|[Hz|Hz]].
        -- eapply Qlt_trans; eauto.
        -- subst z. exact Hlt.
        -- eapply Qle_lt_trans; eauto.
      * intros z [].
      * exists pre', post'. split; [|auto].
        rewrite <- E. simpl. rewrite <- app_assoc. reflexivity.
    + destruct (IH pre (mid ++ [y]) best) as (pre' & post' & E & H1 & H2).
      * exact Hpre.
      * intros z Hz. apply in_app_or in Hz. destruct Hz as [Hz|[Hz|[]]]; auto.
        subst z. exact Hle.
      * exists pre', post'. split; [|auto].
        rewrite <- E. rewrite <- app_assoc. reflexivity.
Qed.

Lemma max_by_first_max (l : list A) :
  match Py.max_by key l with
  | None => l = []
  | Some x =>
      exists pre post,
        l = pre ++ x :: post
        /\ (forall y, In y pre -> (key y < key x)%Q)
        /\ (forall y, In y post -> (key y <= key x)%Q)
  end.
Proof.
  destruct l as [|x rest]; simpl; [reflexivity|].
  destruct (fold_pick_first_max rest [] [] x) as (pre & post & E & H1 & H2);
    try (intros z []).
  exists pre, post. auto.
Qed.

End MaxBy.

(** The first loop of [find_best_match] collects the scored nearby lines, in
    the order of [orig_lines]. *)
Lemma collect_nearby (g : Line) (ytol : Q) (pw : Z) (l : list Line)
    (acc : list (Q * Line)) :
  fold_left
    (fun candidates o =>
       if nearby ytol pw g o then candidates ++ [scored g o] else candidates)
    l acc
  = acc ++ map (scored g) (filter (nearby ytol pw g) l).
Proof.
  revert acc. induction l as [|o l IH]; intros acc; simpl.
  - now rewrite app_nil_r.
  - rewrite IH. destruct (nearby ytol pw g o); simpl; [|reflexivity].
    now rewrite <- app_assoc.
Qed.

(** The fallback loop collects every line. *)
Lemma collect_all (g : Line) (l : list Line) (acc : list (Q * Line)) :
  fold_left (fun candidates o => candidates ++ [scored g o]) l acc
  = acc ++ map (scored g) l.
Proof.
  revert acc. induction l as [|o l IH]; intros acc; simpl.
  - now rewrite app_nil_r.
  - rewrite IH. now rewrite <- app_assoc.
Qed.

Lemma find_best_match_pool (g : Line) (origs : list Line) (ytol : Q) (pw : Z) :
  find_best_match g origs ytol pw
  = match Py.max_by fst (map (scored g) (pool g origs ytol pw)) with
    | Some (s, o) => (s, Some o)
    | None => (0%Q, None)
    end.
Proof.
  unfold find_best_match, pool. rewrite collect_nearby. cbv zeta. simpl.
  destruct (filter (nearby ytol pw g) origs) as [|o near] eqn:E.
  - cbn [map]. rewrite collect_all. reflexivity.
  - reflexivity.
Qed.


Lemma map_eq_app_cons {A B : Type} (f : A -> B) (l : list A)
    (pre post : list B) (y : B) :
  map f l = pre ++ y :: post ->
  exists pre' x post',
    l = pre' ++ x :: post' /\ map f pre' = pre /\ f x = y /\ map f post' = post.
Proof.
  revert pre. induction l as [|z l IH]; intros pre E.
  - destruct pre; discriminate.
  - destruct pre as [|p pre]; simpl in E.
    + injection E as E1 E2. exists [], z, l. auto.
    + injection E as E1 E2. destruct (IH _ E2) as (pre' & x & post' & -> & H1 & H2 & H3).
      exists (z :: pre'), x, post'. simpl. rewrite H1, E1. auto.
Qed.

(** Among the lines it chooses among, [find_best_match] returns the first
    one of greatest score. *)
Lemma find_best_match_first_max (g : Line) (origs : list Line) (ytol : Q)
    (pw : Z) :
  let score o := similarity_score (get_norm g) (get_norm o) in
  match pool g origs ytol pw with
  | [] => find_best_match g origs ytol pw = (0%Q, None)
  | _ =>
      exists pre o post,
        pool g origs ytol pw = pre ++ o :: post
        /\ find_best_match g origs ytol pw = (score o, Some o)
        /\ (forall o', In o' pre -> (score o' < score o)%Q)
        /\ (forall o', In o' post -> (score o' <= score o)%Q)
  end.
Proof.
  intros score. rewrite find_best_match_pool.
  set (scored_lines := pool g origs ytol pw).
  pose proof (max_by_first_max fst (map (scored g) scored_lines)) as H.
  destruct (Py.max_by fst (map (scored g) scored_lines)) as [[s o]|].
  - destruct H as (pre & post & E & H1 & H2).
    destruct (map_eq_app_cons _ _ _ _ _ E)
      as (pre' & x & post' & E' & <- & Hx & <-).
    injection Hx as <- <-.
    destruct scored_lines as [|l0 ls]; [destruct pre'; discriminate|].
    exists pre', x, post'. repeat split; auto.
    + intros o' Ho'. apply (H1 (scored g o')). now apply in_map.
    + intros o' Ho'. apply (H2 (scored g o')). now apply in_map.
  - apply map_eq_nil in H. rewrite H. reflexivity.
Qed.


(** C4: [find_best_match] returns [(0, None)] on an empty [orig_lines], and a
    line of [orig_lines] whenever there is one; it returns [None] only when
    there is no line to choose among. *)
Theorem find_best_match_none_iff_empty (g : Line) (ytol : Q) (pw : Z) :
  find_best_match g [] ytol pw = (0%Q, None)
  /\ (forall origs, origs <> [] ->
        exists s o, find_best_match g origs ytol pw = (s, Some o)
                    /\ In o origs)
  /\ (forall origs, snd (find_best_match g origs ytol pw) = None ->
        pool g origs ytol pw = [] /\ origs = []).
Proof.
  assert (Hpool : forall origs o, In o (pool g origs ytol pw) -> In o origs).
  { intros origs o. unfold pool. cbv zeta.
    destruct (filter (nearby ytol pw g) origs) eqn:E; [auto|].
    rewrite <- E. intros H. now apply filter_In in H. }
  assert (Hne : forall origs, pool g origs ytol pw = [] -> origs = []).
  { intros origs. unfold pool. cbv zeta.
    destruct (filter (nearby ytol pw g) origs); [auto|discriminate]. }
  split; [reflexivity|]. split.
  - intros origs Horigs.
    pose proof (find_best_match_first_max g origs ytol pw) as H.
    cbv zeta in H.
    destruct (pool g origs ytol pw) as [|l0 ls] eqn:E.
    + apply Hne in E. contradiction.
    + destruct H as (pre & o & post & E' & -> & _).
      eexists _, o. split; [reflexivity|].
      apply Hpool. rewrite E, E'. apply in_elt.
  - intros origs H.
    pose proof (find_best_match_first_max g origs ytol pw) as H'.
    cbv zeta in H'.
    destruct (pool g origs ytol pw) as [|l0 ls] eqn:E.
    + split; [reflexivity|]. now apply Hne.
    + destruct H' as (pre & o & post & _ & E' & _).
      rewrite E' in H. discriminate.
Qed.

(** ** The aggregator *)

(** *** Bounds on the library functions *)

Lemma levenshtein_le_max (s t : string) :
  Rapidfuzz.levenshtein s t <= Nat.max (String.length s) (String.length t).
Proof.
  revert t. induction s as [|x s IHs]; intros t.
  - simpl. lia.
  - induction t as [|y t IHt].
    + simpl. lia.
    + specialize (IHs t).
      change (Rapidfuzz.levenshtein (String x s) (String y t))
        with (Nat.min
                (Nat.min (S (Rapidfuzz.levenshtein s (String y t)))
                         (S (Rapidfuzz.levenshtein (String x s) t)))
                (Rapidfuzz.levenshtein s t
                 + (if Ascii.eqb x y then 0 else 1))).
      simpl String.length. destruct (Ascii.eqb x y); lia.
Qed.

(** *** Rounding to the nearest double *)

Lemma half_even_upper (n d B : Z) :
  (0 < d)%Z -> (n <= B * d)%Z -> (Py.half_even n d <= B)%Z.
Proof.
  intros Hd H. unfold Py.half_even.
  pose proof (Z.div_mod n d ltac:(lia)) as Hdm.
  pose proof (Z.mod_pos_bound n d Hd) as Hr.
  set (q := (n / d)%Z) in *. set (r := (n mod d)%Z) in *. clearbody q r.
  assert (Hq : (q <= B)%Z) by nia.
  destruct (Z.ltb_spec (2 * r) d); [exact Hq|].
  assert (q < B)%Z by nia.
  destruct (d <? 2 * r)%Z; [lia|]. destruct (Z.odd q); lia.
Qed.

Lemma half_even_lower (n d B : Z) :
  (0 < d)%Z -> (B * d <= n)%Z -> (B <= Py.half_even n d)%Z.
Proof.
  intros Hd H. unfold Py.half_even.
  pose proof (Z.div_mod n d ltac:(lia)) as Hdm.
  pose proof (Z.mod_pos_bound n d Hd) as Hr.
  set (q := (n / d)%Z) in *. set (r := (n mod d)%Z) in *. clearbody q r.
  assert (Hq : (B <= q)%Z) by nia.
  destruct (2 * r <? d)%Z; [exact Hq|].
  destruct (d <? 2 * r)%Z; [lia|]. destruct (Z.odd q); lia.
Qed.

(** Rounding to the nearest integer keeps the order. *)
Lemma half_even_mono (n1 d1 n2 d2 : Z) :
  (0 < d1)%Z -> (0 < d2)%Z -> (n1 * d2 <= n2 * d1)%Z ->
  (Py.half_even n1 d1 <= Py.half_even n2 d2)%Z.
Proof.
  intros HD1 HD2 H. unfold Py.half_even.
  pose proof (Z.div_mod n1 d1 ltac:(lia)) as Hdm1.
  pose proof (Z.mod_pos_bound n1 d1 HD1) as Hr1.
  pose proof (Z.div_mod n2 d2 ltac:(lia)) as Hdm2.
  pose proof (Z.mod_pos_bound n2 d2 HD2) as Hr2.
  set (q1 := (n1 / d1)%Z) in *. set (r1 := (n1 mod d1)%Z) in *.
  set (q2 := (n2 / d2)%Z) in *. set (r2 := (n2 mod d2)%Z) in *.
  clearbody q1 r1 q2 r2.
  assert (Hx : ((d1 * q1 + r1) * d2 <= (d2 * q2 + r2) * d1)%Z) by nia.
  assert (Hq : (q1 <= q2)%Z).
  { destruct (Z.le_gt_cases q1 q2) as [|Hgt]; [assumption|exfalso].
    assert (d1 * d2 * (q2 + 1) <= d1 * d2 * q1)%Z
      by (apply Z.mul_le_mono_nonneg_l; nia).
    nia. }
  destruct (Z.eq_dec q1 q2) as [->|Hneq].
  - assert (Hr : (r1 * d2 <= r2 * d1)%Z) by nia.
    destruct (Z.ltb_spec (2 * r1) d1) as [A1|A1].
    + destruct (2 * r2 <? d2)%Z; [lia|].
      destruct (d2 <? 2 * r2)%Z; [lia|]. destruct (Z.odd q2); lia.
    + assert (B : (d2 <= 2 * r2)%Z) by nia.
      destruct (Z.ltb_spec (2 * r2) d2) as [A2|A2]; [lia|].
      destruct (Z.ltb_spec d1 (2 * r1)) as [C1|C1].
      * assert (B' : (d2 < 2 * r2)%Z) by nia.
        destruct (Z.ltb_spec d2 (2 * r2)); lia.
      * destruct (Z.ltb_spec d2 (2 * r2)); [destruct (Z.odd q2); lia|lia].
  - assert (q1 + 1 <= q2)%Z by lia.
    destruct (2 * r1 <? d1)%Z, (d1 <? 2 * r1)%Z, (Z.odd q1),
      (2 * r2 <? d2)%Z, (d2 <? 2 * r2)%Z, (Z.odd q2); lia.
Qed.

(** Rounding to a double keeps the order of two magnitudes: in the same
    binade by the lemma above; otherwise the power of two between them is
    a double. *)
Lemma float64_units_mono (n1 d1 n2 d2 : Z) :
  (0 <= n1)%Z -> (0 < d1)%Z -> (0 < d2)%Z -> (n1 * d2 <= n2 * d1)%Z ->
  (Py.float64_units n1 d1 <= Py.float64_units n2 d2)%Z.
Proof.
  intros Hn1 HD1 HD2 H. unfold Py.float64_units.
  assert (Hn2 : (0 <= n2)%Z) by nia.
  assert (Hf : (n1 / d1 <= n2 / d2)%Z).
  { apply Z.div_le_lower_bound; [lia|].
    pose proof (Z.div_mod n1 d1 ltac:(lia)).
    pose proof (Z.mod_pos_bound n1 d1 HD1).
    assert (d1 * (d2 * (n1 / d1)) <= d1 * n2)%Z by nia.
    apply Z.mul_le_mono_pos_l with d1; lia. }
  assert (Hf1 : (0 <= n1 / d1)%Z) by (apply Z.div_pos; lia).
  pose proof (Z.log2_le_mono _ _ Hf) as Hl.
  set (c1 := Z.max 0 (Z.log2 (n1 / d1) - 52)).
  set (c2 := Z.max 0 (Z.log2 (n2 / d2) - 52)).
  assert (Hc1 : (0 <= c1)%Z) by lia. assert (Hc2 : (0 <= c2)%Z) by lia.
  assert (Hc : (c1 <= c2)%Z) by lia.
  assert (P1 : (0 < 2 ^ c1)%Z) by (apply Z.pow_pos_nonneg; lia).
  assert (P2 : (0 < 2 ^ c2)%Z) by (apply Z.pow_pos_nonneg; lia).
  destruct (Z.eq_dec c1 c2) as [E|NE].
  - rewrite <- E. apply Z.mul_le_mono_nonneg_r; [lia|].
    apply half_even_mono; nia.
  - assert (Hlt : (c1 + 1 <= c2)%Z) by lia.
    assert (Hc2' : c2 = (Z.log2 (n2 / d2) - 52)%Z) by lia.
    assert (Hpos2 : (0 < n2 / d2)%Z).
    { destruct (Z.eq_dec (n2 / d2) 0) as [E0|]; [|lia].
      rewrite E0 in Hc2'. cbn in Hc2'. lia. }
    assert (L2 : (2 ^ (c2 + 52) <= n2 / d2)%Z).
    { replace (c2 + 52)%Z with (Z.log2 (n2 / d2)) by lia.
      apply Z.log2_spec. exact Hpos2. }
    assert (L2' : (2 ^ (c2 + 52) * d2 <= n2)%Z).
    { pose proof (Z.div_mod n2 d2 ltac:(lia)).
      pose proof (Z.mod_pos_bound n2 d2 HD2). nia. }
    assert (M2 : (2 ^ 52 <= Py.half_even n2 (d2 * 2 ^ c2))%Z).
    { apply half_even_lower; [nia|].
      rewrite Z.pow_add_r in L2' by lia. nia. }
    assert (U1 : (n1 / d1 < 2 ^ (c1 + 53))%Z).
    { destruct (Z.eq_dec (n1 / d1) 0) as [E0|N0].
      - rewrite E0. apply Z.pow_pos_nonneg; lia.
      - apply Z.lt_le_trans with (2 ^ Z.succ (Z.log2 (n1 / d1)))%Z.
        + apply Z.log2_spec. lia.
        + apply Z.pow_le_mono_r; lia. }
    assert (U1' : (n1 < 2 ^ (c1 + 53) * d1)%Z).
    { pose proof (Z.div_mod n1 d1 ltac:(lia)).
      pose proof (Z.mod_pos_bound n1 d1 HD1).
      assert (n1 / d1 + 1 <= 2 ^ (c1 + 53))%Z by lia. nia. }
    assert (M1 : (Py.half_even n1 (d1 * 2 ^ c1) <= 2 ^ 53)%Z).
    { apply half_even_upper; [nia|].
      rewrite Z.pow_add_r in U1' by lia. nia. }
    apply Z.le_trans with (2 ^ 53 * 2 ^ c1)%Z; [nia|].
    apply Z.le_trans with (2 ^ 52 * 2 ^ c2)%Z; [|nia].
    replace c2 with (c1 + 1 + (c2 - c1 - 1))%Z by lia.
    rewrite !Z.pow_add_r by lia.
    assert (0 < 2 ^ (c2 - c1 - 1))%Z by (apply Z.pow_pos_nonneg; lia).
    change (2 ^ 53)%Z with (2 ^ 52 * 2)%Z. change (2 ^ 1)%Z with 2%Z. nia.
Qed.

Lemma float64_units_nonneg (n d : Z) :
  (0 <= n)%Z -> (0 < d)%Z -> (0 <= Py.float64_units n d)%Z.
Proof.
  intros Hn Hd. unfold Py.float64_units.
  set (c := Z.max 0 _). assert (0 < 2 ^ c)%Z by (apply Z.pow_pos_nonneg; lia).
  apply Z.mul_nonneg_nonneg; [|lia].
  apply half_even_lower; nia.
Qed.

(** Rounding to the nearest double keeps the order. *)
Lemma float64_mono (x y : Q) :
  (x <= y)%Q -> (Py.float64 x <= Py.float64 y)%Q.
Proof.
  intros H. unfold Py.float64, Qle in *. cbn [Qnum Qden].
  apply Z.mul_le_mono_nonneg_r; [lia|].
  destruct x as [n1 d1], y as [n2 d2]. cbn [Qnum Qden] in *.
  set (P := (2 ^ 1074)%Z). assert (HP : (0 < P)%Z) by (unfold P; lia).
  pose proof (float64_units_nonneg (Z.abs n1 * P) (Zpos d1)
                ltac:(nia) ltac:(lia)) as G1.
  pose proof (float64_units_nonneg (Z.abs n2 * P) (Zpos d2)
                ltac:(nia) ltac:(lia)) as G2.
  destruct (Z.lt_trichotomy n1 0) as [N1|[N1|N1]];
    destruct (Z.lt_trichotomy n2 0) as [N2|[N2|N2]];
    try (rewrite ?(Z.sgn_neg n1), ?(Z.sgn_neg n2), ?(Z.sgn_pos n1),
           ?(Z.sgn_pos n2) by lia; subst; cbn [Z.sgn]; nia).
  - rewrite (Z.sgn_neg n1), (Z.sgn_neg n2) by lia.
    assert (Py.float64_units (Z.abs n2 * P) (Zpos d2)
            <= Py.float64_units (Z.abs n1 * P) (Zpos d1))%Z; [|lia].
    apply float64_units_mono; nia.
  - rewrite (Z.sgn_pos n1), (Z.sgn_pos n2) by lia.
    assert (Py.float64_units (Z.abs n1 * P) (Zpos d1)
            <= Py.float64_units (Z.abs n2 * P) (Zpos d2))%Z; [|lia].
    apply float64_units_mono; nia.
Qed.

#[global] Instance float64_wd : Proper (Qeq ==> Qeq) Py.float64.
Proof.
  intros x y H. apply Qle_antisym; apply float64_mono; rewrite H;
    apply Qle_refl.
Qed.

(** 0, 1 and 100 are doubles. *)
Lemma float64_0 : (Py.float64 0 == 0)%Q.
Proof. vm_compute. reflexivity. Qed.

Lemma float64_1 : (Py.float64 1 == 1)%Q.
Proof. vm_compute. reflexivity. Qed.

Lemma float64_100 : (Py.float64 100 == 100)%Q.
Proof. vm_compute. reflexivity. Qed.

Lemma float64_unit (x : Q) :
  (0 <= x)%Q -> (x <= 1)%Q ->
  (0 <= Py.float64 x)%Q /\ (Py.float64 x <= 1)%Q.
Proof.
  intros H0 H1. split.
  - rewrite <- float64_0. now apply float64_mono.
  - rewrite <- float64_1. now apply float64_mono.
Qed.

Lemma Qdiv_unit (d m : Q) :
  (0 <= d)%Q -> (d <= m)%Q -> (0 < m)%Q ->
  (0 <= d / m)%Q /\ (d / m <= 1)%Q.
Proof.
  intros H0 H1 Hm. split.
  - apply Qle_shift_div_l; [exact Hm|]. now rewrite Qmult_0_l.
  - apply Qle_shift_div_r; [exact Hm|]. now rewrite Qmult_1_l.
Qed.

(** The score of a normalized distance between 0 and 1 lies between 0 and
    100, and is 100 for the distance 0. *)
Lemma float_score_range (norm_dist : Q) :
  (0 <= norm_dist)%Q -> (norm_dist <= 1)%Q ->
  (0 <= Py.float_mul (Py.float_sub 1 norm_dist) 100)%Q
  /\ (Py.float_mul (Py.float_sub 1 norm_dist) 100 <= 100)%Q.
Proof.
  intros H0 H1. unfold Py.float_mul, Py.float_sub.
  assert (Hs : (0 <= 1 - norm_dist)%Q /\ (1 - norm_dist <= 1)%Q).
  { split.
    - unfold Qminus. rewrite <- (Qplus_opp_r norm_dist).
      apply Qplus_le_l. exact H1.
    - unfold Qminus. rewrite <- (Qplus_0_r 1) at 2.
      apply Qplus_le_r. rewrite <- (Qplus_opp_r norm_dist) at 1.
      rewrite <- (Qplus_0_l (- norm_dist)) at 1.
      apply Qplus_le_l. exact H0. }
  destruct Hs as [Hs0 Hs1].
  destruct (float64_unit _ Hs0 Hs1) as [Hf0 Hf1].
  set (v := Py.float64 (1 - norm_dist)) in *. clearbody v.
  split.
  - rewrite <- float64_0. apply float64_mono.
    rewrite <- (Qmult_0_l 100). apply Qmult_le_compat_r; [exact Hf0|].
    discriminate.
  - rewrite <- float64_100 at 2. apply float64_mono.
    rewrite <- (Qmult_1_l 100) at 2. apply Qmult_le_compat_r; [exact Hf1|].
    discriminate.
Qed.

Lemma float_score_full (norm_dist : Q) :
  (norm_dist == 0)%Q ->
  (Py.float_mul (Py.float_sub 1 norm_dist) 100 == 100)%Q.
Proof.
  intros H. unfold Py.float_mul, Py.float_sub. rewrite H.
  assert (E : (1 - 0 == 1)%Q) by reflexivity.
  rewrite E, float64_1, Qmult_1_l. apply float64_100.
Qed.

Lemma Qfrac_unit (d c : Z) :
  (0 <= d <= c)%Z -> (0 < c)%Z ->
  (0 <= inject_Z d / inject_Z c)%Q /\ (inject_Z d / inject_Z c <= 1)%Q.
Proof.
  intros Hd Hc. destruct c as [|c|c]; try lia.
  unfold Qdiv, Qinv, Qmult, Qle, inject_Z. simpl. lia.
Qed.

Lemma one_minus_unit (x : Q) :
  (0 <= x)%Q -> (x <= 1)%Q -> (0 <= 1 - x)%Q /\ (1 - x <= 1)%Q.
Proof.
  destruct x as [n d]. unfold Qle, Qminus, Qplus, Qopp.
  cbn [Qnum Qden]. rewrite ?Pos2Z.inj_mul. lia.
Qed.

Lemma round4_unit (x : Q) :
  (0 <= x)%Q -> (x <= 1)%Q ->
  (0 <= Py.round4 x)%Q /\ (Py.round4 x <= 1)%Q.
Proof.
  destruct x as [n d]. unfold Py.round4. cbn [Qnum Qden].
  intros H0 H1. unfold Qle in H0, H1. cbn [Qnum Qden] in H0, H1.
  pose proof (half_even_lower (n * 10000) (Zpos d) 0 ltac:(lia) ltac:(lia)).
  pose proof (half_even_upper (n * 10000) (Zpos d) 10000 ltac:(lia)
                ltac:(lia)).
  apply float64_unit; unfold Qle; cbn [Qnum Qden]; lia.
Qed.

Lemma truediv_unit (d c : Z) :
  (0 <= d <= c)%Z -> (0 < c)%Z ->
  (0 <= Py.truediv d c)%Q /\ (Py.truediv d c <= 1)%Q.
Proof.
  intros Hd Hc. destruct (Qfrac_unit d c Hd Hc) as [H0 H1].
  now apply float64_unit.
Qed.

Lemma float_sub_unit (x : Q) :
  (0 <= x)%Q -> (x <= 1)%Q ->
  (0 <= Py.float_sub 1 x)%Q /\ (Py.float_sub 1 x <= 1)%Q.
Proof.
  intros H0 H1. destruct (one_minus_unit x H0 H1) as [H2 H3].
  now apply float64_unit.
Qed.

Lemma truediv_same (n : Z) : (0 < n)%Z -> (Py.truediv n n == 1)%Q.
Proof.
  intros Hn. unfold Py.truediv.
  assert (E : (inject_Z n / inject_Z n == 1)%Q).
  { apply Qmult_inv_r. unfold Qeq, inject_Z. cbn [Qnum Qden]. lia. }
  rewrite E. apply float64_1.
Qed.

Lemma truediv_zero (n : Z) : (Py.truediv 0 n == 0)%Q.
Proof.
  unfold Py.truediv.
  assert (E : (inject_Z 0 / inject_Z n == 0)%Q)
    by (unfold Qdiv; apply Qmult_0_l).
  rewrite E. apply float64_0.
Qed.

Lemma truediv_mono (a b n : Z) :
  (a <= b)%Z -> (0 < n)%Z -> (Py.truediv a n <= Py.truediv b n)%Q.
Proof.
  intros Hab Hn. unfold Py.truediv. apply float64_mono.
  destruct n as [|n|n]; try lia.
  unfold Qle, Qdiv, Qmult, Qinv, inject_Z. cbn. nia.
Qed.

Lemma float_sub_one (x : Q) :
  ((x == 0)%Q -> (Py.float_sub 1 x == 1)%Q)
  /\ ((x == 1)%Q -> (Py.float_sub 1 x == 0)%Q).
Proof.
  unfold Py.float_sub. split; intros H; rewrite H.
  - assert (E : (1 - 0 == 1)%Q) by reflexivity. rewrite E. apply float64_1.
  - assert (E : (1 - 1 == 0)%Q) by reflexivity. rewrite E. apply float64_0.
Qed.

Lemma lcs_len_le (s t : string) :
  2 * Rapidfuzz.lcs_len s t <= String.length s + String.length t.
Proof.
  revert t. induction s as [|x s IHs]; intros t.
  - simpl. lia.
  - induction t as [|y t IHt].
    + simpl. lia.
    + change (Rapidfuzz.lcs_len (String x s) (String y t))
        with (if Ascii.eqb x y then S (Rapidfuzz.lcs_len s t)
              else Nat.max (Rapidfuzz.lcs_len s (String y t))
                           (Rapidfuzz.lcs_len (String x s) t)).
      pose proof (IHs t). pose proof (IHs (String y t)).
      simpl String.length in *. destruct (Ascii.eqb x y); lia.
Qed.

Lemma ratio_range (s t : string) :
  (0 <= Rapidfuzz.ratio s t)%Q /\ (Rapidfuzz.ratio s t <= 100)%Q.
Proof.
  unfold Rapidfuzz.ratio.
  destruct (String.length s + String.length t) as [|m] eqn:E.
  - apply float_score_range; [apply Qle_refl|discriminate].
  - assert (H : (0 <= Z.of_nat (Rapidfuzz.indel_distance s t)
                 <= Z.of_nat (S m))%Z).
    { unfold Rapidfuzz.indel_distance. lia. }
    set (d := Z.of_nat (Rapidfuzz.indel_distance s t)) in *.
    set (mx := Z.of_nat (S m)) in *.
    assert (Hmx : (1 <= mx)%Z) by (unfold mx; lia).
    clearbody d mx.
    assert (D0 : (0 <= Py.float64 (inject_Z d))%Q).
    { rewrite <- float64_0. apply float64_mono.
      unfold Qle, inject_Z. cbn [Qnum Qden]. lia. }
    assert (DM : (Py.float64 (inject_Z d) <= Py.float64 (inject_Z mx))%Q).
    { apply float64_mono. unfold Qle, inject_Z. cbn [Qnum Qden]. lia. }
    assert (M1 : (0 < Py.float64 (inject_Z mx))%Q).
    { apply Qlt_le_trans with 1%Q; [reflexivity|].
      rewrite <- float64_1. apply float64_mono.
      unfold Qle, inject_Z. cbn [Qnum Qden]. lia. }
    destruct (Qdiv_unit _ _ D0 DM M1) as [Q0 Q1].
    destruct (float64_unit _ Q0 Q1) as [F0 F1].
    now apply float_score_range.
Qed.

Lemma similarity_score_range (a b : string) :
  (0 <= similarity_score a b)%Q /\ (similarity_score a b <= 100)%Q.
Proof.
  unfold similarity_score.
  destruct (Py.falsy a && Py.falsy b); [split; discriminate|].
  destruct (Py.falsy a || Py.falsy b); [split; discriminate|].
  apply ratio_range.
Qed.

Lemma ge_threshold_iff (score thr : Q) :
  ge_threshold score thr = true <-> (thr <= score)%Q.
Proof.
  unfold ge_threshold. destruct (Qlt_le_dec score thr) as [H|H].
  - split; [discriminate|]. intros H'. exfalso.
    eapply Qlt_irrefl, Qlt_le_trans; eauto.
  - tauto.
Qed.

(** *** The main loop, line by line *)

Lemma compare_step_round (origs : list Line) (thr : Q) (st : Acc) (g : Line) :
  compare_step origs thr st g
  = let r := round_of origs thr g in
    mkAcc (acc_rows st ++ acc_rows r)
          (acc_total_chars st + acc_total_chars r)
          (acc_total_diff_chars st + acc_total_diff_chars r)
          (acc_matched_lines st + acc_matched_lines r).
Proof.
  unfold round_of, compare_step.
  destruct (find_best_match g origs 12%Q 1%Z) as [score [o|]]; cbn zeta.
  - destruct (word_level_diff_html (text g) (text o)) as [a_html b_html].
    destruct (ge_threshold score thr); cbn; f_equal; lia.
  - cbn. f_equal; lia.
Qed.

Lemma compare_loop (origs : list Line) (thr : Q) (gens : list Line) (st : Acc) :
  let rs := map (round_of origs thr) gens in
  fold_left (compare_step origs thr) gens st
  = mkAcc (acc_rows st ++ List.concat (map acc_rows rs))
          (acc_total_chars st + zsum (map acc_total_chars rs))
          (acc_total_diff_chars st + zsum (map acc_total_diff_chars rs))
          (acc_matched_lines st + zsum (map acc_matched_lines rs)).
Proof.
  cbv zeta. revert st. induction gens as [|g gens IH]; intros st.
  - destruct st. cbn. rewrite app_nil_r. f_equal; lia.
  - cbn [fold_left map List.concat zsum fold_right]. rewrite IH.
    rewrite compare_step_round. cbn.
    rewrite <- app_assoc. f_equal; unfold zsum; lia.
Qed.

(** One round adds exactly one row. *)
Lemma round_one_row (origs : list Line) (thr : Q) (g : Line) :
  exists r, acc_rows (round_of origs thr g) = [r]
    /\ error_type r = line_error_type origs thr g
    /\ matched r = line_matched origs thr g
    /\ similarity r = match snd (best_match origs g) with
                      | Some _ => fst (best_match origs g)
                      | None => 0%Q
                      end
    /\ (orig_page r = None <-> snd (best_match origs g) = None)
    /\ char_edit_distance r = line_diff_chars origs g.
Proof.
  unfold round_of, compare_step, line_error_type, line_matched,
    line_diff_chars, best_match.
  destruct (find_best_match g origs 12%Q 1%Z) as [score [o|]]; cbn zeta.
  - destruct (word_level_diff_html (text g) (text o)) as [a_html b_html].
    eexists. split; [reflexivity|]. cbn.
    repeat split; try discriminate; destruct (ge_threshold score thr); reflexivity.
  - eexists. split; [reflexivity|]. cbn. repeat split; reflexivity.
Qed.

Lemma round_totals (origs : list Line) (thr : Q) (g : Line) :
  acc_total_chars (round_of origs thr g) = line_chars origs g
  /\ acc_total_diff_chars (round_of origs thr g) = line_diff_chars origs g
  /\ acc_matched_lines (round_of origs thr g)
     = (if line_matched origs thr g then 1 else 0)%Z.
Proof.
  unfold round_of, compare_step, line_chars, line_diff_chars, line_matched,
    best_match.
  destruct (find_best_match g origs 12%Q 1%Z) as [score [o|]]; cbn zeta.
  - destruct (word_level_diff_html (text g) (text o)) as [a_html b_html].
    cbn. destruct (ge_threshold score thr); repeat split; lia.
  - cbn. repeat split; lia.
Qed.

Lemma line_diff_le_chars (origs : list Line) (g : Line) :
  (0 <= line_diff_chars origs g <= line_chars origs g)%Z
  /\ (0 < line_chars origs g)%Z.
Proof.
  unfold line_diff_chars, line_chars, Py.len.
  destruct (snd (best_match origs g)) as [o|].
  - pose proof (levenshtein_le_max (text g) (text o)). lia.
  - lia.
Qed.

Lemma round_sums (origs : list Line) (thr : Q) (gens : list Line) :
  let rs := map (round_of origs thr) gens in
  zsum (map acc_total_chars rs) = zsum (map (line_chars origs) gens)
  /\ zsum (map acc_total_diff_chars rs) = zsum (map (line_diff_chars origs) gens)
  /\ zsum (map acc_matched_lines rs)
     = Z.of_nat (List.length (filter (line_matched origs thr) gens)).
Proof.
  cbv zeta. induction gens as [|g gens (IH1 & IH2 & IH3)].
  - repeat split.
  - destruct (round_totals origs thr g) as (H1 & H2 & H3).
    cbn [map zsum fold_right filter]. fold (zsum (map acc_total_chars
      (map (round_of origs thr) gens))).
    unfold zsum in *. rewrite H1, H2, H3, IH1, IH2, IH3.
    repeat split. destruct (line_matched origs thr g); cbn [List.length]; lia.
Qed.

Lemma sums_bounds (origs : list Line) (thr : Q) (gens : list Line) :
  (0 <= zsum (map (line_diff_chars origs) gens)
     <= zsum (map (line_chars origs) gens))%Z
  /\ (gens <> [] -> 0 < zsum (map (line_chars origs) gens))%Z
  /\ (List.length (filter (line_matched origs thr) gens) <= List.length gens)%nat.
Proof.
  induction gens as [|g gens (IH1 & IH2 & IH3)].
  - cbn. repeat split; try lia. congruence.
  - pose proof (line_diff_le_chars origs g) as [H1 H2].
    cbn [map zsum fold_right filter]. unfold zsum in *.
    repeat split; try lia.
    destruct (line_matched origs thr g); cbn [List.length]; lia.
Qed.

(** The fields of the summary, in terms of the sums over the lines. *)
Lemma summary_fields (origs gens : list Line) (thr : Q) :
  let O := map set_norm origs in
  let G := map set_norm gens in
  let s := fst (compare_pdfs_and_build_pairs origs gens thr) in
  total_chars s = zsum (map (line_chars O) G)
  /\ total_char_diffs s = zsum (map (line_diff_chars O) G)
  /\ matched_lines s = Z.of_nat (List.length (filter (line_matched O thr) G))
  /\ gen_lines s = Z.of_nat (List.length gens)
  /\ char_accuracy s
     = Py.round4
         (if (total_chars s =? 0)%Z then 0%Q
          else Py.float_sub 1 (Py.truediv (total_char_diffs s)
                                          (total_chars s)))
  /\ line_accuracy s
     = Py.round4
         (match gens with
          | [] => 0%Q
          | _ => Py.truediv (matched_lines s) (gen_lines s)
          end).
Proof.
  intros O G s. unfold s, compare_pdfs_and_build_pairs. fold O G.
  rewrite compare_loop. cbn [fst acc_rows acc_total_chars acc_total_diff_chars
    acc_matched_lines total_chars total_char_diffs matched_lines gen_lines
    char_accuracy line_accuracy].
  destruct (round_sums O thr G) as (H1 & H2 & H3). cbv zeta in H1, H2, H3.
  rewrite !Z.add_0_l, H1, H2, H3.
  repeat split.
  - unfold G. now rewrite length_map.
  - unfold G. destruct gens; reflexivity.
Qed.

(** C2: in the summary of a comparison run both [char_accuracy] and
    [line_accuracy] lie between 0 and 1. *)
Theorem summary_accuracy_range (origs gens : list Line) (thr : Q) :
  let s := fst (compare_pdfs_and_build_pairs origs gens thr) in
  (0 <= char_accuracy s)%Q /\ (char_accuracy s <= 1)%Q
  /\ (0 <= line_accuracy s)%Q /\ (line_accuracy s <= 1)%Q.
Proof.
  intros s.
  destruct (summary_fields origs gens thr) as (H1 & H2 & H3 & H4 & H5 & H6).
  cbv zeta in *. fold s in H1, H2, H3, H4, H5, H6.
  set (O := map set_norm origs) in *. set (G := map set_norm gens) in *.
  destruct (sums_bounds O thr G) as (B1 & B2 & B3).
  rewrite <- and_assoc. split.
  - rewrite H5. apply round4_unit.
    + destruct (Z.eqb_spec (total_chars s) 0); [discriminate|].
      apply float_sub_unit; apply truediv_unit; lia.
    + destruct (Z.eqb_spec (total_chars s) 0); [discriminate|].
      apply float_sub_unit; apply truediv_unit; lia.
  - rewrite H6. assert (HG : List.length G = List.length gens)
      by (unfold G; apply length_map).
    apply round4_unit; destruct gens as [|g gens']; try discriminate;
      apply truediv_unit; cbn [List.length] in *; lia.
Qed.

Lemma rows_of_run (origs gens : list Line) (thr : Q) :
  snd (compare_pdfs_and_build_pairs origs gens thr)
  = List.concat (map acc_rows (map (round_of (map set_norm origs) thr)
                                   (map set_norm gens))).
Proof.
  unfold compare_pdfs_and_build_pairs. rewrite compare_loop. reflexivity.
Qed.

Lemma best_score_range (g : Line) (origs : list Line) (ytol : Q) (pw : Z) :
  (0 <= fst (find_best_match g origs ytol pw))%Q
  /\ (fst (find_best_match g origs ytol pw) <= 100)%Q.
Proof.
  pose proof (find_best_match_first_max g origs ytol pw) as H. cbv zeta in H.
  destruct (pool g origs ytol pw).
  - rewrite H. split; discriminate.
  - destruct H as (pre & o & post & _ & -> & _). apply similarity_score_range.
Qed.

(** C5, as the code has it: a line with a best match adds the longer of the
    two lengths (at least 1) to [total_chars] and the edit distance of the two
    texts to [total_diff_chars], and is a [match] exactly when its score
    reaches the threshold, a [mismatch] otherwise; a line without one adds its
    length (at least 1) and its length, and is a [no_match]; the summary
    reports [1 - total_diff_chars / total_chars] and
    [matched_lines / gen_lines] (0 on a zero denominator), each rounded to
    four decimal places. *)
Theorem aggregator_rounded_metrics (origs gens : list Line) (thr : Q) :
  let O := map set_norm origs in
  let G := map set_norm gens in
  let s := fst (compare_pdfs_and_build_pairs origs gens thr) in
  let rows := snd (compare_pdfs_and_build_pairs origs gens thr) in
  total_chars s = zsum (map (line_chars O) G)
  /\ total_char_diffs s = zsum (map (line_diff_chars O) G)
  /\ map error_type rows = map (line_error_type O thr) G
  /\ map char_edit_distance rows = map (line_diff_chars O) G
  /\ (forall score, ge_threshold score thr = true <-> (thr <= score)%Q)
  /\ matched_lines s = Z.of_nat (List.length (filter (line_matched O thr) G))
  /\ gen_lines s = Z.of_nat (List.length gens)
  /\ char_accuracy s
     = Py.round4
         (if (total_chars s =? 0)%Z then 0%Q
          else Py.float_sub 1 (Py.truediv (total_char_diffs s)
                                          (total_chars s)))
  /\ line_accuracy s
     = Py.round4
         (match gens with
          | [] => 0%Q
          | _ => Py.truediv (matched_lines s) (gen_lines s)
          end).
Proof.
  intros O G s rows.
  destruct (summary_fields origs gens thr) as (H1 & H2 & H3 & H4 & H5 & H6).
  cbv zeta in *. fold s O G in H1, H2, H3, H4, H5, H6.
  assert (Hrows : map error_type rows = map (line_error_type O thr) G
                  /\ map char_edit_distance rows = map (line_diff_chars O) G).
  { unfold rows. rewrite rows_of_run. fold O G.
    clear H1 H2 H3 H4 H5 H6 rows s. clearbody G.
    induction G as [|g G' [IH1 IH2]]; [split; reflexivity|].
    destruct (round_one_row O thr g) as (r & E & He & _ & _ & _ & Hd).
    cbn [map List.concat]. rewrite E. cbn [app map].
    rewrite He, Hd, IH1, IH2. split; reflexivity. }
  destruct Hrows as [R1 R2].
  repeat split; auto; apply ge_threshold_iff.
Qed.

(** C9: every row of a comparison run is a [no_match] exactly when its
    [orig_page] is [None], is a [match] whenever [matched] holds, and has a
    similarity between 0 and 100. *)
Theorem row_invariant (origs gens : list Line) (thr : Q) :
  Forall
    (fun r =>
       (error_type r = no_match <-> orig_page r = None)
       /\ (matched r = true -> error_type r = match_)
       /\ (0 <= similarity r)%Q /\ (similarity r <= 100)%Q)
    (snd (compare_pdfs_and_build_pairs origs gens thr)).
Proof.
  rewrite rows_of_run.
  set (O := map set_norm origs). generalize (map set_norm gens) as G.
  induction G as [|g G IH]; [constructor|].
  destruct (round_one_row O thr g) as (r & E & He & Hm & Hs & Hp & _).
  cbn [map List.concat]. rewrite E. cbn [app]. constructor; [|exact IH].
  rewrite He, Hm, Hs, Hp. unfold line_error_type, line_matched.
  pose proof (best_score_range g O 12%Q 1%Z) as Hr.
  unfold best_match in *.
  destruct (find_best_match g O 12%Q 1%Z) as [score [o|]]; cbn [fst snd] in *.
  - destruct (ge_threshold score thr);
      (split; [split; intro; discriminate
              |split; [intro; (reflexivity || discriminate)|exact Hr]]).
  - split; [split; reflexivity|].
    split; [intro; discriminate|split; discriminate].
Qed.

(** [char_accuracy] is rounded: with one differing character out of three
    the summary holds 0.6667, that is the double nearest to 0.6667, which is
    not [1 - 1/3]. *)
Lemma char_accuracy_is_rounded :
  let s := fst (compare_pdfs_and_build_pairs
                  [sample_line 1 "abd" 100] [sample_line 1 "abc" 100] 75) in
  total_char_diffs s = 1%Z /\ total_chars s = 3%Z
  /\ char_accuracy s = Py.float64 0.6667%Q
  /\ (char_accuracy s == 6005099743135819 # 9007199254740992)%Q
  /\ ~ (char_accuracy s
        == 1 - inject_Z (total_char_diffs s) / inject_Z (total_chars s))%Q.
Proof.
  vm_compute. repeat split. intros H. discriminate H.
Qed.

(** ** The content comparator *)

Lemma extract_pdf_words_from (doc : Document) (acc : list string) :
  fold_left
    (fun words page_words =>
       words ++ map word
                    (filter (fun w => negb (Py.falsy (Py.strip (word w))))
                            page_words))
    doc acc
  = acc ++ words_of doc.
Proof.
  revert acc. induction doc as [|p doc IH]; intros acc.
  - cbn. now rewrite app_nil_r.
  - cbn [fold_left]. rewrite IH. unfold words_of. cbn [List.concat].
    rewrite filter_app, map_app, app_assoc. reflexivity.
Qed.

(** The extracted words do not depend on the page boundaries. *)
Lemma extract_pdf_words_flat (doc : Document) :
  extract_pdf_words doc = words_of doc.
Proof. unfold extract_pdf_words. now rewrite extract_pdf_words_from. Qed.

Lemma list_eqb_eq (l1 l2 : list string) : list_eqb l1 l2 = true <-> l1 = l2.
Proof.
  revert l2. induction l1 as [|x l1 IH]; intros [|y l2]; cbn;
    try (split; (reflexivity || discriminate)).
  rewrite andb_true_iff, String.eqb_eq, IH. split.
  - intros [-> ->]. reflexivity.
  - intros E. injection E as -> ->. auto.
Qed.

(** C1, as the code has it: [compare_pdfs_content_only] returns true exactly
    when the two documents have the same words in the same order, letter case
    included, whatever the pages the words stand on; the two bags of
    lowercased words are then equal as well. *)
Theorem compare_pdfs_content_only_sequence (pdf1 pdf2 : Document) :
  (compare_pdfs_content_only pdf1 pdf2 = true
   <-> words_of pdf1 = words_of pdf2)
  /\ (compare_pdfs_content_only pdf1 pdf2 = true ->
      Permutation (map Py.lower (extract_pdf_words pdf1))
                  (map Py.lower (extract_pdf_words pdf2))).
Proof.
  unfold compare_pdfs_content_only. rewrite list_eqb_eq.
  rewrite !extract_pdf_words_flat. split; [tauto|].
  intros ->. apply Permutation_refl.
Qed.

(** Two pairs of documents with the same bag of lowercased words on which
    [compare_pdfs_content_only] is false: in the first the words come in
    another order, in the second they differ in letter case. *)
Lemma compare_pdfs_content_only_not_bag :
  let pdf1 := [[sample_word "a"; sample_word "b"]] in
  let pdf2 := [[sample_word "b"; sample_word "a"]] in
  let pdf3 := [[sample_word "Total"]] in
  let pdf4 := [[sample_word "total"]] in
  (Permutation (map Py.lower (extract_pdf_words pdf1))
               (map Py.lower (extract_pdf_words pdf2))
   /\ compare_pdfs_content_only pdf1 pdf2 = false)
  /\ (Permutation (map Py.lower (extract_pdf_words pdf3))
                  (map Py.lower (extract_pdf_words pdf4))
      /\ compare_pdfs_content_only pdf3 pdf4 = false).
Proof.
  split; (split; [|reflexivity]).
  - apply perm_swap.
  - apply Permutation_refl.
Qed.

(** *** Counters *)

Lemma counter_get_incr (c : list (string * Z)) (w w' : string) :
  counter_get (counter_incr c w) w'
  = (if String.eqb w w' then counter_get c w' + 1 else counter_get c w')%Z.
Proof.
  induction c as [|[k n] c IH]; cbn.
  - destruct (String.eqb_spec w w'); reflexivity.
  - destruct (String.eqb_spec k w) as [->|Hkw]; cbn.
    + destruct (String.eqb_spec w w'); reflexivity.
    + destruct (String.eqb_spec k w') as [->|Hkw'].
      * destruct (String.eqb_spec w w'); [congruence|reflexivity].
      * exact IH.
Qed.

Lemma counter_keys_incr (c : list (string * Z)) (w : string) :
  map fst (counter_incr c w)
  = if existsb (String.eqb w) (map fst c) then map fst c
    else map fst c ++ [w].
Proof.
  induction c as [|[k n] c IH]; cbn; [reflexivity|].
  rewrite (String.eqb_sym w k).
  destruct (String.eqb k w); cbn; [reflexivity|].
  rewrite IH. destruct (existsb (String.eqb w) (map fst c)); reflexivity.
Qed.

Lemma counter_total_zsum (c : list (string * Z)) :
  counter_total c = zsum (map snd c).
Proof.
  unfold counter_total.
  assert (H : forall s, fold_left (fun s kv => (s + snd kv)%Z) c s
                        = (s + zsum (map snd c))%Z).
  { induction c as [|kv c IH]; intros s; cbn; [lia|].
    rewrite IH. unfold zsum. lia. }
  rewrite H. lia.
Qed.

Lemma counter_total_incr (c : list (string * Z)) (w : string) :
  zsum (map snd (counter_incr c w)) = (zsum (map snd c) + 1)%Z.
Proof.
  induction c as [|[k n] c IH]; cbn; [reflexivity|].
  destruct (String.eqb k w); cbn; unfold zsum in *; lia.
Qed.

Lemma occurrences_cons (x : string) (l : list string) (w : string) :
  occurrences (x :: l) w
  = (if String.eqb x w then occurrences l w + 1 else occurrences l w)%Z.
Proof.
  unfold occurrences. cbn.
  destruct (string_dec x w) as [->|H].
  - rewrite String.eqb_refl. lia.
  - apply String.eqb_neq in H. now rewrite H.
Qed.

Lemma counter_get_fold (l : list string) (c : list (string * Z)) (w : string) :
  counter_get (fold_left counter_incr l c) w
  = (counter_get c w + occurrences l w)%Z.
Proof.
  revert c. induction l as [|x l IH]; intros c; cbn [fold_left].
  - unfold occurrences. cbn. lia.
  - rewrite IH, counter_get_incr, occurrences_cons.
    destruct (String.eqb x w); lia.
Qed.

Lemma counter_total_fold (l : list string) (c : list (string * Z)) :
  zsum (map snd (fold_left counter_incr l c))
  = (zsum (map snd c) + Z.of_nat (List.length l))%Z.
Proof.
  revert c. induction l as [|x l IH]; intros c; cbn [fold_left List.length].
  - lia.
  - rewrite IH, counter_total_incr. lia.
Qed.

Lemma filter_filter {A : Type} (p q : A -> bool) (l : list A) :
  filter p (filter q l) = filter (fun y => q y && p y) l.
Proof.
  induction l as [|y l IH]; cbn [filter]; [reflexivity|].
  destruct (q y); cbn [filter andb]; [destruct (p y)|]; now rewrite IH.
Qed.

Lemma fresh_snoc (keys : list string) (x y : string) :
  fresh (keys ++ [x]) y = negb (String.eqb y x) && fresh keys y.
Proof.
  unfold fresh. rewrite existsb_app. cbn [existsb].
  rewrite orb_false_r, negb_orb. apply andb_comm.
Qed.

Lemma filter_fresh_snoc (keys : list string) (x : string) (l : list string) :
  filter (fresh (keys ++ [x])) l
  = filter (fresh keys) (filter (fun y => negb (String.eqb y x)) l).
Proof.
  rewrite filter_filter. apply filter_ext. intros y. apply fresh_snoc.
Qed.

Lemma filter_fresh_known (keys : list string) (x : string) (l : list string) :
  existsb (String.eqb x) keys = true ->
  filter (fresh keys) (filter (fun y => negb (String.eqb y x)) l)
  = filter (fresh keys) l.
Proof.
  intros Hx. rewrite filter_filter. apply filter_ext. intros y.
  destruct (String.eqb_spec y x) as [->|Hyx]; [|reflexivity].
  unfold fresh. now rewrite Hx.
Qed.

(** The keys of a counter come in the order of their first occurrence. *)
Lemma counter_keys_fold (l : list string) (c : list (string * Z)) :
  map fst (fold_left counter_incr l c)
  = map fst c ++ filter (fresh (map fst c)) (distinct l).
Proof.
  revert c. induction l as [|x l IH]; intros c; cbn [fold_left distinct filter].
  - now rewrite app_nil_r.
  - rewrite IH, counter_keys_incr. unfold fresh at 2.
    destruct (existsb (String.eqb x) (map fst c)) eqn:Hx; cbn [negb].
    + now rewrite filter_fresh_known.
    + rewrite filter_fresh_snoc, <- app_assoc. reflexivity.
Qed.

Lemma counter_entries (c : list (string * Z)) :
  NoDup (map fst c) ->
  c = map (fun k => (k, counter_get c k)) (map fst c).
Proof.
  induction c as [|[k n] c IH]; intros Hnd; cbn; [reflexivity|].
  inversion Hnd as [|? ? Hk Hnd']; subst.
  rewrite String.eqb_refl. f_equal.
  rewrite (IH Hnd') at 1. rewrite !map_map. apply map_ext_in.
  intros [k' n'] Hin. cbn.
  destruct (String.eqb_spec k k') as [->|_]; [|reflexivity].
  exfalso. apply Hk. apply in_map_iff. exists (k', n'). auto.
Qed.

Lemma distinct_In (l : list string) (w : string) :
  In w (distinct l) <-> In w l.
Proof.
  induction l as [|x l IH]; cbn; [tauto|].
  rewrite filter_In, IH, negb_true_iff, String.eqb_neq.
  destruct (string_dec x w); [subst; tauto|]. intuition congruence.
Qed.

Lemma distinct_NoDup (l : list string) : NoDup (distinct l).
Proof.
  induction l as [|x l IH]; cbn; constructor.
  - rewrite filter_In, negb_true_iff, String.eqb_neq. tauto.
  - now apply NoDup_filter.
Qed.

(** [Counter(l)]: one entry per distinct word, in the order of the first
    occurrences, with the number of occurrences. *)
Lemma Counter_entries (l : list string) :
  Counter l = map (fun w => (w, occurrences l w)) (distinct l).
Proof.
  assert (Hk : map fst (Counter l) = distinct l).
  { unfold Counter. rewrite counter_keys_fold. cbn.
    rewrite <- (filter_ext (fun _ => true)); [|reflexivity].
    clear. induction (distinct l); cbn; congruence. }
  rewrite (counter_entries (Counter l)) at 1.
  - rewrite Hk. apply map_ext. intros w. unfold Counter.
    rewrite counter_get_fold. reflexivity.
  - rewrite Hk. apply distinct_NoDup.
Qed.

Lemma Counter_get (l : list string) (w : string) :
  counter_get (Counter l) w = occurrences l w.
Proof. unfold Counter. now rewrite counter_get_fold. Qed.

Lemma Counter_total (l : list string) :
  counter_total (Counter l) = Z.of_nat (List.length l).
Proof.
  rewrite counter_total_zsum. unfold Counter. now rewrite counter_total_fold.
Qed.

(** *** The tally loop *)

Lemma tally_fold (gc : list (string * Z)) (entries : list (string * Z))
    (mc : Z) (nf : list string) :
  let found kv := Z.min (snd kv) (counter_get gc (fst kv)) in
  fold_left (tally_step gc) entries (mc, nf)
  = ((mc + zsum (map found entries))%Z,
     nf ++ flat_map (fun kv => Py.times (fst kv) (snd kv - found kv)) entries).
Proof.
  cbv zeta. revert mc nf.
  induction entries as [|[w n] entries IH]; intros mc nf.
  - cbn. rewrite app_nil_r. f_equal. lia.
  - cbn [fold_left tally_step map flat_map zsum fold_right fst snd].
    destruct (Z.ltb_spec (Z.min n (counter_get gc w)) n) as [H|H];
      rewrite IH; f_equal; unfold zsum; try lia.
    + now rewrite <- app_assoc.
    + replace (n - Z.min n (counter_get gc w))%Z with 0%Z by lia.
      reflexivity.
Qed.

Lemma occurrences_app (l1 l2 : list string) (w : string) :
  occurrences (l1 ++ l2) w = (occurrences l1 w + occurrences l2 w)%Z.
Proof. unfold occurrences. rewrite count_occ_app. lia. Qed.

Lemma occurrences_times (x w : string) (n : Z) :
  occurrences (Py.times x n) w
  = (if String.eqb x w then Z.max 0 n else 0)%Z.
Proof.
  unfold occurrences, Py.times.
  destruct (String.eqb_spec x w) as [->|H].
  - rewrite count_occ_repeat_eq by reflexivity. lia.
  - rewrite count_occ_repeat_neq by congruence. reflexivity.
Qed.

Lemma occurrences_not_In (l : list string) (w : string) :
  ~ In w l -> occurrences l w = 0%Z.
Proof.
  intros H. unfold occurrences.
  rewrite (proj1 (count_occ_not_In string_dec l w) H). reflexivity.
Qed.

(** In a list that repeats every key [f] times, a key occurs [f] times. *)
Lemma occurrences_flat_times (f : string -> Z) (keys : list string)
    (w : string) :
  NoDup keys -> (0 <= f w)%Z ->
  occurrences (flat_map (fun k => Py.times k (f k)) keys) w
  = (if existsb (String.eqb w) keys then f w else 0)%Z.
Proof.
  intros Hnd Hf. induction keys as [|k keys IH]; cbn [flat_map existsb].
  - reflexivity.
  - inversion Hnd as [|? ? Hk Hnd']; subst.
    rewrite occurrences_app, occurrences_times, (IH Hnd').
    rewrite (String.eqb_sym w k).
    destruct (String.eqb_spec k w) as [->|Hkw]; cbn [orb]; [|lia].
    destruct (existsb (String.eqb w) keys) eqn:E; [|lia].
    exfalso. apply Hk. apply existsb_exists in E.
    destruct E as (y & Hy & Hwy). apply String.eqb_eq in Hwy. now subst.
Qed.

Lemma match_nonempty {A B : Type} (l : list A) (x y : B) :
  l <> [] -> match l with [] => x | _ :: _ => y end = y.
Proof. destruct l; [congruence|reflexivity]. Qed.

(** The result on an original that has words. *)
Lemma content_accuracy_value (original generated : Document) :
  let ow := map Py.lower (extract_pdf_words original) in
  let gw := map Py.lower (extract_pdf_words generated) in
  let found w := Z.min (occurrences ow w) (occurrences gw w) in
  let match_count := zsum (map found (distinct ow)) in
  let total_count := Z.of_nat (List.length (extract_pdf_words original)) in
  let missing :=
    flat_map (fun w => Py.times w (occurrences ow w - found w)) (distinct ow) in
  extract_pdf_words original <> [] ->
  pdf_content_accuracy original generated
  = Some ((inject_Z match_count / inject_Z total_count * 100)%Q,
          match_count, total_count, missing).
Proof.
  intros ow gw found match_count total_count missing Hne.
  assert (Htot : counter_total (Counter ow) = total_count).
  { rewrite Counter_total. unfold ow. now rewrite length_map. }
  unfold pdf_content_accuracy. rewrite match_nonempty by exact Hne.
  fold ow gw. rewrite tally_fold. cbv beta iota zeta.
  rewrite Htot, (Counter_entries ow), !map_map, flat_map_concat_map, map_map.
  cbn [fst snd]. rewrite <- flat_map_concat_map.
  rewrite (map_ext _ found)
    by (intros w; now rewrite Counter_get).
  rewrite (flat_map_ext _ (fun w => Py.times w (occurrences ow w - found w)))
    by (intros w; now rewrite Counter_get).
  fold match_count missing. unfold Py.div.
  destruct (Z.eqb_spec total_count 0) as [H0|_].
  - exfalso. apply Hne. apply length_zero_iff_nil. unfold total_count in H0. lia.
  - rewrite Z.add_0_l. reflexivity.
Qed.



(** C10: when the original document has no word, [pdf_content_accuracy]
    returns [(0.0, 0, 0, [])] whatever the generated document is; and on no
    pair of documents does it divide by zero. *)
Theorem content_accuracy_empty_original (original generated : Document) :
  (extract_pdf_words original = [] ->
   pdf_content_accuracy original generated = Some (0%Q, 0%Z, 0%Z, []))
  /\ pdf_content_accuracy original generated <> None.
Proof.
  split.
  - intros E. unfold pdf_content_accuracy. now rewrite E.
  - destruct (extract_pdf_words original) as [|w0 ws] eqn:E.
    + unfold pdf_content_accuracy. rewrite E. discriminate.
    + assert (Hne : extract_pdf_words original <> []) by congruence.
      rewrite (content_accuracy_value original generated Hne).
      discriminate.
Qed.

(** A document without any word, against the generated sample. *)
Lemma content_accuracy_empty_original_example :
  pdf_content_accuracy [[]; [sample_word " "]] sample_generated
  = Some (0%Q, 0%Z, 0%Z, []).
Proof.
  exact (proj1 (content_accuracy_empty_original
                  [[]; [sample_word " "]] sample_generated) eq_refl).
Defined.

(** ** The word-level differ *)

(** *** [find_longest_match] returns a common run inside its window *)

Section MatchBounds.

Local Open Scope nat_scope.

Variables a b : list string.
Variable b2j : list (string * list nat).
Variables alo ahi blo bhi : nat.
Hypothesis Ha : alo <= ahi.
Hypothesis Hb : blo <= bhi.
Hypothesis Hb2j :
  forall x j, In j (Difflib.b2j_get b2j x) -> Difflib.item b j = x.

Local Abbreviation block_matches := (block_matches a b).
Local Abbreviation block_within := (block_within a b alo blo bhi).
Local Abbreviation run_within := (run_within a b alo blo).
Local Abbreviation row_within := (row_within a b alo blo).
Local Abbreviation block_inside := (block_inside a b alo ahi blo bhi).

Lemma j2len_get_within (n : nat) (j2len : list (nat * nat)) (j : nat) :
  row_within n j2len ->
  run_within n (j, Difflib.j2len_get j2len j)
  \/ Difflib.j2len_get j2len j = 0.
Proof.
  induction j2len as [|[k v] l IH]; intros H; cbn; [now right|].
  inversion H as [|? ? Hkv Hl]; subst.
  destruct (Nat.eqb_spec k j) as [->|_]; [now left|auto].
Qed.

Lemma scan_row_within (n i : nat) (j2len : list (nat * nat)) (js : list nat)
    (st : Difflib.block * list (nat * nat)) :
  i = alo + n ->
  row_within n j2len ->
  (forall j, In j js -> Difflib.item b j = Difflib.item a i) ->
  block_within (S n) (fst st) -> row_within (S n) (snd st) ->
  block_within (S n) (fst (Difflib.scan_row blo bhi i j2len js st))
  /\ row_within (S n) (snd (Difflib.scan_row blo bhi i j2len js st)).
Proof.
  intros Hi Hrow. revert st.
  induction js as [|j js IH]; intros st Hjs Hbest Hnew;
    cbn [Difflib.scan_row].
  - auto.
  - assert (Hjs' : forall j', In j' js -> Difflib.item b j' = Difflib.item a i)
      by (intros j' Hj'; apply Hjs; now right).
    destruct (Nat.ltb_spec j blo) as [Hlo|Hlo]; [now apply IH|].
    destruct (Nat.leb_spec bhi j) as [Hhi|Hhi]; [auto|].
    destruct st as [[[besti bestj] bestsize] newj2len].
    cbn [fst snd] in *.
    assert (Hk : run_within (S n) (j, Difflib.j2len_get_pred j2len j + 1)).
    { assert (H0 : Difflib.item a (alo + S n - 1 - 0) = Difflib.item b (j - 0)).
      { rewrite !Nat.sub_0_r. replace (alo + S n - 1) with i by lia.
        symmetry. apply Hjs. now left. }
      unfold Difflib.j2len_get_pred. destruct j as [|j'].
      - cbn. repeat split; try lia. intros t Ht.
        replace t with 0 by lia. exact H0.
      - destruct (j2len_get_within n j2len j' Hrow) as [(H1 & H2 & H3)|E].
        + repeat split; try lia. intros t Ht. destruct t as [|t']; [exact H0|].
          replace (alo + S n - 1 - S t') with (alo + n - 1 - t') by lia.
          replace (S j' - S t') with (j' - t') by lia.
          apply H3. lia.
        + rewrite E. cbn. repeat split; try lia. intros t Ht.
          replace t with 0 by lia. exact H0. }
    set (k := Difflib.j2len_get_pred j2len j + 1) in *.
    assert (Hnew' : row_within (S n) (newj2len ++ [(j, k)])).
    { apply Forall_app. split; [exact Hnew|]. constructor; [exact Hk|constructor]. }
    destruct (Nat.ltb_spec bestsize k); apply IH; cbn [fst snd]; auto.
    destruct Hk as (H1 & H2 & H3).
    unfold block_within, block_matches. split; [lia|].
    intros t Ht. specialize (H3 (k - 1 - t) ltac:(lia)).
    replace (alo + S n - 1 - (k - 1 - t)) with (i + 1 - k + t) in H3 by lia.
    replace (j - (k - 1 - t)) with (j + 1 - k + t) in H3 by lia.
    exact H3.
Qed.

Lemma scan_rows_from (n : nat) :
  alo + n <= ahi ->
  let st := fold_left
              (fun st i =>
                 let '(best, j2len) := st in
                 Difflib.scan_row blo bhi i j2len
                   (Difflib.b2j_get b2j (Difflib.item a i)) (best, []))
              (seq alo n) ((alo, blo, 0), []) in
  block_within n (fst st) /\ row_within n (snd st).
Proof.
  cbv zeta. induction n as [|n IH]; intros Hn.
  - cbn. split; [split; [lia|intros t Ht; lia]|constructor].
  - rewrite seq_S, fold_left_app. cbn [fold_left].
    destruct IH as [IH1 IH2]; [lia|].
    destruct (fold_left _ (seq alo n) _) as [best j2len].
    cbn [fst snd] in *.
    apply scan_row_within; cbn [fst snd]; auto; [|constructor].
    destruct best as [[i j] k]. unfold block_within in *.
    split; [lia|apply IH1].
Qed.

Lemma scan_rows_inside :
  block_inside (fst (Difflib.scan_rows a b2j alo ahi blo bhi)).
Proof.
  unfold Difflib.scan_rows.
  destruct (scan_rows_from (ahi - alo)) as [H _]; [lia|].
  destruct (fst _) as [[i j] k]. unfold block_within, block_inside in *.
  split; [lia|apply H].
Qed.

Lemma extend_back_inside (junk : bool) (besti bestj bestsize : nat) :
  block_inside (besti, bestj, bestsize) ->
  block_inside (Difflib.extend_back a b alo blo junk besti bestj bestsize).
Proof.
  revert bestj bestsize.
  induction besti as [|i' IH]; intros bestj bestsize H;
    destruct bestj as [|j']; cbn [Difflib.extend_back]; try exact H.
  destruct (_ && _) eqn:G; [|exact H].
  rewrite !andb_true_iff, !Nat.ltb_lt, String.eqb_eq in G.
  apply IH. unfold block_inside, block_matches in *.
  split; [lia|]. intros t Ht. destruct t as [|t'].
  - rewrite !Nat.add_0_r. apply G.
  - replace (i' + S t') with (S i' + t') by lia.
    replace (j' + S t') with (S j' + t') by lia. apply H. lia.
Qed.

Lemma extend_fwd_inside (junk : bool) (fuel besti bestj bestsize : nat) :
  block_inside (besti, bestj, bestsize) ->
  block_inside (Difflib.extend_fwd a b ahi bhi junk fuel besti bestj bestsize).
Proof.
  revert bestsize.
  induction fuel as [|fuel IH]; intros bestsize H;
    cbn [Difflib.extend_fwd]; [exact H|].
  destruct (_ && _) eqn:G; [|exact H].
  rewrite !andb_true_iff, !Nat.ltb_lt, String.eqb_eq in G.
  apply IH. unfold block_inside, block_matches in *.
  split; [lia|]. intros t Ht.
  destruct (Nat.eq_dec t bestsize) as [->|Hne]; [apply G|apply H; lia].
Qed.

(** [ahi - (besti + bestsize)] rounds are all the forward loop can make:
    more rounds change nothing. *)
Lemma extend_fwd_rounds (junk : bool) (fuel besti bestj bestsize : nat) :
  ahi - (besti + bestsize) <= fuel ->
  Difflib.extend_fwd a b ahi bhi junk fuel besti bestj bestsize
  = Difflib.extend_fwd a b ahi bhi junk (ahi - (besti + bestsize))
      besti bestj bestsize.
Proof.
  revert bestsize. induction fuel as [|fuel IH]; intros bestsize Hf.
  - replace (ahi - (besti + bestsize)) with 0 by lia. reflexivity.
  - destruct (ahi - (besti + bestsize)) as [|d] eqn:E.
    + cbn [Difflib.extend_fwd].
      destruct (Nat.ltb_spec (besti + bestsize) ahi); [lia|reflexivity].
    + cbn [Difflib.extend_fwd].
      destruct (_ && _); [|reflexivity].
      rewrite IH by lia. f_equal. lia.
Qed.

Lemma extend_inside (junk : bool) (m : Difflib.block) :
  block_inside m -> block_inside (Difflib.extend a b alo ahi blo bhi junk m).
Proof.
  intros H. unfold Difflib.extend. destruct m as [[i j] k].
  pose proof (extend_back_inside junk i j k H) as H'.
  destruct (Difflib.extend_back a b alo blo junk i j k) as [[i' j'] k'].
  now apply extend_fwd_inside.
Qed.

Lemma find_longest_match_inside :
  block_inside (Difflib.find_longest_match a b b2j alo ahi blo bhi).
Proof.
  unfold Difflib.find_longest_match.
  apply extend_inside, extend_inside, scan_rows_inside.
Qed.

End MatchBounds.

(** *** [__chain_b] records positions of [b] *)

Section ChainB.

Local Open Scope nat_scope.

Variable b : list string.

Local Abbreviation positions_ok := (positions_ok b).

Lemma setdefault_append_ok (d : list (string * list nat)) (elt : string)
    (i : nat) :
  positions_ok d -> Difflib.item b i = elt ->
  positions_ok (Difflib.setdefault_append d elt i).
Proof.
  intros Hd Hi. induction d as [|[k v] d IH]; cbn.
  - constructor; [|constructor]. cbn. intros j [<-|[]]. exact Hi.
  - apply Forall_cons_iff in Hd. destruct Hd as [Hkv Hd']. cbn in Hkv.
    destruct (String.eqb_spec k elt) as [->|_].
    + constructor; [|exact Hd']. cbn. intros j Hj.
      apply in_app_or in Hj. destruct Hj as [Hj|[<-|[]]]; auto.
    + constructor; [exact Hkv|apply IH; exact Hd'].
Qed.

Lemma enumerate_item (l : list string) (n i : nat) (e : string) :
  In (i, e) (combine (seq n (List.length l)) l) ->
  n <= i /\ nth (i - n) l "" = e.
Proof.
  revert n. induction l as [|x l IH]; intros n H; cbn in H; [contradiction|].
  destruct H as [H|H].
  - injection H as <- <-. rewrite Nat.sub_diag. auto.
  - apply IH in H. destruct H as [H1 H2]. split; [lia|].
    replace (i - n) with (S (i - S n)) by lia. exact H2.
Qed.

Lemma b2j_get_ok (d : list (string * list nat)) (x : string) (j : nat) :
  positions_ok d -> In j (Difflib.b2j_get d x) -> Difflib.item b j = x.
Proof.
  intros Hd. induction d as [|[k v] d IH]; cbn; [contradiction|].
  apply Forall_cons_iff in Hd. destruct Hd as [Hkv Hd']. cbn in Hkv.
  destruct (String.eqb_spec k x) as [->|_]; auto.
Qed.

Lemma chain_b_ok : positions_ok (Difflib.chain_b b).
Proof.
  unfold Difflib.chain_b.
  assert (H : positions_ok
                (fold_left
                   (fun d ie => Difflib.setdefault_append d (snd ie) (fst ie))
                   (Difflib.enumerate b) [])).
  { assert (G : forall l d,
               positions_ok d ->
               (forall ie, In ie l -> Difflib.item b (fst ie) = snd ie) ->
               positions_ok
                 (fold_left
                    (fun d ie =>
                       Difflib.setdefault_append d (snd ie) (fst ie)) l d)).
    { induction l as [|ie l IH]; intros d Hd Hl; cbn; [exact Hd|].
      apply IH.
      - apply setdefault_append_ok; [exact Hd|]. apply Hl. now left.
      - intros ie' Hie'. apply Hl. now right. }
    apply G; [constructor|].
    intros [i e] Hie. apply enumerate_item in Hie. cbn.
    unfold Difflib.item. now rewrite Nat.sub_0_r in Hie. }
  destruct (200 <=? List.length b); [|exact H].
  unfold positions_ok in *. rewrite Forall_forall in *.
  intros kv Hkv. apply filter_In in Hkv. now apply H.
Qed.

Lemma chain_b_get (x : string) (j : nat) :
  In j (Difflib.b2j_get (Difflib.chain_b b) x) -> Difflib.item b j = x.
Proof. apply b2j_get_ok, chain_b_ok. Qed.

End ChainB.

(** *** Lists in which every element comes before the later ones *)

Section Chains.

Context {A : Type} (R : A -> A -> Prop).

Lemma StronglySorted_app_iff (l1 l2 : list A) :
  StronglySorted R (l1 ++ l2) <->
  StronglySorted R l1 /\ StronglySorted R l2
  /\ (forall x y, In x l1 -> In y l2 -> R x y).
Proof.
  induction l1 as [|z l1 IH]; cbn.
  - split.
    + intros H. repeat split; [constructor|exact H|intros x y []].
    + tauto.
  - split.
    + intros H. inversion H as [|? ? Hss Hall]; subst.
      apply IH in Hss. destruct Hss as (H1 & H2 & H3).
      rewrite Forall_app in Hall. destruct Hall as [Ha1 Ha2].
      repeat split; [constructor; auto|exact H2|].
      intros x y [<-|Hx] Hy; [|auto]. rewrite Forall_forall in Ha2. auto.
    + intros (H1 & H2 & H3). inversion H1 as [|? ? Hss Hall]; subst.
      constructor.
      * apply IH. repeat split; auto.
      * apply Forall_app. split; [exact Hall|].
        apply Forall_forall. intros y Hy. apply H3; auto.
Qed.

Lemma ForallOrdPairs_snoc (l : list A) (x : A) :
  ForallOrdPairs R l -> Forall (fun y => R y x) l ->
  ForallOrdPairs R (l ++ [x]).
Proof.
  induction l as [|z l IH]; intros Hl Hx; cbn.
  - constructor; constructor.
  - inversion Hl as [|? ? Hz Hl']; subst.
    inversion Hx as [|? ? Hzx Hx']; subst.
    constructor; [|auto]. apply Forall_app. split; [exact Hz|].
    constructor; [exact Hzx|constructor].
Qed.

End Chains.

(** *** The blocks of [get_matching_blocks] *)

Section MatchLoop.

Local Open Scope nat_scope.

Variables a b : list string.

Let la := List.length a.
Let lb := List.length b.

Local Abbreviation range_ok := (range_ok a b).
Local Abbreviation block_ok := (block_ok a b).
Local Abbreviation loop_inv := (loop_inv a b).

Lemma apart_inside (r1 r2 x : rect) :
  apart r2 x -> inside r1 r2 -> apart r1 x.
Proof.
  destruct r1 as [[[alo1 ahi1] blo1] bhi1], r2 as [[[alo2 ahi2] blo2] bhi2],
    x as [[[alox ahix] blox] bhix].
  unfold apart, before, inside. lia.
Qed.

Lemma apart_sym (r1 r2 : rect) : apart r1 r2 -> apart r2 r1.
Proof. unfold apart. tauto. Qed.

Lemma loop_inv_push (r : rect) (queue : list rect)
    (blocks : list Difflib.block) :
  loop_inv queue blocks ->
  range_ok r -> Forall (apart r) queue ->
  Forall (fun m => apart r (rect_of m)) blocks ->
  loop_inv (r :: queue) blocks.
Proof.
  intros (I1 & I2 & I3 & I4 & I5) H1 H2 H3.
  repeat split; auto; constructor; auto.
Qed.

Lemma loop_inv_found (r : rect) (queue : list rect)
    (blocks : list Difflib.block) (m : Difflib.block) :
  loop_inv (r :: queue) blocks ->
  block_ok m -> inside (rect_of m) r ->
  loop_inv queue (blocks ++ [m]).
Proof.
  intros (I1 & I2 & I3 & I4 & I5) Hm Hin.
  inversion I1 as [|? ? Hr I1']; subst.
  inversion I4 as [|? ? Hrq I4']; subst.
  inversion I5 as [|? ? Hrb I5']; subst.
  repeat split.
  - exact I1'.
  - apply Forall_app. split; [exact I2|]. constructor; [exact Hm|constructor].
  - rewrite map_app. apply ForallOrdPairs_snoc; [exact I3|].
    apply Forall_map. eapply Forall_impl; [|exact Hrb].
    intros x Hx. apply apart_sym.
    apply (apart_inside _ r); [exact Hx|exact Hin].
  - exact I4'.
  - rewrite Forall_forall in *. intros q Hq.
    apply Forall_app. split; [auto|]. constructor; [|constructor].
    apply apart_sym. eapply apart_inside; [|exact Hin].
    apply Hrq. exact Hq.
Qed.

Lemma match_loop_inv (fuel : nat) :
  forall queue blocks,
    loop_inv queue blocks ->
    loop_inv
      (snd (Difflib.match_loop a b (Difflib.chain_b b) fuel queue blocks))
      (fst (Difflib.match_loop a b (Difflib.chain_b b) fuel queue blocks)).
Proof.
  induction fuel as [|fuel IH]; intros queue blocks Hinv;
    cbn [Difflib.match_loop]; [exact Hinv|].
  destruct queue as [|[[[alo ahi] blo] bhi] queue].
  - destruct Hinv as (I1 & I2 & I3 & I4 & I5). repeat split; auto.
  - assert (Hr : range_ok (alo, ahi, blo, bhi)).
    { destruct Hinv as (I1 & _). now inversion I1. }
    destruct Hr as (Hr1 & Hr2 & Hr3 & Hr4).
    pose proof (find_longest_match_inside a b (Difflib.chain_b b)
                  alo ahi blo bhi Hr1 Hr3 (chain_b_get b)) as Hm.
    destruct (Difflib.find_longest_match a b (Difflib.chain_b b)
                alo ahi blo bhi) as [[i j] k].
    destruct Hm as [Hbounds Hmatch].
    destruct (Nat.ltb_spec 0 k) as [Hk|Hk].
    + apply IH.
      assert (Hfound : loop_inv queue (blocks ++ [(i, j, k)])).
      { eapply loop_inv_found; [exact Hinv| |].
        - split; [lia|exact Hmatch].
        - cbn. lia. }
      assert (Hq : forall r, inside r (alo, ahi, blo, bhi) ->
                     Forall (apart r) queue).
      { intros r Hin. destruct Hinv as (_ & _ & _ & I4 & _).
        inversion I4 as [|? ? Hrq _]; subst.
        eapply Forall_impl; [|exact Hrq].
        intros x Hx. apply (apart_inside _ (alo, ahi, blo, bhi)); assumption. }
      assert (Hb : forall r, inside r (alo, ahi, blo, bhi) ->
                     apart r (rect_of (i, j, k)) ->
                     Forall (fun m => apart r (rect_of m))
                            (blocks ++ [(i, j, k)])).
      { intros r Hin Hap. destruct Hinv as (_ & _ & _ & _ & I5).
        inversion I5 as [|? ? Hrb _]; subst.
        apply Forall_app. split; [|constructor; [exact Hap|constructor]].
        eapply Forall_impl; [|exact Hrb].
        intros x Hx. apply (apart_inside _ (alo, ahi, blo, bhi)); assumption. }
      assert (Hleft : (alo <? i) && (blo <? j) = true ->
                loop_inv ((alo, i, blo, j) :: queue) (blocks ++ [(i, j, k)])).
      { intros G. apply loop_inv_push; [exact Hfound| | |].
        - cbn. unfold la, lb in *. lia.
        - apply Hq. cbn. lia.
        - apply Hb; [cbn; lia|]. left. cbn. lia. }
      destruct ((alo <? i) && (blo <? j)) eqn:G1;
        destruct ((i + k <? ahi) && (j + k <? bhi)) eqn:G2; auto.
      * apply loop_inv_push; [auto| | |].
        -- cbn. unfold la, lb in *. lia.
        -- constructor; [right; cbn; lia|]. apply Hq. cbn. lia.
        -- apply Hb; [cbn; lia|]. right. cbn. lia.
      * apply loop_inv_push; [auto| | |].
        -- cbn. unfold la, lb in *. lia.
        -- apply Hq. cbn. lia.
        -- apply Hb; [cbn; lia|]. right. cbn. lia.
    + apply IH. destruct Hinv as (I1 & I2 & I3 & I4 & I5).
      inversion I1; inversion I4; inversion I5; subst.
      repeat split; auto.
Qed.

(** With enough rounds the loop ends on an empty stack. *)
Lemma match_loop_done (fuel : nat) :
  forall queue blocks,
    Forall range_ok queue -> weight queue <= fuel ->
    snd (Difflib.match_loop a b (Difflib.chain_b b) fuel queue blocks) = [].
Proof.
  induction fuel as [|fuel IH]; intros queue blocks Hq Hw;
    cbn [Difflib.match_loop].
  - destruct queue as [|[[[alo ahi] blo] bhi] queue]; [reflexivity|].
    cbn in Hw. lia.
  - destruct queue as [|[[[alo ahi] blo] bhi] queue]; [reflexivity|].
    inversion Hq as [|? ? Hr Hq']; subst.
    destruct Hr as (Hr1 & Hr2 & Hr3 & Hr4).
    pose proof (find_longest_match_inside a b (Difflib.chain_b b)
                  alo ahi blo bhi Hr1 Hr3 (chain_b_get b)) as Hm.
    destruct (Difflib.find_longest_match a b (Difflib.chain_b b)
                alo ahi blo bhi) as [[i j] k].
    destruct Hm as [Hbounds _]. cbn [weight fold_right] in Hw.
    fold (weight queue) in Hw.
    destruct (Nat.ltb_spec 0 k) as [Hk|Hk].
    + apply IH.
      * destruct ((alo <? i) && (blo <? j));
          destruct ((i + k <? ahi) && (j + k <? bhi));
          repeat constructor; auto; unfold la, lb in *; lia.
      * destruct ((alo <? i) && (blo <? j));
          destruct ((i + k <? ahi) && (j + k <? bhi));
          cbn [weight fold_right]; fold (weight queue); lia.
    + apply IH; [exact Hq'|lia].
Qed.

(** [get_matching_blocks] gives its loop enough rounds: the loop stops on an
    empty stack. *)
Lemma get_matching_blocks_rounds :
  snd (Difflib.match_loop a b (Difflib.chain_b b) (Difflib.rounds la)
         [(0, la, 0, lb)] [])
  = [].
Proof.
  apply match_loop_done.
  - constructor; [|constructor]. cbn. unfold la, lb. lia.
  - unfold Difflib.rounds. cbn. lia.
Qed.

End MatchLoop.

(** *** Sorting and merging the blocks *)

Section SortedBlocks.

Local Open Scope nat_scope.

Variables a b : list string.

Local Abbreviation block_fits := (block_fits a b).

Lemma bbefore_trans (x y z : Difflib.block) :
  bbefore x y -> bbefore y z -> bbefore x z.
Proof.
  destruct x as [[i1 j1] k1], y as [[i2 j2] k2], z as [[i3 j3] k3].
  unfold bbefore, before, rect_of. lia.
Qed.

Lemma insert_block_In (x y : Difflib.block) (l : list Difflib.block) :
  In y (Difflib.insert_block x l) <-> y = x \/ In y l.
Proof.
  induction l as [|z l IH]; cbn.
  - intuition.
  - destruct (Difflib.block_leb x z); cbn; [intuition|].
    rewrite IH. intuition.
Qed.

Lemma insert_block_chain (x : Difflib.block) (l : list Difflib.block) :
  StronglySorted bbefore l ->
  Forall (fun y => apart (rect_of x) (rect_of y)) l ->
  positive_size x -> Forall positive_size l ->
  StronglySorted bbefore (Difflib.insert_block x l).
Proof.
  intros Hss Hap Hx Hl. induction l as [|y l IH]; cbn.
  - constructor; constructor.
  - inversion Hss as [|? ? Hss' Hy]; subst.
    inversion Hap as [|? ? Hxy Hap']; subst.
    inversion Hl as [|? ? Hyk Hl']; subst.
    destruct (Difflib.block_leb x y) eqn:G.
    + assert (Hb : bbefore x y).
      { destruct x as [[i1 j1] k1], y as [[i2 j2] k2].
        unfold apart, bbefore, before, rect_of, positive_size in *.
        cbv beta iota delta [Difflib.block_leb] in G.
        destruct Hxy as [H|H]; [exact H|].
        rewrite !orb_true_iff, !andb_true_iff, !orb_true_iff, !andb_true_iff,
          !Nat.ltb_lt, !Nat.eqb_eq, Nat.leb_le in G. lia. }
      constructor; [exact Hss|]. constructor; [exact Hb|].
      eapply Forall_impl; [|exact Hy]. intros z Hz.
      eapply bbefore_trans; eauto.
    + assert (Hb : bbefore y x).
      { destruct x as [[i1 j1] k1], y as [[i2 j2] k2].
        unfold apart, bbefore, before, rect_of, positive_size in *.
        cbv beta iota delta [Difflib.block_leb] in G.
        destruct Hxy as [H|H]; [|exact H].
        rewrite !orb_false_iff, !andb_false_iff, !orb_false_iff,
          !andb_false_iff, !Nat.ltb_ge in G. lia. }
      constructor; [now apply IH|].
      apply Forall_forall. intros z Hz.
      apply (proj1 (insert_block_In x z l)) in Hz.
      destruct Hz as [->|Hz]; [exact Hb|].
      rewrite Forall_forall in Hy. now apply Hy.
Qed.

Lemma sort_blocks_In (l : list Difflib.block) (y : Difflib.block) :
  In y (Difflib.sort_blocks l) <-> In y l.
Proof.
  induction l as [|x l IH]; cbn; [tauto|].
  rewrite insert_block_In, IH. intuition.
Qed.

Lemma sort_blocks_chain (l : list Difflib.block) :
  Forall positive_size l ->
  ForallOrdPairs apart (map rect_of l) ->
  StronglySorted bbefore (Difflib.sort_blocks l).
Proof.
  induction l as [|x l IH]; intros Hk Hap; cbn.
  - constructor.
  - inversion Hk as [|? ? Hx Hk']; subst.
    inversion Hap as [|? ? Hxl Hap']; subst.
    apply insert_block_chain; auto.
    + apply Forall_forall. intros y Hy.
      apply (proj1 (sort_blocks_In l y)) in Hy.
      rewrite Forall_forall in Hxl. apply Hxl. now apply in_map.
    + apply Forall_forall. intros y Hy.
      apply (proj1 (sort_blocks_In l y)) in Hy.
      rewrite Forall_forall in Hk'. now apply Hk'.
Qed.

Lemma block_ok_fits (m : Difflib.block) :
  block_ok a b m <-> positive_size m /\ block_fits m.
Proof.
  destruct m as [[i j] k]. unfold block_ok, block_fits, positive_size. tauto.
Qed.

Lemma collapse_loop (rest : list Difflib.block) :
  forall i1 j1 k1 done,
    StronglySorted bbefore (done ++ (i1, j1, k1) :: rest) ->
    Forall block_fits (done ++ (i1, j1, k1) :: rest) ->
    Forall positive_size done ->
    let '(i1', j1', k1', done') :=
      fold_left Difflib.collapse_step rest (i1, j1, k1, done) in
    StronglySorted bbefore (done' ++ [(i1', j1', k1')])
    /\ Forall block_fits (done' ++ [(i1', j1', k1')])
    /\ Forall positive_size done'.
Proof.
  induction rest as [|[[i2 j2] k2] rest IH]; intros i1 j1 k1 done Hss Hfit Hpos.
  - cbn. auto.
  - cbn [fold_left Difflib.collapse_step].
    apply StronglySorted_app_iff in Hss. destruct Hss as (S1 & S2 & S3).
    inversion S2 as [|? ? S2' Hcur]; subst.
    inversion S2' as [|? ? S2'' Hx]; subst.
    inversion Hcur as [|? ? Hcx Hcur']; subst.
    apply Forall_app in Hfit. destruct Hfit as [F1 F2].
    inversion F2 as [|? ? Fc F2']; subst.
    inversion F2' as [|? ? Fx F2'']; subst.
    destruct ((i1 + k1 =? i2) && (j1 + k1 =? j2)) eqn:G.
    + rewrite andb_true_iff, !Nat.eqb_eq in G. destruct G as [<- <-].
      apply IH; [| |exact Hpos].
      * apply StronglySorted_app_iff. repeat split.
        -- exact S1.
        -- constructor; [exact S2''|].
           eapply Forall_impl; [|exact Hx]. intros [[i3 j3] k3].
           unfold bbefore, before, rect_of. lia.
        -- intros x y Hx' [<-|Hy].
           ++ specialize (S3 x (i1, j1, k1) Hx' (or_introl eq_refl)).
              destruct x as [[i0 j0] k0].
              unfold bbefore, before, rect_of in *. lia.
           ++ apply S3; [exact Hx'|]. right. now right.
      * apply Forall_app. split; [exact F1|]. constructor; [|exact F2''].
        destruct Fc as [Fc1 Fc2], Fx as [Fx1 Fx2].
        split; [lia|]. intros t Ht.
        destruct (Nat.lt_ge_cases t k1) as [Hlt|Hge]; [now apply Fc2|].
        specialize (Fx2 (t - k1) ltac:(lia)).
        replace (i1 + k1 + (t - k1)) with (i1 + t) in Fx2 by lia.
        replace (j1 + k1 + (t - k1)) with (j1 + t) in Fx2 by lia.
        exact Fx2.
    + assert (Hdrop : StronglySorted bbefore (done ++ (i2, j2, k2) :: rest)).
      { apply StronglySorted_app_iff. repeat split; auto.
        intros x y Hx' Hy. apply S3; [exact Hx'|]. now right. }
      destruct (Nat.ltb_spec 0 k1) as [Hk|Hk].
      * apply IH.
        -- rewrite <- app_assoc. cbn.
           apply StronglySorted_app_iff. repeat split; auto.
        -- rewrite <- app_assoc. cbn. apply Forall_app. auto.
        -- apply Forall_app. split; [exact Hpos|].
           constructor; [exact Hk|constructor].
      * apply IH; [exact Hdrop| |exact Hpos].
        apply Forall_app. auto.
Qed.

Lemma collapse_chain (l : list Difflib.block) :
  StronglySorted bbefore l -> Forall (block_ok a b) l ->
  StronglySorted bbefore (Difflib.collapse l)
  /\ Forall (block_ok a b) (Difflib.collapse l).
Proof.
  intros Hss Hok. unfold Difflib.collapse.
  change (fold_left _ l (0, 0, 0, []))
    with (fold_left Difflib.collapse_step l (0, 0, 0, [])).
  assert (P1 : StronglySorted bbefore ([] ++ (0, 0, 0) :: l)).
  { constructor; [exact Hss|].
    apply Forall_forall. intros [[i j] k] _.
    unfold bbefore, before, rect_of. lia. }
  assert (P2 : Forall block_fits ([] ++ (0, 0, 0) :: l)).
  { constructor.
    - split; [lia|]. intros t Ht. lia.
    - eapply Forall_impl; [|exact Hok]. intros m Hm.
      now apply block_ok_fits in Hm. }
  set (st := fold_left Difflib.collapse_step l (0, 0, 0, [])).
  assert (H : let '(i1', j1', k1', done') := st in
              StronglySorted bbefore (done' ++ [(i1', j1', k1')])
              /\ Forall block_fits (done' ++ [(i1', j1', k1')])
              /\ Forall positive_size done')
    by exact (collapse_loop l 0 0 0 [] P1 P2 (Forall_nil _)).
  clearbody st. destruct st as [[[i1 j1] k1] done].
  destruct H as (H1 & H2 & H3).
  apply Forall_app in H2. destruct H2 as [H2 H2'].
  assert (Hdone : Forall (block_ok a b) done).
  { rewrite Forall_forall in *. intros m Hm. apply block_ok_fits. auto. }
  destruct (Nat.ltb_spec 0 k1) as [Hk|Hk].
  - split; [exact H1|]. apply Forall_app. split; [exact Hdone|].
    constructor; [|constructor]. apply block_ok_fits. split; [exact Hk|].
    now inversion H2'.
  - split; [|exact Hdone].
    apply StronglySorted_app_iff in H1. tauto.
Qed.

(** The list [get_matching_blocks] returns: common runs that are not empty,
    each before the next one, and the closing block [(la, lb, 0)]. *)
Lemma get_matching_blocks_chain :
  exists blocks,
    Difflib.get_matching_blocks a b
    = blocks ++ [(List.length a, List.length b, 0)]
    /\ StronglySorted bbefore (blocks ++ [(List.length a, List.length b, 0)])
    /\ Forall (block_ok a b) blocks.
Proof.
  unfold Difflib.get_matching_blocks.
  set (la := List.length a). set (lb := List.length b).
  pose proof (match_loop_inv a b (Difflib.rounds la) [(0, la, 0, lb)] []) as H.
  destruct H as (_ & I2 & I3 & _).
  { repeat split; try constructor; try constructor; cbn; lia. }
  set (found := fst (Difflib.match_loop a b (Difflib.chain_b b)
                       (Difflib.rounds la) [(0, la, 0, lb)] [])) in *.
  assert (Hpos : Forall positive_size found).
  { eapply Forall_impl; [|exact I2]. intros m Hm.
    now apply block_ok_fits in Hm. }
  assert (Hsorted : Forall (block_ok a b) (Difflib.sort_blocks found)).
  { rewrite Forall_forall in *. intros m Hm.
    apply (proj1 (sort_blocks_In found m)) in Hm. auto. }
  destruct (collapse_chain (Difflib.sort_blocks found)
              (sort_blocks_chain found Hpos I3) Hsorted) as [C1 C2].
  exists (Difflib.collapse (Difflib.sort_blocks found)).
  repeat split; [|exact C2].
  apply StronglySorted_app_iff. repeat split; [exact C1|repeat constructor|].
  intros x y Hx [<-|[]]. rewrite Forall_forall in C2. specialize (C2 x Hx).
  destruct x as [[i j] k]. destruct C2 as [C2 _].
  unfold bbefore, before, rect_of. fold la lb in C2. lia.
Qed.

End SortedBlocks.

(** *** The opcodes tile the two lists *)

Section Opcodes.

Local Open Scope nat_scope.

Variables a b : list string.

Local Abbreviation tiled := (tiled a b).

Lemma firstn_slice (l : list string) (i i2 : nat) :
  i <= i2 -> firstn i l ++ Py.slice l i i2 = firstn i2 l.
Proof.
  intros H. unfold Py.slice. rewrite firstn_skipn_comm.
  replace (i + (i2 - i)) with i2 by lia.
  rewrite <- (firstn_skipn i (firstn i2 l)) at 2.
  f_equal. rewrite firstn_firstn. f_equal. lia.
Qed.

Lemma slice_empty (l : list string) (i : nat) : Py.slice l i i = [].
Proof. unfold Py.slice. now rewrite Nat.sub_diag. Qed.

Lemma slice_length (l : list string) (i i2 : nat) :
  i <= i2 -> i2 <= List.length l -> List.length (Py.slice l i i2) = i2 - i.
Proof.
  intros H1 H2. unfold Py.slice. rewrite length_firstn, length_skipn. lia.
Qed.

Lemma slice_nonempty (l : list string) (i i2 : nat) :
  i < i2 -> i2 <= List.length l -> Py.slice l i i2 <> [].
Proof.
  intros H1 H2 E. apply (f_equal (@List.length string)) in E.
  rewrite slice_length in E by lia. cbn in E. lia.
Qed.

Lemma slice_nth (l : list string) (i i2 t : nat) :
  t < i2 - i -> nth t (Py.slice l i i2) "" = Difflib.item l (i + t).
Proof.
  intros H. unfold Py.slice, Difflib.item.
  rewrite nth_firstn, nth_skipn.
  destruct (Nat.ltb_spec t (i2 - i)); [reflexivity|lia].
Qed.

(** The two runs of a common block are the same words. *)
Lemma block_slices (i j k : nat) :
  block_fits a b (i, j, k) ->
  Py.slice a i (i + k) = Py.slice b j (j + k).
Proof.
  intros [[H1 H2] H3].
  apply (nth_ext _ _ "" "").
  - rewrite !slice_length by lia. lia.
  - intros t Ht. rewrite slice_length in Ht by lia.
    rewrite !slice_nth by lia. apply H3. lia.
Qed.

Lemma tiled_snoc (i j i' j' : nat) (answer : list Difflib.opcode)
    (t : Difflib.tag) :
  tiled (i, j, answer) ->
  i <= i' -> j <= j' ->
  opcode_ok a b (t, i, i', j, j') ->
  tiled (i', j', answer ++ [(t, i, i', j, j')]).
Proof.
  intros (H1 & H2 & H3) Hi Hj Hop. repeat split.
  - apply Forall_app. split; [exact H1|]. constructor; [exact Hop|constructor].
  - rewrite map_app, concat_app, H2. cbn. rewrite app_nil_r.
    now apply firstn_slice.
  - rewrite map_app, concat_app, H3. cbn. rewrite app_nil_r.
    now apply firstn_slice.
Qed.

Lemma opcode_step_tiled (st : nat * nat * list Difflib.opcode)
    (m : Difflib.block) :
  tiled st -> block_fits a b m ->
  (let '(i, j, _) := st in let '(ai, bj, _) := m in i <= ai /\ j <= bj) ->
  tiled (Difflib.opcode_step st m)
  /\ (let '(i', j', _) := Difflib.opcode_step st m in
      let '(ai, bj, size) := m in i' = ai + size /\ j' = bj + size).
Proof.
  destruct st as [[i j] answer], m as [[ai bj] size].
  intros Ht Hfit [Hi Hj]. pose proof Hfit as [[F1 F2] F3].
  unfold Difflib.opcode_step.
  assert (Hgap : tiled (ai, bj,
            if (i <? ai) && (j <? bj)
            then answer ++ [(Difflib.Replace, i, ai, j, bj)]
            else if i <? ai then answer ++ [(Difflib.Delete, i, ai, j, bj)]
            else if j <? bj then answer ++ [(Difflib.Insert, i, ai, j, bj)]
            else answer)).
  { destruct (Nat.ltb_spec i ai) as [Hia|Hia];
      destruct (Nat.ltb_spec j bj) as [Hjb|Hjb]; cbn [andb].
    - apply tiled_snoc; auto. split; [lia|].
      split; apply slice_nonempty; lia.
    - assert (j = bj) by lia. subst bj.
      apply tiled_snoc; auto. split; [lia|].
      split; [apply slice_nonempty; lia|apply slice_empty].
    - assert (i = ai) by lia. subst ai.
      apply tiled_snoc; auto. split; [lia|].
      split; [apply slice_empty|apply slice_nonempty; lia].
    - assert (i = ai) by lia. assert (j = bj) by lia. subst. exact Ht. }
  set (gap := if (i <? ai) && (j <? bj) then _ else _) in *. clearbody gap.
  cbv beta iota zeta. split; [|auto].
  destruct (Nat.ltb_spec 0 size) as [Hs|Hs].
  - apply tiled_snoc; auto; try lia. split; [lia|].
    split; [apply slice_nonempty; lia|]. now apply block_slices.
  - assert (size = 0) by lia. subst size. rewrite !Nat.add_0_r. exact Hgap.
Qed.

Lemma opcode_step_ends (st : nat * nat * list Difflib.opcode)
    (ai bj size : nat) :
  fst (fst (Difflib.opcode_step st (ai, bj, size))) = ai + size
  /\ snd (fst (Difflib.opcode_step st (ai, bj, size))) = bj + size.
Proof.
  destruct st as [[i j] answer]. unfold Difflib.opcode_step. cbv beta iota zeta. auto.
Qed.

Lemma opcode_loop (blocks : list Difflib.block) :
  forall st,
    tiled st ->
    StronglySorted bbefore blocks ->
    Forall (block_fits a b) blocks ->
    Forall (fun m => let '(i, j, _) := st in
                     let '(ai, bj, _) := m in i <= ai /\ j <= bj) blocks ->
    tiled (fold_left Difflib.opcode_step blocks st).
Proof.
  induction blocks as [|m blocks IH]; intros st Ht Hss Hfit Hle;
    cbn [fold_left]; [exact Ht|].
  inversion Hss as [|? ? Hss' Hm]; subst.
  inversion Hfit as [|? ? Fm Hfit']; subst.
  inversion Hle as [|? ? Hlm Hle']; subst.
  destruct (opcode_step_tiled st m Ht Fm Hlm) as [Ht' Hend].
  apply IH; auto.
  destruct (Difflib.opcode_step st m) as [[i' j'] answer'].
  destruct m as [[ai bj] size]. destruct Hend as [-> ->].
  eapply Forall_impl; [|exact Hm].
  intros [[ai2 bj2] size2]. unfold bbefore, before, rect_of. lia.
Qed.

(** The opcodes are well formed and their runs, put end to end, are the two
    lists. *)
Lemma get_opcodes_tile :
  Forall (opcode_ok a b) (Difflib.get_opcodes a b)
  /\ List.concat (map (a_run a) (Difflib.get_opcodes a b)) = a
  /\ List.concat (map (b_run b) (Difflib.get_opcodes a b)) = b.
Proof.
  unfold Difflib.get_opcodes.
  destruct (get_matching_blocks_chain a b) as (blocks & -> & Hss & Hok).
  set (la := List.length a) in *. set (lb := List.length b) in *.
  assert (Hfit : Forall (block_fits a b) (blocks ++ [(la, lb, 0)])).
  { apply Forall_app. split.
    - eapply Forall_impl; [|exact Hok]. intros m Hm.
      now apply block_ok_fits in Hm.
    - constructor; [|constructor]. split; [unfold la, lb; lia|].
      intros t Ht. lia. }
  assert (H0 : tiled (0, 0, [])) by (repeat split; constructor).
  assert (Hle : Forall (fun m : Difflib.block =>
                          let '(ai, bj, _) := m in 0 <= ai /\ 0 <= bj)
                       (blocks ++ [(la, lb, 0)])).
  { apply Forall_forall. intros [[ai bj] size] _. lia. }
  pose proof (opcode_loop _ _ H0 Hss Hfit Hle) as H.
  assert (Hlast :
            fst (fst (fold_left Difflib.opcode_step (blocks ++ [(la, lb, 0)])
                                (0, 0, []))) = la
            /\ snd (fst (fold_left Difflib.opcode_step (blocks ++ [(la, lb, 0)])
                                   (0, 0, []))) = lb).
  { rewrite fold_left_app. cbn [fold_left].
    pose proof (opcode_step_ends
                  (fold_left Difflib.opcode_step blocks (0, 0, [])) la lb 0) as E.
    rewrite !Nat.add_0_r in E. exact E. }
  change (fold_left _ (blocks ++ [(la, lb, 0)]) (0, 0, []))
    with (fold_left Difflib.opcode_step (blocks ++ [(la, lb, 0)]) (0, 0, [])).
  set (st := fold_left Difflib.opcode_step (blocks ++ [(la, lb, 0)]) (0, 0, [])) in *.
  clearbody st. destruct st as [[i j] answer]. cbn [fst snd] in Hlast.
  destruct Hlast as [-> ->]. destruct H as (H1 & H2 & H3).
  unfold la, lb in *. rewrite firstn_all in H2, H3. auto.
Qed.

End Opcodes.

(** *** The first block is a longest common run *)

Section ChainBComplete.

Local Open Scope nat_scope.

Lemma setdefault_append_get (d : list (string * list nat)) (elt x : string)
    (i : nat) :
  Difflib.b2j_get (Difflib.setdefault_append d elt i) x
  = if String.eqb elt x then Difflib.b2j_get d x ++ [i]
    else Difflib.b2j_get d x.
Proof.
  induction d as [|[k v] d IH]; cbn [Difflib.setdefault_append Difflib.b2j_get].
  - destruct (String.eqb elt x); reflexivity.
  - destruct (String.eqb_spec k elt) as [->|Hke]; cbn [Difflib.b2j_get].
    + destruct (String.eqb elt x); reflexivity.
    + rewrite IH. destruct (String.eqb_spec k x) as [->|Hkx]; [|reflexivity].
      destruct (String.eqb_spec elt x); [congruence|reflexivity].
Qed.

Lemma chain_fold (l : list string) :
  forall n d x,
    Difflib.b2j_get
      (fold_left (fun d ie => Difflib.setdefault_append d (snd ie) (fst ie))
                 (combine (seq n (List.length l)) l) d) x
    = Difflib.b2j_get d x ++ positions_from n l x.
Proof.
  induction l as [|e l IH]; intros n d x.
  - cbn. now rewrite app_nil_r.
  - cbn [List.length seq combine fold_left fst snd]. rewrite IH.
    rewrite setdefault_append_get. unfold positions_from.
    cbn [List.length seq filter]. rewrite Nat.sub_diag. cbn [nth].
    assert (E : filter (fun j => String.eqb (nth (j - S n) l "") x)
                       (seq (S n) (List.length l))
                = filter (fun j => String.eqb (nth (j - n) (e :: l) "") x)
                         (seq (S n) (List.length l))).
    { apply filter_ext_in. intros j Hj. apply in_seq in Hj.
      replace (j - n) with (S (j - S n)) by lia. reflexivity. }
    rewrite E. destruct (String.eqb e x); [|reflexivity].
    now rewrite <- app_assoc.
Qed.

(** Below 200 elements no element is set aside: [b2j] holds every position
    of every element, in ascending order. *)
Lemma chain_b_complete (b : list string) (x : string) :
  List.length b < 200 ->
  Difflib.b2j_get (Difflib.chain_b b) x
  = filter (fun j => String.eqb (Difflib.item b j) x)
           (seq 0 (List.length b)).
Proof.
  intros Hn. unfold Difflib.chain_b, Difflib.enumerate.
  destruct (Nat.leb_spec 200 (List.length b)); [lia|].
  rewrite chain_fold. cbn [Difflib.b2j_get app]. unfold positions_from.
  apply filter_ext. intros j. now rewrite Nat.sub_0_r.
Qed.

End ChainBComplete.

Lemma StronglySorted_filter {A : Type} (R : A -> A -> Prop) (p : A -> bool)
    (l : list A) :
  StronglySorted R l -> StronglySorted R (filter p l).
Proof.
  induction 1 as [|x l Hss IH Hx]; cbn; [constructor|].
  destruct (p x); [|exact IH]. constructor; [exact IH|].
  rewrite Forall_forall in *. intros y Hy. apply filter_In in Hy. now apply Hx.
Qed.

Lemma StronglySorted_seq (n m : nat) : StronglySorted lt (seq n m).
Proof.
  revert n. induction m as [|m IH]; intros n; cbn; constructor; [apply IH|].
  apply Forall_forall. intros j Hj. apply in_seq in Hj. lia.
Qed.

Lemma j2len_get_app (l1 l2 : list (nat * nat)) (j : nat) :
  Difflib.j2len_get (l1 ++ l2) j
  = if existsb (fun kv => Nat.eqb (fst kv) j) l1
    then Difflib.j2len_get l1 j else Difflib.j2len_get l2 j.
Proof.
  induction l1 as [|[k v] l1 IH]; cbn; [reflexivity|].
  destruct (Nat.eqb k j); [reflexivity|exact IH].
Qed.

Lemma existsb_key_below (l : list (nat * nat)) (j : nat) :
  Forall (fun kv => (fst kv < j)%nat) l ->
  existsb (fun kv => Nat.eqb (fst kv) j) l = false.
Proof.
  induction 1 as [|[k v] l Hk _ IH]; cbn; [reflexivity|].
  cbn in Hk. destruct (Nat.eqb_spec k j); [lia|exact IH].
Qed.

Section LongestRun.

Local Open Scope nat_scope.

Variables a b : list string.
Variable b2j : list (string * list nat).
Variables alo ahi blo bhi : nat.
Hypothesis Ha : alo <= ahi.
Hypothesis Hbhi : bhi <= List.length b.
Hypothesis Hcomplete :
  forall x,
    Difflib.b2j_get b2j x
    = filter (fun j => String.eqb (Difflib.item b j) x)
             (seq 0 (List.length b)).

Local Abbreviation row_lower := (row_lower a b alo blo bhi).
Local Abbreviation best_lower := (best_lower a b alo blo bhi).

(** The inner loop records, for every position of the row inside the
    window, one more than the run that ends just before it, and the best
    size is at least that. *)
Lemma scan_row_records (i : nat) (j2len : list (nat * nat)) (js : list nat) :
  forall st,
    StronglySorted lt js ->
    Forall (fun kv => forall j, In j js -> fst kv < j) (snd st) ->
    let st' := Difflib.scan_row blo bhi i j2len js st in
    snd (fst st) <= snd (fst st')
    /\ (forall j, existsb (fun kv => Nat.eqb (fst kv) j) (snd st) = true ->
          Difflib.j2len_get (snd st') j = Difflib.j2len_get (snd st) j)
    /\ (forall j, In j js -> blo <= j -> j < bhi ->
          Difflib.j2len_get (snd st') j = Difflib.j2len_get_pred j2len j + 1
          /\ Difflib.j2len_get_pred j2len j + 1 <= snd (fst st')).
Proof.
  induction js as [|j js IH]; intros st Hss Hkeys; cbv zeta;
    cbn [Difflib.scan_row].
  - split; [lia|]. split; [auto|]. intros j [].
  - inversion Hss as [|? ? Hss' Hj]; subst. rewrite Forall_forall in Hj.
    assert (Hkeys' : Forall (fun kv => forall j', In j' js -> fst kv < j')
                            (snd st)).
    { eapply Forall_impl; [|exact Hkeys]. intros kv H j' Hj'.
      apply H. now right. }
    destruct (Nat.ltb_spec j blo) as [Hlo|Hlo].
    { destruct (IH st Hss' Hkeys') as (I1 & I2 & I3).
      split; [exact I1|]. split; [exact I2|].
      intros j' [<-|Hj'] H1 H2; [lia|now apply I3]. }
    destruct (Nat.leb_spec bhi j) as [Hhi|Hhi].
    { split; [lia|]. split; [auto|].
      intros j' [<-|Hj'] H1 H2; [lia|]. specialize (Hj j' Hj'). lia. }
    destruct st as [[[besti bestj] bestsize] newj2len]. cbn [fst snd] in *.
    set (k := Difflib.j2len_get_pred j2len j + 1).
    assert (Hfresh : existsb (fun kv => Nat.eqb (fst kv) j) newj2len = false).
    { apply existsb_key_below. eapply Forall_impl; [|exact Hkeys].
      intros kv H. apply H. now left. }
    assert (Hkeys1 : Forall (fun kv => forall j', In j' js -> fst kv < j')
                            (newj2len ++ [(j, k)])).
    { apply Forall_app. split; [exact Hkeys'|].
      constructor; [|constructor]. cbn. intros j' Hj'. now apply Hj. }
    assert (Hget : Difflib.j2len_get (newj2len ++ [(j, k)]) j = k).
    { rewrite j2len_get_app, Hfresh. cbn. now rewrite Nat.eqb_refl. }
    assert (Hin : existsb (fun kv => Nat.eqb (fst kv) j)
                          (newj2len ++ [(j, k)]) = true).
    { rewrite existsb_app. cbn. rewrite Nat.eqb_refl. apply orb_true_r. }
    assert (Hold : forall j0,
               existsb (fun kv => Nat.eqb (fst kv) j0) newj2len = true ->
               existsb (fun kv => Nat.eqb (fst kv) j0)
                       (newj2len ++ [(j, k)]) = true
               /\ Difflib.j2len_get (newj2len ++ [(j, k)]) j0
                  = Difflib.j2len_get newj2len j0).
    { intros j0 H0. rewrite existsb_app, j2len_get_app, H0. auto. }
    assert (Hrest : forall best1,
               bestsize <= snd best1 -> k <= snd best1 ->
               let st' := Difflib.scan_row blo bhi i j2len js
                            (best1, newj2len ++ [(j, k)]) in
               bestsize <= snd (fst st')
               /\ (forall j0,
                     existsb (fun kv => Nat.eqb (fst kv) j0) newj2len = true ->
                     Difflib.j2len_get (snd st') j0
                     = Difflib.j2len_get newj2len j0)
               /\ (forall j0, j = j0 \/ In j0 js -> blo <= j0 -> j0 < bhi ->
                     Difflib.j2len_get (snd st') j0
                     = Difflib.j2len_get_pred j2len j0 + 1
                     /\ Difflib.j2len_get_pred j2len j0 + 1
                        <= snd (fst st'))).
    { intros best1 Hb1 Hk1. cbv zeta.
      destruct (IH (best1, newj2len ++ [(j, k)]) Hss' Hkeys1)
        as (I1 & I2 & I3).
      cbn [fst snd] in *. split; [lia|]. split.
      - intros j0 H0. destruct (Hold j0 H0) as [H1 H2].
        now rewrite (I2 j0 H1).
      - intros j0 [<-|Hj'] H1 H2; [|now apply I3].
        rewrite (I2 j Hin), Hget. fold k. split; [reflexivity|lia]. }
    destruct (Nat.ltb_spec bestsize k) as [Hbk|Hbk].
    + apply (Hrest (i + 1 - k, j + 1 - k, k)); cbn; lia.
    + apply (Hrest (besti, bestj, bestsize)); cbn; lia.
Qed.

Lemma scan_row_lower (n i : nat) (j2len : list (nat * nat))
    (best : Difflib.block) :
  i = alo + n ->
  row_lower n j2len -> best_lower n best ->
  let st' := Difflib.scan_row blo bhi i j2len
               (Difflib.b2j_get b2j (Difflib.item a i)) (best, []) in
  best_lower (S n) (fst st') /\ row_lower (S n) (snd st').
Proof.
  intros Hi Hrow Hbest. cbv zeta.
  destruct (scan_row_records i j2len
              (Difflib.b2j_get b2j (Difflib.item a i)) (best, []))
    as (I1 & _ & I3).
  { rewrite Hcomplete. apply StronglySorted_filter, StronglySorted_seq. }
  { constructor. }
  set (st' := Difflib.scan_row blo bhi i j2len
                (Difflib.b2j_get b2j (Difflib.item a i)) (best, [])) in *.
  cbn [fst snd] in I1.
  assert (K : forall j k,
             1 <= k -> k <= S n -> k + blo <= j + 1 -> j < bhi ->
             (forall t, t < k ->
                Difflib.item a (alo + S n - 1 - t) = Difflib.item b (j - t)) ->
             k <= Difflib.j2len_get (snd st') j /\ k <= snd (fst st')).
  { intros j k H1 H2 H3 H4 H5.
    assert (Hjs : In j (Difflib.b2j_get b2j (Difflib.item a i))).
    { rewrite Hcomplete. apply filter_In. split; [apply in_seq; lia|].
      apply String.eqb_eq. specialize (H5 0 ltac:(lia)).
      rewrite !Nat.sub_0_r in H5. rewrite <- H5. f_equal. lia. }
    destruct (I3 j Hjs ltac:(lia) H4) as [E1 E2].
    assert (Hk : k <= Difflib.j2len_get_pred j2len j + 1).
    { destruct (Nat.eq_dec k 1) as [->|Hk1]; [lia|].
      destruct j as [|j']; [lia|]. cbn [Difflib.j2len_get_pred].
      assert (k - 1 <= Difflib.j2len_get j2len j'); [|lia].
      apply Hrow; try lia. intros t Ht.
      specialize (H5 (S t) ltac:(lia)).
      replace (alo + S n - 1 - S t) with (alo + n - 1 - t) in H5 by lia.
      replace (S j' - S t) with (j' - t) in H5 by lia. exact H5. }
    lia. }
  split.
  - intros i' j' k [Hb Hm].
    destruct (Nat.le_gt_cases (i' + k) (alo + n)) as [Hle|Hgt].
    + specialize (Hbest i' j' k). cbn [snd] in *.
      assert (k <= snd best); [|lia].
      apply Hbest. split; [lia|exact Hm].
    + destruct (Nat.eq_dec k 0) as [->|Hk0]; [lia|].
      apply (K (j' + k - 1) k); try lia.
      intros t Ht. specialize (Hm (k - 1 - t) ltac:(lia)).
      replace (alo + S n - 1 - t) with (i' + (k - 1 - t)) by lia.
      replace (j' + k - 1 - t) with (j' + (k - 1 - t)) by lia. exact Hm.
  - intros j k H1 H2 H3 H4 H5. now apply K.
Qed.

Lemma scan_rows_lower (n : nat) :
  alo + n <= ahi ->
  let st := fold_left
              (fun st i =>
                 let '(best, j2len) := st in
                 Difflib.scan_row blo bhi i j2len
                   (Difflib.b2j_get b2j (Difflib.item a i)) (best, []))
              (seq alo n) ((alo, blo, 0), []) in
  best_lower n (fst st) /\ row_lower n (snd st).
Proof.
  cbv zeta. induction n as [|n IH]; intros Hn.
  - cbn. split.
    + intros i' j' k [Hb _]. cbn. lia.
    + intros j k H1 H2. lia.
  - rewrite seq_S, fold_left_app. cbn [fold_left].
    destruct IH as [IH1 IH2]; [lia|].
    destruct (fold_left _ (seq alo n) _) as [best j2len].
    cbn [fst snd] in *. now apply scan_row_lower.
Qed.

Lemma extend_back_size (junk : bool) (besti bestj bestsize : nat) :
  bestsize
  <= snd (Difflib.extend_back a b alo blo junk besti bestj bestsize).
Proof.
  revert bestj bestsize.
  induction besti as [|i' IH]; intros bestj bestsize;
    destruct bestj as [|j']; cbn [Difflib.extend_back snd]; try lia.
  destruct (_ && _); [|cbn; lia].
  specialize (IH j' (bestsize + 1)). lia.
Qed.

Lemma extend_fwd_size (junk : bool) (fuel besti bestj bestsize : nat) :
  bestsize
  <= snd (Difflib.extend_fwd a b ahi bhi junk fuel besti bestj bestsize).
Proof.
  revert bestsize.
  induction fuel as [|fuel IH]; intros bestsize;
    cbn [Difflib.extend_fwd snd]; [lia|].
  destruct (_ && _); [|cbn; lia].
  specialize (IH (bestsize + 1)). lia.
Qed.

Lemma extend_size (junk : bool) (m : Difflib.block) :
  snd m <= snd (Difflib.extend a b alo ahi blo bhi junk m).
Proof.
  unfold Difflib.extend. destruct m as [[i j] k].
  pose proof (extend_back_size junk i j k) as H1.
  destruct (Difflib.extend_back a b alo blo junk i j k) as [[i' j'] k'].
  pose proof (extend_fwd_size junk (ahi - (i' + k')) i' j' k') as H2.
  cbn [snd] in *. lia.
Qed.

(** No common run inside the window is longer than the block
    [find_longest_match] returns. *)
Lemma find_longest_match_longest (i' j' k : nat) :
  block_inside a b alo ahi blo bhi (i', j', k) ->
  k <= snd (Difflib.find_longest_match a b b2j alo ahi blo bhi).
Proof.
  intros [Hb Hm]. unfold Difflib.find_longest_match.
  pose proof (extend_size true
                (Difflib.extend a b alo ahi blo bhi false
                   (fst (Difflib.scan_rows a b2j alo ahi blo bhi)))) as H1.
  pose proof (extend_size false
                (fst (Difflib.scan_rows a b2j alo ahi blo bhi))) as H2.
  assert (H3 : k <= snd (fst (Difflib.scan_rows a b2j alo ahi blo bhi))).
  { unfold Difflib.scan_rows.
    destruct (scan_rows_lower (ahi - alo)) as [H _]; [lia|].
    apply (H i' j' k). split; [lia|exact Hm]. }
  lia.
Qed.

End LongestRun.

Section LongestEqualRun.

Local Open Scope nat_scope.

Variables a b : list string.

Lemma match_loop_keeps (b2j : list (string * list nat)) (fuel : nat) :
  forall queue blocks x,
    In x blocks ->
    In x (fst (Difflib.match_loop a b b2j fuel queue blocks)).
Proof.
  induction fuel as [|fuel IH]; intros queue blocks x Hx;
    cbn [Difflib.match_loop]; [exact Hx|].
  destruct queue as [|[[[alo ahi] blo] bhi] queue]; [exact Hx|].
  destruct (Difflib.find_longest_match a b b2j alo ahi blo bhi) as [[i j] k].
  destruct (0 <? k); apply IH; [|exact Hx].
  apply in_or_app. now left.
Qed.

(** The first block found is among the blocks of the loop. *)
Lemma first_block_found :
  let la := List.length a in
  let lb := List.length b in
  let m := Difflib.find_longest_match a b (Difflib.chain_b b) 0 la 0 lb in
  0 < snd m ->
  In m (fst (Difflib.match_loop a b (Difflib.chain_b b) (Difflib.rounds la)
               [(0, la, 0, lb)] [])).
Proof.
  intros la lb m Hm. unfold Difflib.rounds.
  replace (2 * la + 1) with (S (2 * la)) by lia.
  cbn [Difflib.match_loop]. fold m. destruct m as [[i j] k].
  cbn [snd] in Hm. destruct (Nat.ltb_spec 0 k); [|lia].
  apply match_loop_keeps. now left.
Qed.

Lemma collapse_step_covers (st : nat * nat * nat * list Difflib.block)
    (x2 : Difflib.block) :
  positive_size x2 ->
  covered x2 (merged (Difflib.collapse_step st x2))
  /\ (forall x, covered x (merged st) ->
        covered x (merged (Difflib.collapse_step st x2))).
Proof.
  destruct st as [[[i1 j1] k1] done], x2 as [[i2 j2] k2]. intros Hk2.
  cbn in Hk2. unfold Difflib.collapse_step, merged.
  destruct ((i1 + k1 =? i2) && (j1 + k1 =? j2)).
  - destruct (Nat.ltb_spec 0 (k1 + k2)); [|lia]. split.
    + exists (i1, j1, k1 + k2). split; [apply in_or_app; right; now left|].
      cbn. lia.
    + intros x (y & Hy & Hxy). destruct (Nat.ltb_spec 0 k1).
      * apply in_app_or in Hy. destruct Hy as [Hy|[<-|[]]].
        -- exists y. split; [apply in_or_app; now left|exact Hxy].
        -- exists (i1, j1, k1 + k2).
           split; [apply in_or_app; right; now left|]. cbn in *. lia.
      * exists y. split; [apply in_or_app; now left|exact Hxy].
  - destruct (Nat.ltb_spec 0 k2); [|lia]. split.
    + exists (i2, j2, k2). split; [apply in_or_app; right; now left|].
      cbn. lia.
    + intros x (y & Hy & Hxy). exists y.
      split; [apply in_or_app; now left|exact Hxy].
Qed.

Lemma collapse_loop_covers (rest : list Difflib.block) :
  forall st x,
    Forall positive_size rest ->
    covered x (merged st) \/ In x rest ->
    covered x (merged (fold_left Difflib.collapse_step rest st)).
Proof.
  induction rest as [|x2 rest IH]; intros st x Hpos Hx; cbn [fold_left].
  - destruct Hx as [Hx|[]]. exact Hx.
  - inversion Hpos as [|? ? Hx2 Hpos']; subst.
    destruct (collapse_step_covers st x2 Hx2) as [C1 C2].
    apply IH; [exact Hpos'|].
    destruct Hx as [Hx|[<-|Hx]]; [left; now apply C2|left; exact C1|now right].
Qed.

(** Every block is inside a merged block. *)
Lemma collapse_covers (l : list Difflib.block) (x : Difflib.block) :
  Forall positive_size l -> In x l -> covered x (Difflib.collapse l).
Proof.
  intros Hpos Hx.
  pose proof (collapse_loop_covers l (0, 0, 0, []) x Hpos (or_intror Hx)) as H.
  unfold Difflib.collapse.
  destruct (fold_left Difflib.collapse_step l (0, 0, 0, []))
    as [[[i1 j1] k1] done].
  exact H.
Qed.

Lemma opcode_step_keeps (st : nat * nat * list Difflib.opcode)
    (m : Difflib.block) (op : Difflib.opcode) :
  In op (snd st) -> In op (snd (Difflib.opcode_step st m)).
Proof.
  destruct st as [[i j] answer], m as [[ai bj] size]. cbn [snd]. intros H.
  unfold Difflib.opcode_step. cbv beta iota zeta. cbn [snd].
  destruct (0 <? size); [apply in_or_app; left|];
    destruct ((i <? ai) && (j <? bj)); try (apply in_or_app; now left);
    destruct (i <? ai); try (apply in_or_app; now left);
    destruct (j <? bj); try (apply in_or_app; now left); exact H.
Qed.

Lemma opcode_step_equal (st : nat * nat * list Difflib.opcode)
    (ai bj size : nat) :
  0 < size ->
  In (Difflib.Equal, ai, ai + size, bj, bj + size)
     (snd (Difflib.opcode_step st (ai, bj, size))).
Proof.
  destruct st as [[i j] answer]. intros H.
  unfold Difflib.opcode_step. cbv beta iota zeta. cbn [snd].
  destruct (Nat.ltb_spec 0 size); [|lia].
  apply in_or_app. right. now left.
Qed.

Lemma opcode_loop_equal (blocks : list Difflib.block) :
  forall st ai bj size,
    0 < size ->
    In (ai, bj, size) blocks ->
    In (Difflib.Equal, ai, ai + size, bj, bj + size)
       (snd (fold_left Difflib.opcode_step blocks st)).
Proof.
  assert (Hkeep : forall blocks st op,
             In op (snd st) ->
             In op (snd (fold_left Difflib.opcode_step blocks st))).
  { induction blocks0 as [|m blocks0 IH]; intros st op H; cbn [fold_left];
      [exact H|].
    apply IH. now apply opcode_step_keeps. }
  induction blocks as [|m blocks IH]; intros st ai bj size Hs Hin;
    cbn [fold_left]; [contradiction|].
  destruct Hin as [->|Hin]; [|now apply IH].
  apply Hkeep. now apply opcode_step_equal.
Qed.

(** The alignment is built on the longest common runs: when [b] has fewer
    than 200 words, so that no word is set aside as popular, some [equal]
    run is at least as long as any run of words common to [a] and [b]. *)
Lemma get_opcodes_longest_run (i j k : nat) :
  List.length b < 200 ->
  0 < k -> block_fits a b (i, j, k) ->
  exists i1 i2 j1 j2,
    In (Difflib.Equal, i1, i2, j1, j2) (Difflib.get_opcodes a b)
    /\ k <= i2 - i1.
Proof.
  intros Hn Hk [[F1 F2] F3].
  set (la := List.length a) in *. set (lb := List.length b) in *.
  set (m := Difflib.find_longest_match a b (Difflib.chain_b b) 0 la 0 lb).
  assert (Hm : k <= snd m).
  { apply (find_longest_match_longest a b (Difflib.chain_b b) 0 la 0 lb
             ltac:(lia) ltac:(unfold lb; lia)
             (fun x => chain_b_complete b x Hn) i j k).
    split; [lia|exact F3]. }
  set (found := fst (Difflib.match_loop a b (Difflib.chain_b b)
                       (Difflib.rounds la) [(0, la, 0, lb)] [])).
  assert (Hfound : In m found) by (apply first_block_found; fold la lb m; lia).
  assert (Hpos : Forall positive_size (Difflib.sort_blocks found)).
  { pose proof (match_loop_inv a b (Difflib.rounds la) [(0, la, 0, lb)] [])
      as H.
    destruct H as (_ & I2 & _).
    { repeat split; try constructor; try constructor; cbn; fold la lb; lia. }
    fold found in I2. rewrite Forall_forall in *. intros x Hx.
    apply (proj1 (sort_blocks_In found x)) in Hx.
    apply I2 in Hx. now apply block_ok_fits in Hx. }
  destruct (collapse_covers (Difflib.sort_blocks found) m Hpos
              (proj2 (sort_blocks_In found m) Hfound))
    as ([[ai bj] size] & Hy & Hsize).
  cbn [snd] in Hsize.
  exists ai, (ai + size), bj, (bj + size). split; [|lia].
  unfold Difflib.get_opcodes, Difflib.get_matching_blocks.
  fold la lb found.
  pose proof (opcode_loop_equal
                (Difflib.collapse (Difflib.sort_blocks found) ++ [(la, lb, 0)])
                (0, 0, []) ai bj size ltac:(lia)
                ltac:(apply in_or_app; now left)) as H.
  destruct (fold_left Difflib.opcode_step _ (0, 0, [])) as [[i' j'] answer].
  exact H.
Qed.

End LongestEqualRun.


(** *** The marked text *)

Lemma split_from_nonempty (s cur : string) :
  Forall (fun w => w <> "") (Py.split_from cur s).
Proof.
  revert cur. induction s as [|c s IH]; intros cur; cbn.
  - destruct cur; repeat constructor. discriminate.
  - destruct (Py.isspace c); [|apply IH].
    destruct cur; [apply IH|]. constructor; [discriminate|apply IH].
Qed.

Lemma split_nonempty (s : string) : Forall (fun w => w <> "") (Py.split s).
Proof. apply split_from_nonempty. Qed.

Lemma slice_Forall {A : Type} (P : A -> Prop) (l : list A) (i1 i2 : nat) :
  Forall P l -> Forall P (Py.slice l i1 i2).
Proof.
  intros H. unfold Py.slice.
  rewrite <- (firstn_skipn i1 l) in H. apply Forall_app in H.
  destruct H as [_ H].
  rewrite <- (firstn_skipn (i2 - i1) (skipn i1 l)) in H.
  apply Forall_app in H. tauto.
Qed.

Lemma join_truthy (l : list string) :
  Forall (fun w => w <> "") l -> l <> [] -> Py.falsy (Py.join " " l) = false.
Proof.
  intros H Hl. destruct l as [|x l]; [congruence|].
  inversion H as [|? ? Hx _]; subst.
  destruct x as [|c x]; [congruence|].
  unfold Py.join. cbn. destruct l; reflexivity.
Qed.

Lemma span_truthy (cls body : string) : Py.falsy (span cls body) = false.
Proof. reflexivity. Qed.

Section Marking.

Variables a_tokens b_tokens : list string.
Hypothesis Ha : Forall (fun w => w <> "") a_tokens.
Hypothesis Hb : Forall (fun w => w <> "") b_tokens.

Lemma a_run_truthy (op : Difflib.opcode) :
  a_run a_tokens op <> [] ->
  Py.falsy (Py.join " " (a_run a_tokens op)) = false.
Proof.
  intros H. apply join_truthy; [|exact H].
  destruct op as [[[[t i1] i2] j1] j2]. now apply slice_Forall.
Qed.

Lemma b_run_truthy (op : Difflib.opcode) :
  b_run b_tokens op <> [] ->
  Py.falsy (Py.join " " (b_run b_tokens op)) = false.
Proof.
  intros H. apply join_truthy; [|exact H].
  destruct op as [[[[t i1] i2] j1] j2]. now apply slice_Forall.
Qed.

(** On a well-formed opcode the loop body appends the marked texts of the
    run: no run is empty, so [or "[empty]"] changes nothing. *)
Lemma diff_step_pieces (a_out b_out : list string) (op : Difflib.opcode) :
  opcode_ok a_tokens b_tokens op ->
  diff_step a_tokens b_tokens (a_out, b_out) op
  = (a_out ++ gen_piece a_tokens op, b_out ++ orig_piece b_tokens op).
Proof.
  intros Hop. pose proof (a_run_truthy op) as Ta.
  pose proof (b_run_truthy op) as Tb.
  destruct op as [[[[t i1] i2] j1] j2]. destruct Hop as [_ Hop].
  unfold diff_step, gen_piece, orig_piece. cbn [fst a_run b_run] in *.
  destruct t; destruct Hop as [H1 H2]; rewrite ?app_nil_r; try reflexivity.
  unfold or_empty. rewrite (Ta H1), (Tb H2). reflexivity.
Qed.

Lemma diff_loop (ops : list Difflib.opcode) :
  forall a_out b_out,
    Forall (opcode_ok a_tokens b_tokens) ops ->
    fold_left (diff_step a_tokens b_tokens) ops (a_out, b_out)
    = (a_out ++ flat_map (gen_piece a_tokens) ops,
       b_out ++ flat_map (orig_piece b_tokens) ops).
Proof.
  induction ops as [|op ops IH]; intros a_out b_out Hops; cbn [fold_left flat_map].
  - now rewrite !app_nil_r.
  - inversion Hops as [|? ? Hop Hops']; subst.
    rewrite diff_step_pieces by exact Hop.
    rewrite IH by exact Hops'. now rewrite <- !app_assoc.
Qed.

(** No marked text is empty, so [filter(None, ...)] drops nothing. *)
Lemma pieces_truthy (ops : list Difflib.opcode) :
  Forall (opcode_ok a_tokens b_tokens) ops ->
  filter_truthy (flat_map (gen_piece a_tokens) ops)
  = flat_map (gen_piece a_tokens) ops
  /\ filter_truthy (flat_map (orig_piece b_tokens) ops)
     = flat_map (orig_piece b_tokens) ops.
Proof.
  induction ops as [|op ops IH]; intros Hops; [split; reflexivity|].
  inversion Hops as [|? ? Hop Hops']; subst.
  destruct (IH Hops') as [IH1 IH2].
  pose proof (a_run_truthy op) as Ta. pose proof (b_run_truthy op) as Tb.
  cbn [flat_map]. unfold filter_truthy in *. rewrite !filter_app, IH1, IH2.
  destruct op as [[[[t i1] i2] j1] j2]. destruct Hop as [_ Hop].
  unfold gen_piece, orig_piece. cbn [fst a_run b_run] in *.
  destruct t; destruct Hop as [H1 H2]; cbn [filter];
    rewrite ?span_truthy, ?(Ta H1), ?(Tb H2); cbn [negb];
    try (split; reflexivity).
  rewrite <- H2 at 1. rewrite (Ta H1). split; reflexivity.
Qed.

End Marking.


(** The alignment is not along a longest common subsequence: on
    [A B C D 1 2] against [1 2 A x B x C x D] the longest common run [1 2] is
    taken first, so two words stay unmarked and [A B C D] is marked as
    deleted, although four words are common to both texts in order. *)
Lemma word_level_diff_not_longest :
  let a_tokens := Py.split crossing_generated in
  let b_tokens := Py.split crossing_original in
  word_level_diff_html crossing_generated crossing_original
  = ((span "deleted-from-generated" "A B C D" ++ " 1 2")%string,
     ("1 2 " ++ span "added-to-original" "A x B x C x D")%string)
  /\ equal_words (Difflib.get_opcodes a_tokens b_tokens) = 2%nat
  /\ lcs_words a_tokens b_tokens = 4%nat.
Proof. repeat split; vm_compute; reflexivity. Qed.


(** * Further properties *)

(** ** The normalizer *)

Lemma isspace_lower_char (c : ascii) :
  Py.isspace (Py.lower_char c) = Py.isspace c.
Proof. destruct c as [[] [] [] [] [] [] [] []]; reflexivity. Qed.

Lemma lower_char_idempotent (c : ascii) :
  Py.lower_char (Py.lower_char c) = Py.lower_char c.
Proof. destruct c as [[] [] [] [] [] [] [] []]; reflexivity. Qed.

Lemma lower_app (s t : string) :
  Py.lower (s ++ t) = (Py.lower s ++ Py.lower t)%string.
Proof. induction s as [|c s IH]; cbn; [reflexivity|now rewrite IH]. Qed.

Lemma lower_idempotent (s : string) : Py.lower (Py.lower s) = Py.lower s.
Proof.
  induction s as [|c s IH]; cbn; [reflexivity|].
  now rewrite lower_char_idempotent, IH.
Qed.

Lemma join_cons2 (sep x y : string) (l : list string) :
  Py.join sep (x :: y :: l) = (x ++ sep ++ Py.join sep (y :: l))%string.
Proof. reflexivity. Qed.

Lemma lower_join (l : list string) :
  Py.lower (Py.join " " l) = Py.join " " (map Py.lower l).
Proof.
  induction l as [|x l IH]; [reflexivity|].
  destruct l as [|y l]; [reflexivity|].
  cbn [map] in *. rewrite !join_cons2, !lower_app, IH. reflexivity.
Qed.

Lemma has_space_app (s t : string) :
  has_space (s ++ t) = has_space s || has_space t.
Proof.
  induction s as [|c s IH]; cbn; [reflexivity|]. now rewrite IH, orb_assoc.
Qed.

Lemma has_space_lower (s : string) : has_space (Py.lower s) = has_space s.
Proof.
  induction s as [|c s IH]; cbn; [reflexivity|].
  now rewrite isspace_lower_char, IH.
Qed.

Lemma is_word_lower (w : string) : is_word w -> is_word (Py.lower w).
Proof.
  intros [H1 H2]. split; [|now rewrite has_space_lower].
  destruct w; [congruence|discriminate].
Qed.

Lemma string_app_assoc (s t u : string) :
  ((s ++ t) ++ u = s ++ (t ++ u))%string.
Proof. induction s as [|c s IH]; cbn; [reflexivity|now rewrite IH]. Qed.

Lemma string_app_nil_r (s : string) : (s ++ "" = s)%string.
Proof. induction s as [|c s IH]; cbn; [reflexivity|now rewrite IH]. Qed.

(** Every string [split] returns is a word. *)
Lemma split_from_words (s cur : string) :
  has_space cur = false -> Forall is_word (Py.split_from cur s).
Proof.
  revert cur. induction s as [|c s IH]; intros cur Hcur; cbn.
  - destruct cur; repeat constructor; [discriminate|exact Hcur].
  - destruct (Py.isspace c) eqn:Hc.
    + destruct cur; [now apply IH|].
      constructor; [split; [discriminate|exact Hcur]|now apply IH].
    + apply IH. rewrite has_space_app, Hcur. cbn. now rewrite Hc.
Qed.

Lemma split_words (s : string) : Forall is_word (Py.split s).
Proof. now apply split_from_words. Qed.

(** Reading a word moves it into the word being read. *)
Lemma split_from_word (w cur rest : string) :
  has_space w = false ->
  Py.split_from cur (w ++ rest) = Py.split_from (cur ++ w) rest.
Proof.
  revert cur. induction w as [|c w IH]; intros cur Hw; cbn.
  - now rewrite string_app_nil_r.
  - cbn in Hw. apply orb_false_iff in Hw. destruct Hw as [Hc Hw].
    rewrite Hc, IH by exact Hw. now rewrite string_app_assoc.
Qed.

(** Splitting a text made of words joined by single spaces gives the words
    back. *)
Lemma split_join (ws : list string) :
  Forall is_word ws -> Py.split (Py.join " " ws) = ws.
Proof.
  unfold Py.split. induction ws as [|w ws IH]; intros H.
  - reflexivity.
  - inversion H as [|? ? [Hw1 Hw2] Hws]; subst.
    destruct ws as [|w2 ws].
    + change (Py.join " " [w]) with w.
      rewrite <- (string_app_nil_r w) at 1.
      rewrite split_from_word by exact Hw2. cbn.
      destruct w; [congruence|reflexivity].
    + rewrite join_cons2, split_from_word by exact Hw2.
      cbn [append Py.split_from]. change (Py.isspace " ") with true.
      cbv iota. destruct w; [congruence|].
      f_equal. now apply IH.
Qed.

Lemma rstrip_word (w : string) : has_space w = false -> Py.rstrip w = w.
Proof.
  induction w as [|c w IH]; intros H; [reflexivity|].
  cbn in H. apply orb_false_iff in H. destruct H as [Hc Hw].
  cbn. rewrite IH by exact Hw. rewrite Hc. destruct w; reflexivity.
Qed.

Lemma rstrip_app (s t : string) :
  Py.rstrip t <> "" -> Py.rstrip (s ++ t) = (s ++ Py.rstrip t)%string.
Proof.
  intros Ht. induction s as [|c s IH]; [reflexivity|].
  cbn. rewrite IH. destruct (s ++ Py.rstrip t)%string eqn:E; [|reflexivity].
  destruct s; cbn in E; [congruence|discriminate].
Qed.

Lemma rstrip_join (ws : list string) :
  Forall is_word ws -> Py.rstrip (Py.join " " ws) = Py.join " " ws.
Proof.
  induction ws as [|w ws IH]; intros H; [reflexivity|].
  inversion H as [|? ? [Hw1 Hw2] Hws]; subst.
  destruct ws as [|w2 ws]; [now apply rstrip_word|].
  assert (Hne : Py.rstrip (Py.join " " (w2 :: ws)) <> "").
  { rewrite IH by exact Hws. inversion Hws as [|? ? [H1 _] _]; subst.
    destruct w2; [congruence|]. destruct ws; discriminate. }
  rewrite join_cons2, <- string_app_assoc, rstrip_app by exact Hne.
  now rewrite IH by exact Hws.
Qed.

Lemma lstrip_join (ws : list string) :
  Forall is_word ws -> Py.lstrip (Py.join " " ws) = Py.join " " ws.
Proof.
  intros H. destruct ws as [|w ws]; [reflexivity|].
  inversion H as [|? ? [Hw1 Hw2] _]; subst.
  destruct w as [|c w]; [congruence|].
  cbn in Hw2. apply orb_false_iff in Hw2. destruct Hw2 as [Hc _].
  unfold Py.join. destruct ws; cbn; now rewrite Hc.
Qed.

Lemma split_replace_nbsp (s cur : string) :
  Py.split_from cur (Py.replace_char (ascii_of_N 160) " "%char s)
  = Py.split_from cur s.
Proof.
  revert cur. induction s as [|c s IH]; intros cur; [reflexivity|].
  cbn [Py.replace_char Py.split_from].
  destruct (Ascii.eqb_spec c (ascii_of_N 160)) as [->|_].
  - change (Py.isspace " ") with true.
    change (Py.isspace (ascii_of_N 160)) with true. cbv iota.
    now rewrite !IH.
  - rewrite !IH. reflexivity.
Qed.

Lemma normalize_text_join (t : string) :
  normalize_text (Some t) = Py.join " " (map Py.lower (Py.split t)).
Proof.
  unfold normalize_text.
  change (Py.split (Py.replace_char (ascii_of_N 160) " "%char t))
    with (Py.split_from "" (Py.replace_char (ascii_of_N 160) " "%char t)).
  rewrite split_replace_nbsp. fold (Py.split t).
  unfold Py.strip. rewrite lstrip_join, rstrip_join by apply split_words.
  apply lower_join.
Qed.

(** X1: [normalize_text] returns the lowercased words of its text joined by
    single spaces; the replacement of the no-break space and the [strip]
    change nothing, and [None] gives the empty string. *)
Theorem normalize_text_words (t : string) :
  normalize_text (Some t) = Py.join " " (map Py.lower (Py.split t))
  /\ normalize_text None = "".
Proof.
  split; [apply normalize_text_join|reflexivity].
Qed.

(** X2: [normalize_text] is idempotent, and a normalized text splits into
    the lowercased words of the text it comes from. *)
Theorem normalize_text_idempotent (t : string) :
  normalize_text (Some (normalize_text (Some t))) = normalize_text (Some t)
  /\ Py.split (normalize_text (Some t)) = map Py.lower (Py.split t).
Proof.
  assert (Hw : Forall is_word (map Py.lower (Py.split t))).
  { apply Forall_map. eapply Forall_impl; [|apply split_words].
    intros w. apply is_word_lower. }
  assert (Hs : Py.split (normalize_text (Some t))
               = map Py.lower (Py.split t)).
  { rewrite normalize_text_join. now apply split_join. }
  split; [|exact Hs].
  rewrite (normalize_text_join (normalize_text (Some t))), Hs.
  rewrite map_map. rewrite normalize_text_join.
  f_equal. apply map_ext. intros w. apply lower_idempotent.
Qed.

(** ** The similarity scorer *)

Lemma lcs_len_cons (x y : ascii) (s t : string) :
  Rapidfuzz.lcs_len (String x s) (String y t)
  = if Ascii.eqb x y then S (Rapidfuzz.lcs_len s t)
    else Nat.max (Rapidfuzz.lcs_len s (String y t))
                 (Rapidfuzz.lcs_len (String x s) t).
Proof. reflexivity. Qed.

Lemma lcs_len_nil_r (s : string) : Rapidfuzz.lcs_len s "" = 0%nat.
Proof. destruct s; reflexivity. Qed.

Lemma lcs_len_sym (s t : string) :
  Rapidfuzz.lcs_len s t = Rapidfuzz.lcs_len t s.
Proof.
  revert t. induction s as [|x s IHs]; intros t.
  - now rewrite lcs_len_nil_r.
  - induction t as [|y t IHt]; [reflexivity|].
    rewrite !lcs_len_cons, (Ascii.eqb_sym y x).
    destruct (Ascii.eqb x y); [now rewrite IHs|].
    rewrite IHt, (IHs (String y t)). apply Nat.max_comm.
Qed.

Lemma lcs_len_refl (s : string) : Rapidfuzz.lcs_len s s = String.length s.
Proof.
  induction s as [|x s IH]; [reflexivity|].
  rewrite lcs_len_cons, Ascii.eqb_refl, IH. reflexivity.
Qed.

Lemma ratio_sym (s t : string) : Rapidfuzz.ratio s t = Rapidfuzz.ratio t s.
Proof.
  unfold Rapidfuzz.ratio, Rapidfuzz.indel_distance.
  now rewrite lcs_len_sym, (Nat.add_comm (String.length s)).
Qed.

Lemma ratio_refl (s : string) : (Rapidfuzz.ratio s s == 100)%Q.
Proof.
  unfold Rapidfuzz.ratio, Rapidfuzz.indel_distance. rewrite lcs_len_refl.
  replace (String.length s + String.length s - 2 * String.length s)%nat
    with 0%nat by lia.
  apply float_score_full.
  destruct (String.length s + String.length s)%nat as [|m];
    [reflexivity|].
  change (inject_Z (Z.of_nat 0)) with 0%Q.
  rewrite float64_0. unfold Qdiv. rewrite Qmult_0_l. apply float64_0.
Qed.

(** X3: [similarity_score] is symmetric. *)
Theorem similarity_score_sym (a b : string) :
  similarity_score a b = similarity_score b a.
Proof.
  unfold similarity_score, Rapidfuzz.token_sort_ratio.
  rewrite (andb_comm (Py.falsy a)), (orb_comm (Py.falsy a)), ratio_sym.
  reflexivity.
Qed.

(** X4: [similarity_score] gives 100 to a text against itself, whether the
    text is empty or not. *)
Theorem similarity_score_refl (a : string) :
  (similarity_score a a == 100)%Q.
Proof.
  unfold similarity_score, Rapidfuzz.token_sort_ratio.
  destruct (Py.falsy a); cbn [andb orb]; [reflexivity|apply ratio_refl].
Qed.

(** *** Sorting the words *)

Lemma string_leb_trans (a b c : string) :
  String.leb a b = true -> String.leb b c = true -> String.leb a c = true.
Proof.
  revert b c. induction a as [|x a IH]; intros b c.
  - destruct c; reflexivity.
  - destruct b as [|y b]; [discriminate|].
    destruct c as [|z c]; [discriminate|].
    unfold String.leb in *. cbn [String.compare]. unfold Ascii.compare.
    destruct (N.compare_spec (N_of_ascii x) (N_of_ascii y));
      destruct (N.compare_spec (N_of_ascii y) (N_of_ascii z));
      destruct (N.compare_spec (N_of_ascii x) (N_of_ascii z));
      try discriminate; try reflexivity; try lia.
    apply IH.
Qed.

Lemma insert_sorted_perm (x : string) (l : list string) :
  Permutation (Py.insert_sorted x l) (x :: l).
Proof.
  induction l as [|y l IH]; cbn; [apply Permutation_refl|].
  destruct (String.leb x y); [apply Permutation_refl|].
  apply perm_trans with (y :: x :: l); [now apply perm_skip|apply perm_swap].
Qed.

Lemma sorted_perm (l : list string) : Permutation (Py.sorted l) l.
Proof.
  induction l as [|x l IH]; cbn; [constructor|].
  apply perm_trans with (x :: Py.sorted l);
    [apply insert_sorted_perm|now apply perm_skip].
Qed.

Lemma insert_sorted_sorted (x : string) (l : list string) :
  StronglySorted (fun a b => String.leb a b = true) l ->
  StronglySorted (fun a b => String.leb a b = true) (Py.insert_sorted x l).
Proof.
  induction 1 as [|y l Hss IH Hy]; cbn.
  - constructor; constructor.
  - destruct (String.leb x y) eqn:E.
    + constructor; [now constructor|]. constructor; [exact E|].
      eapply Forall_impl; [|exact Hy]. intros z Hz.
      eapply string_leb_trans; eauto.
    + constructor; [exact IH|].
      apply Forall_forall. intros z Hz.
      apply (Permutation_in _ (insert_sorted_perm x l)) in Hz.
      destruct Hz as [<-|Hz].
      * destruct (String.leb_total x y) as [H|H]; [congruence|exact H].
      * rewrite Forall_forall in Hy. now apply Hy.
Qed.

Lemma sorted_sorted (l : list string) :
  StronglySorted (fun a b => String.leb a b = true) (Py.sorted l).
Proof.
  induction l as [|x l IH]; cbn; [constructor|now apply insert_sorted_sorted].
Qed.

Lemma string_leb_refl (a : string) : String.leb a a = true.
Proof. destruct (String.leb_total a a); assumption. Qed.

Lemma sorted_unique (l1 l2 : list string) :
  StronglySorted (fun a b => String.leb a b = true) l1 ->
  StronglySorted (fun a b => String.leb a b = true) l2 ->
  Permutation l1 l2 -> l1 = l2.
Proof.
  intros H1. revert l2. induction H1 as [|x l1 Hss1 IH Hx]; intros l2 H2 Hp.
  - apply Permutation_nil in Hp. now subst.
  - destruct H2 as [|y l2 Hss2 Hy].
    + apply Permutation_sym, Permutation_nil in Hp. discriminate.
    + assert (Hxy : x = y).
      { rewrite Forall_forall in Hx, Hy. apply String.leb_antisym.
        - assert (Hin : In y (x :: l1))
            by (apply (Permutation_in _ (Permutation_sym Hp)); now left).
          destruct Hin as [<-|Hin]; [apply string_leb_refl|now apply Hx].
        - assert (Hin : In x (y :: l2))
            by (apply (Permutation_in _ Hp); now left).
          destruct Hin as [<-|Hin]; [apply string_leb_refl|now apply Hy]. }
      subst y. f_equal. apply IH; [exact Hss2|].
      now apply Permutation_cons_inv in Hp.
Qed.

Lemma sorted_permutation (l1 l2 : list string) :
  Permutation l1 l2 -> Py.sorted l1 = Py.sorted l2.
Proof.
  intros Hp. apply sorted_unique; try apply sorted_sorted.
  apply perm_trans with l1; [apply sorted_perm|].
  apply perm_trans with l2; [exact Hp|apply Permutation_sym, sorted_perm].
Qed.

(** X5: [similarity_score] sees a text that is not empty as the bag of its
    words, the words being those of rapidfuzz's tokenizer, which ASCII white
    space separates: texts with the same words, in any order and with any
    ASCII white space between them, get the same score against any other
    text. *)
Theorem similarity_score_word_order (a a' b : string) :
  a <> "" -> a' <> "" ->
  Permutation (Rapidfuzz.split a) (Rapidfuzz.split a') ->
  similarity_score a b = similarity_score a' b.
Proof.
  intros Ha Ha' Hp. unfold similarity_score, Rapidfuzz.token_sort_ratio.
  rewrite (sorted_permutation _ _ Hp).
  destruct a; [congruence|]. destruct a'; [congruence|]. reflexivity.
Qed.

Lemma similarity_score_word_order_example :
  similarity_score "total  amount due" "due amount"
  = similarity_score "due total amount" "due amount".
Proof.
  apply similarity_score_word_order; try discriminate.
  vm_compute.
  apply perm_trans with ["total"; "due"; "amount"];
    [apply perm_skip, perm_swap|apply perm_swap].
Defined.

(** A no-break space separates words for [str.split] but not for the
    tokenizer of rapidfuzz: [b], no-break space, [a] is one word there, and
    scores 33.33 against [a b], not 100. *)
Lemma similarity_score_no_break_space :
  let a := String "b" (String (ascii_of_N 160) "a") in
  Py.split a = ["b"; "a"]
  /\ Rapidfuzz.split a = [a]
  /\ (similarity_score a "a b" == 4691249611844267 # 140737488355328)%Q
  /\ (similarity_score "b a" "a b" == 100)%Q.
Proof. vm_compute. repeat split. Qed.

(** ** The aggregator, row by row *)

Lemma pool_incl (g : Line) (origs : list Line) (ytol : Q) (pw : Z) (o : Line) :
  In o (pool g origs ytol pw) -> In o origs.
Proof.
  unfold pool. cbv zeta.
  destruct (filter (nearby ytol pw g) origs) eqn:E; [auto|].
  rewrite <- E. intros H. now apply filter_In in H.
Qed.

Lemma pool_nearby (g : Line) (origs : list Line) (ytol : Q) (pw : Z)
    (o : Line) :
  In o origs -> nearby ytol pw g o = true -> In o (pool g origs ytol pw).
Proof.
  intros Hin Hn. unfold pool. cbv zeta.
  assert (H : In o (filter (nearby ytol pw g) origs))
    by (apply filter_In; auto).
  destruct (filter (nearby ytol pw g) origs); [destruct H|exact H].
Qed.

(** The best match of a line: none when there is no original line, else a
    line of the pool whose score no line of the pool exceeds. *)
Lemma best_match_cases (origs : list Line) (g : Line) :
  let score o := similarity_score (get_norm g) (get_norm o) in
  (origs = [] /\ best_match origs g = (0%Q, None))
  \/ (exists o, In o origs
        /\ best_match origs g = (score o, Some o)
        /\ forall o', In o' (pool g origs 12%Q 1%Z) ->
                      (score o' <= score o)%Q).
Proof.
  intros score. unfold best_match.
  pose proof (find_best_match_first_max g origs 12%Q 1%Z) as H.
  cbv zeta in H. fold score in H.
  destruct (pool g origs 12%Q 1%Z) as [|l0 ls] eqn:E.
  - left. split; [|exact H]. unfold pool in E. cbv zeta in E.
    destruct (filter (nearby 12%Q 1%Z g) origs); [auto|discriminate].
  - right. destruct H as (pre & o & post & E' & Hb & Hpre & Hpost).
    exists o. split; [|split; [exact Hb|]].
    + apply (pool_incl g origs 12%Q 1%Z). rewrite E, E'. apply in_elt.
    + intros o' Ho'. rewrite E' in Ho'. apply in_app_or in Ho'.
      destruct Ho' as [Ho'|[<-|Ho']].
      * apply Qlt_le_weak. now apply Hpre.
      * apply Qle_refl.
      * now apply Hpost.
Qed.

(** The row one round of the loop appends. *)
Lemma round_row (origs : list Line) (thr : Q) (g : Line) :
  match best_match origs g with
  | (score, Some o) =>
      exists a_html b_html,
        acc_rows (round_of origs thr g)
        = [mkRow (page g) (line_no g) (text g) a_html
                 (Some (page o)) (Some (line_no o)) (Some (text o)) b_html
                 score (Z.of_nat (Rapidfuzz.levenshtein (text g) (text o)))
                 (Some (y0 g - y0 o)%Q) (ge_threshold score thr)
                 (if ge_threshold score thr then match_ else mismatch)]
  | (_, None) =>
      acc_rows (round_of origs thr g)
      = [mkRow (page g) (line_no g) (text g) (span "no-match" (text g))
               None None None "" 0%Q (Py.len (text g)) None false no_match]
  end.
Proof.
  unfold round_of, compare_step, best_match.
  destruct (find_best_match g origs 12%Q 1%Z) as [score [o|]]; cbn zeta.
  - destruct (word_level_diff_html (text g) (text o)) as [a_html b_html].
    exists a_html, b_html. destruct (ge_threshold score thr); reflexivity.
  - reflexivity.
Qed.

(** The rows of a run, one for each generated line, in order. *)
Lemma rows_Forall2 (origs gens : list Line) (thr : Q) :
  Forall2 (fun g r =>
             acc_rows (round_of (map set_norm origs) thr (set_norm g)) = [r])
          gens (snd (compare_pdfs_and_build_pairs origs gens thr)).
Proof.
  rewrite rows_of_run.
  induction gens as [|g gens IH]; cbn [map List.concat]; [constructor|].
  destruct (round_one_row (map set_norm origs) thr (set_norm g))
    as (r & E & _).
  rewrite E. cbn [app]. constructor; auto.
Qed.

(** X6: the rows of a comparison run follow the generated lines one for one
    and in their order, each row carrying the page, the line number and the
    text of its generated line; the summary counts the lines of both
    documents. *)
Theorem rows_follow_generated (origs gens : list Line) (thr : Q) :
  let s := fst (compare_pdfs_and_build_pairs origs gens thr) in
  let rows := snd (compare_pdfs_and_build_pairs origs gens thr) in
  map (fun r => (gen_page r, gen_line_no r, gen_text r)) rows
  = map (fun g => (page g, line_no g, text g)) gens
  /\ gen_lines s = Z.of_nat (List.length rows)
  /\ orig_lines s = Z.of_nat (List.length origs).
Proof.
  intros s rows.
  pose proof (rows_Forall2 origs gens thr) as F. fold rows in F.
  split; [|split].
  - clearbody rows. clear s.
    induction F as [|g r gens rows E F IH]; [reflexivity|].
    cbn [map]. rewrite IH. f_equal.
    pose proof (round_row (map set_norm origs) thr (set_norm g)) as R.
    destruct (best_match (map set_norm origs) (set_norm g)) as [score [o|]].
    + destruct R as (a_html & b_html & R). rewrite R in E.
      injection E as <-. reflexivity.
    + rewrite R in E. injection E as <-. reflexivity.
  - apply Forall2_length in F. rewrite <- F.
    unfold s, compare_pdfs_and_build_pairs. cbn [fst gen_lines].
    now rewrite length_map.
  - unfold s, compare_pdfs_and_build_pairs. cbn [fst orig_lines].
    now rewrite length_map.
Qed.

Lemma count_type_total (rows : list Row) :
  (count_type match_ rows + count_type mismatch rows
   + count_type no_match rows)%Z
  = Z.of_nat (List.length rows).
Proof.
  unfold count_type. induction rows as [|r rows IH]; [reflexivity|].
  cbn [filter List.length].
  destruct (error_type r); cbn [ErrorType_eqb List.length]; lia.
Qed.

(** X7: the three counts of [error_breakdown] add up to the number of
    generated lines; [matched_lines] is the number of [match] rows; a row is
    flagged [matched] exactly when its type is [match], and has no original
    line exactly when its type is [no_match]. *)
Theorem error_breakdown_partition (origs gens : list Line) (thr : Q) :
  let s := fst (compare_pdfs_and_build_pairs origs gens thr) in
  let rows := snd (compare_pdfs_and_build_pairs origs gens thr) in
  (matches (error_breakdown s) + mismatches (error_breakdown s)
   + no_matches (error_breakdown s))%Z = gen_lines s
  /\ matched_lines s = matches (error_breakdown s)
  /\ Forall (fun r => (matched r = true <-> error_type r = match_)
                      /\ (orig_page r = None <-> error_type r = no_match)
                      /\ (orig_text r = None <-> error_type r = no_match))
            rows.
Proof.
  intros s rows.
  pose proof (rows_Forall2 origs gens thr) as F. fold rows in F.
  assert (Hb : error_breakdown s
               = mkBreakdown (count_type match_ rows)
                             (count_type mismatch rows)
                             (count_type no_match rows)) by reflexivity.
  assert (Hg : gen_lines s = Z.of_nat (List.length rows)).
  { apply Forall2_length in F. rewrite <- F.
    unfold s, compare_pdfs_and_build_pairs. cbn [fst gen_lines].
    now rewrite length_map. }
  destruct (summary_fields origs gens thr) as (_ & _ & H3 & _).
  cbv zeta in H3. fold s in H3.
  rewrite Hb. cbn [matches mismatches no_matches].
  split; [|split].
  - rewrite Hg. apply count_type_total.
  - rewrite H3. clear Hb Hg H3. clearbody rows. clear s.
    unfold count_type. f_equal.
    induction F as [|g r gens rows E F IH]; [reflexivity|].
    cbn [map filter].
    destruct (round_one_row (map set_norm origs) thr (set_norm g))
      as (r' & E' & He & Hm & _).
    rewrite E' in E. injection E as ->.
    rewrite He.
    assert (Hl : line_matched (map set_norm origs) thr (set_norm g)
                 = ErrorType_eqb
                     (line_error_type (map set_norm origs) thr (set_norm g))
                     match_).
    { unfold line_matched, line_error_type.
      destruct (best_match (map set_norm origs) (set_norm g))
        as [score [o|]]; [|reflexivity].
      destruct (ge_threshold score thr); reflexivity. }
    rewrite Hl.
    destruct (ErrorType_eqb _ match_); cbn [List.length]; now rewrite IH.
  - clear Hb Hg H3. clearbody rows. clear s.
    induction F as [|g r gens rows E F IH]; constructor; [|exact IH].
    pose proof (round_row (map set_norm origs) thr (set_norm g)) as R.
    destruct (best_match (map set_norm origs) (set_norm g)) as [score [o|]].
    + destruct R as (a_html & b_html & R). rewrite R in E.
      injection E as <-. cbn.
      destruct (ge_threshold score thr); repeat split; congruence.
    + rewrite R in E. injection E as <-. cbn.
      repeat split; congruence.
Qed.


Lemma nearby_self (g : Line) : nearby 12%Q 1%Z g g = true.
Proof.
  unfold nearby, page_delta. rewrite Z.sub_diag. cbn [Z.abs Z.ltb Z.compare].
  destruct (Qlt_le_dec _ _) as [H|H]; [|reflexivity].
  exfalso. apply (Qlt_not_le _ _ H).
  assert (E : (Qabs (y0 g - y0 g) == 0)%Q).
  { assert (E0 : (y0 g - y0 g == 0)%Q) by (unfold Qminus; apply Qplus_opp_r).
    rewrite E0. reflexivity. }
  rewrite E. discriminate.
Qed.

Lemma round4_one (x : Q) : (x == 1)%Q -> (Py.round4 x == 1)%Q.
Proof.
  destruct x as [n d]. intros H. unfold Qeq in H. cbn [Qnum Qden] in H.
  rewrite Z.mul_1_r, Z.mul_1_l in H. subst n.
  unfold Py.round4. cbn [Qnum Qden].
  pose proof (half_even_lower (Zpos d * 10000) (Zpos d) 10000 ltac:(lia)
                ltac:(lia)).
  pose proof (half_even_upper (Zpos d * 10000) (Zpos d) 10000 ltac:(lia)
                ltac:(lia)).
  replace (Py.half_even (Zpos d * 10000) (Zpos d)) with 10000%Z by lia.
  assert (E : (10000 # 10000 == 1)%Q) by reflexivity.
  rewrite E. apply float64_1.
Qed.

(** X9: when every generated line is also a line of the original (the same
    page, position and text; so when a document is compared with itself)
    and the threshold is at most 100, every row is a [match] of similarity
    100, all lines are matched and [line_accuracy] is 1. *)
Theorem contained_lines_all_match (origs gens : list Line) (thr : Q) :
  (thr <= 100)%Q -> incl gens origs ->
  let s := fst (compare_pdfs_and_build_pairs origs gens thr) in
  let rows := snd (compare_pdfs_and_build_pairs origs gens thr) in
  Forall (fun r => error_type r = match_ /\ matched r = true
                   /\ (similarity r == 100)%Q) rows
  /\ matched_lines s = gen_lines s
  /\ (gens <> [] -> (line_accuracy s == 1)%Q).
Proof.
  intros Hthr Hincl s rows.
  pose proof (rows_Forall2 origs gens thr) as F. fold rows in F.
  assert (Hline : forall g, In g gens ->
            line_matched (map set_norm origs) thr (set_norm g) = true
            /\ exists score o,
                 best_match (map set_norm origs) (set_norm g)
                 = (score, Some o)
                 /\ (score == 100)%Q).
  { intros g Hg.
    assert (Hin : In (set_norm g) (map set_norm origs))
      by (apply in_map, Hincl, Hg).
    destruct (best_match_cases (map set_norm origs) (set_norm g))
      as [[Hnil _]|(o & _ & Hb & Hmax)].
    { rewrite Hnil in Hin. destruct Hin. }
    specialize (Hmax (set_norm g)
                  (pool_nearby _ _ _ _ _ Hin (nearby_self (set_norm g)))).
    set (sc := similarity_score (get_norm (set_norm g)) (get_norm o)) in *.
    assert (Hself : (similarity_score (get_norm (set_norm g))
                                      (get_norm (set_norm g)) == 100)%Q).
    { unfold similarity_score, Rapidfuzz.token_sort_ratio.
      destruct (Py.falsy (get_norm (set_norm g))); cbn [andb orb];
        [reflexivity|apply ratio_refl]. }
    assert (Hsc : (sc == 100)%Q).
    { apply Qle_antisym; [apply similarity_score_range|].
      rewrite <- Hself. exact Hmax. }
    split.
    - unfold line_matched. rewrite Hb. apply ge_threshold_iff.
      rewrite Hsc. exact Hthr.
    - exists sc, o. split; [exact Hb|exact Hsc]. }
  destruct (summary_fields origs gens thr) as (_ & _ & H3 & H4 & _ & H6).
  cbv zeta in H3, H4, H6. fold s in H3, H4, H6.
  assert (Hm : matched_lines s = gen_lines s).
  { rewrite H3, H4. f_equal. rewrite <- (length_map set_norm gens).
    f_equal. apply forallb_filter_id. apply forallb_forall.
    intros g' Hg'. apply in_map_iff in Hg'. destruct Hg' as (g & <- & Hg).
    apply Hline, Hg. }
  split; [|split].
  - clearbody rows. clear s H3 H4 H6 Hm.
    induction F as [|g r gens rows E F IH]; constructor.
    + destruct (Hline g (or_introl eq_refl)) as (_ & score & o & Hb & Hs).
      pose proof (round_row (map set_norm origs) thr (set_norm g)) as R.
      rewrite Hb in R. destruct R as (a_html & b_html & R).
      rewrite R in E. injection E as <-. cbn.
      assert (Hge : ge_threshold score thr = true).
      { apply ge_threshold_iff. rewrite Hs. exact Hthr. }
      rewrite Hge. repeat split; auto.
    + apply IH.
      * intros x Hx. apply Hincl. now right.
      * intros x Hx. apply Hline. now right.
  - exact Hm.
  - intros Hne. rewrite H6. destruct gens as [|g gens']; [congruence|].
    apply round4_one. rewrite Hm, H4.
    apply truediv_same. cbn [List.length]. lia.
Qed.

Lemma contained_lines_all_match_example :
  (line_accuracy
     (fst (compare_pdfs_and_build_pairs
             [sample_line 1 "Total amount" 100; sample_line 2 "Due date" 120]
             [sample_line 1 "Total amount" 100; sample_line 2 "Due date" 120]
             75)) == 1)%Q.
Proof.
  apply (contained_lines_all_match
           [sample_line 1 "Total amount" 100; sample_line 2 "Due date" 120]
           [sample_line 1 "Total amount" 100; sample_line 2 "Due date" 120]
           75);
    [discriminate|apply incl_refl|discriminate].
Defined.

(** *** The edit distance of a row *)

Lemma levenshtein_cons (x y : ascii) (s t : string) :
  Rapidfuzz.levenshtein (String x s) (String y t)
  = Nat.min (Nat.min (S (Rapidfuzz.levenshtein s (String y t)))
                     (S (Rapidfuzz.levenshtein (String x s) t)))
            (Rapidfuzz.levenshtein s t + (if Ascii.eqb x y then 0 else 1)).
Proof. reflexivity. Qed.

Lemma levenshtein_nil_r (s : string) :
  Rapidfuzz.levenshtein s "" = String.length s.
Proof. destruct s; reflexivity. Qed.

Lemma levenshtein_ge_diff (s t : string) :
  String.length s - String.length t <= Rapidfuzz.levenshtein s t
  /\ String.length t - String.length s <= Rapidfuzz.levenshtein s t.
Proof.
  revert t. induction s as [|x s IHs]; intros t.
  - cbn. lia.
  - induction t as [|y t IHt].
    + cbn. lia.
    + rewrite levenshtein_cons.
      pose proof (IHs t). pose proof (IHs (String y t)).
      cbn [String.length] in *. destruct (Ascii.eqb x y); lia.
Qed.

Lemma levenshtein_zero_iff (s t : string) :
  Rapidfuzz.levenshtein s t = 0 <-> s = t.
Proof.
  revert t. induction s as [|x s IHs]; intros t.
  - cbn. destruct t; cbn; split; congruence.
  - destruct t as [|y t].
    + cbn. split; discriminate.
    + rewrite levenshtein_cons. split.
      * intros H.
        assert (H' : Rapidfuzz.levenshtein s t
                     + (if Ascii.eqb x y then 0 else 1) = 0) by lia.
        destruct (Ascii.eqb_spec x y) as [->|]; [|lia].
        f_equal. apply IHs. lia.
      * intros [= -> ->]. rewrite Ascii.eqb_refl.
        rewrite (proj2 (IHs t) eq_refl). lia.
Qed.

(** X10: the [char_edit_distance] of a row with an original line is the
    edit distance of the two raw texts: it is 0 exactly when they are the
    same string, at least the difference of their lengths and at most the
    longer length; a row without one has the length of its text.
    [total_char_diffs] is the sum of these distances, and lies between 0 and
    [total_chars], which is at least the number of generated lines. *)
Theorem char_edit_distance_bounds (origs gens : list Line) (thr : Q) :
  let s := fst (compare_pdfs_and_build_pairs origs gens thr) in
  let rows := snd (compare_pdfs_and_build_pairs origs gens thr) in
  Forall (fun r =>
            match orig_text r with
            | Some t =>
                (char_edit_distance r = 0 <-> t = gen_text r)
                /\ Z.abs (Py.len (gen_text r) - Py.len t)
                   <= char_edit_distance r
                   <= Z.max (Py.len (gen_text r)) (Py.len t)
            | None => char_edit_distance r = Py.len (gen_text r)
            end)%Z rows
  /\ total_char_diffs s = zsum (map char_edit_distance rows)
  /\ (0 <= total_char_diffs s <= total_chars s)%Z
  /\ (gen_lines s <= total_chars s)%Z.
Proof.
  intros s rows.
  pose proof (rows_Forall2 origs gens thr) as F. fold rows in F.
  destruct (summary_fields origs gens thr) as (H1 & H2 & _ & H4 & _).
  cbv zeta in H1, H2, H4. fold s in H1, H2, H4.
  split; [|split; [|split]].
  - clearbody rows. clear s H1 H2 H4.
    induction F as [|g r gens rows E F IH]; constructor; [|exact IH].
    pose proof (round_row (map set_norm origs) thr (set_norm g)) as R.
    destruct (best_match (map set_norm origs) (set_norm g)) as [score [o|]].
    + destruct R as (a_html & b_html & R). rewrite R in E.
      injection E as <-. cbn [orig_text char_edit_distance gen_text].
      pose proof (levenshtein_le_max (text g) (text o)).
      pose proof (levenshtein_ge_diff (text g) (text o)).
      pose proof (levenshtein_zero_iff (text g) (text o)) as Hz.
      unfold Py.len. split; [|lia].
      split; [intros H'; symmetry; apply Hz; lia|].
      intros H'. symmetry in H'. apply Hz in H'. lia.
    + rewrite R in E. injection E as <-. reflexivity.
  - rewrite H2. clearbody rows. clear s H1 H2 H4.
    induction F as [|g r gens rows E F IH]; [reflexivity|].
    cbn [map zsum fold_right]. unfold zsum in IH. rewrite IH. f_equal.
    destruct (round_one_row (map set_norm origs) thr (set_norm g))
      as (r' & E' & _ & _ & _ & _ & Hd).
    rewrite E' in E. injection E as ->. now rewrite Hd.
  - rewrite H1, H2. apply (sums_bounds _ thr).
  - rewrite H1, H4. rewrite <- (length_map set_norm gens).
    generalize (map set_norm gens). intros G.
    induction G as [|g G IH]; [reflexivity|].
    pose proof (line_diff_le_chars (map set_norm origs) g).
    cbn [map zsum fold_right List.length]. unfold zsum in IH. lia.
Qed.

(** X11: when every row pairs a generated line with an original line of
    the same text, no character differs and [char_accuracy] is 1. *)
Theorem same_texts_char_accuracy (origs gens : list Line) (thr : Q) :
  let s := fst (compare_pdfs_and_build_pairs origs gens thr) in
  let rows := snd (compare_pdfs_and_build_pairs origs gens thr) in
  gens <> [] ->
  Forall (fun r => orig_text r = Some (gen_text r)) rows ->
  total_char_diffs s = 0%Z /\ (char_accuracy s == 1)%Q.
Proof.
  intros s rows Hne Hall.
  pose proof (rows_Forall2 origs gens thr) as F. fold rows in F.
  destruct (summary_fields origs gens thr) as (H1 & H2 & _ & _ & H5 & _).
  cbv zeta in H1, H2, H5. fold s in H1, H2, H5.
  assert (Hd : total_char_diffs s = 0%Z).
  { rewrite H2. clearbody rows. clear s H1 H2 H5 Hne.
    induction F as [|g r gens rows E F IH]; [reflexivity|].
    apply Forall_cons_iff in Hall. destruct Hall as [Hr Hall].
    cbn [map zsum fold_right]. unfold zsum in IH. rewrite (IH Hall).
    pose proof (round_row (map set_norm origs) thr (set_norm g)) as R.
    unfold line_diff_chars.
    destruct (best_match (map set_norm origs) (set_norm g)) as [score [o|]].
    - destruct R as (a_html & b_html & R). rewrite R in E.
      injection E as <-. cbn in Hr. injection Hr as Hr. cbn [snd].
      change (text (set_norm g)) with (text g).
      rewrite (proj2 (levenshtein_zero_iff _ _) (eq_sym Hr)). reflexivity.
    - rewrite R in E. injection E as <-. discriminate. }
  split; [exact Hd|].
  rewrite H5.
  destruct (sums_bounds (map set_norm origs) thr (map set_norm gens))
    as (_ & B2 & _).
  assert (Hc : (0 < total_chars s)%Z).
  { rewrite H1. apply B2. destruct gens; [congruence|discriminate]. }
  destruct (Z.eqb_spec (total_chars s) 0); [lia|].
  apply round4_one. rewrite Hd.
  apply (proj1 (float_sub_one _)), truediv_zero.
Qed.

Lemma same_texts_char_accuracy_example :
  (char_accuracy
     (fst (compare_pdfs_and_build_pairs
             [sample_line 1 "Total amount" 100; sample_line 2 "Due date" 120]
             [sample_line 1 "Due date" 121]
             75)) == 1)%Q.
Proof.
  apply (same_texts_char_accuracy
           [sample_line 1 "Total amount" 100; sample_line 2 "Due date" 120]
           [sample_line 1 "Due date" 121] 75).
  - discriminate.
  - vm_compute. repeat constructor.
Defined.

(** *** The threshold *)

Lemma round4_mono (x y : Q) :
  (x <= y)%Q -> (Py.round4 x <= Py.round4 y)%Q.
Proof.
  destruct x as [n1 d1], y as [n2 d2]. unfold Py.round4.
  cbn [Qnum Qden]. intros H. unfold Qle in H. cbn [Qnum Qden] in H.
  apply float64_mono. unfold Qle. cbn [Qnum Qden].
  apply Z.mul_le_mono_nonneg_r; [lia|].
  apply half_even_mono; lia.
Qed.

Lemma Qfrac_mono (a b n : Z) :
  (a <= b)%Z -> (0 < n)%Z ->
  (inject_Z a / inject_Z n <= inject_Z b / inject_Z n)%Q.
Proof.
  intros Hab Hn. destruct n as [|n|n]; try lia.
  unfold Qle, Qdiv, Qmult, Qinv, inject_Z. cbn. nia.
Qed.

Lemma filter_length_le {A : Type} (f h : A -> bool) (l : list A) :
  (forall x, In x l -> f x = true -> h x = true) ->
  List.length (filter f l) <= List.length (filter h l).
Proof.
  induction l as [|x l IH]; intros H; [reflexivity|].
  cbn [filter]. specialize (IH (fun y Hy => H y (or_intror Hy))).
  pose proof (H x (or_introl eq_refl)) as Hx.
  destruct (f x).
  - rewrite (Hx eq_refl). cbn [List.length]. lia.
  - destruct (h x); cbn [List.length]; lia.
Qed.

(** X12: raising the threshold never adds a matched line: with a larger
    threshold [matched_lines] and [line_accuracy] are no larger.  The
    threshold decides only between [match] and [mismatch]: the character
    totals and [char_accuracy] do not depend on it, and the rows of the two
    runs agree on everything but [matched] and [error_type]. *)
Theorem threshold_monotone (origs gens : list Line) (thr1 thr2 : Q) :
  (thr1 <= thr2)%Q ->
  let s1 := fst (compare_pdfs_and_build_pairs origs gens thr1) in
  let s2 := fst (compare_pdfs_and_build_pairs origs gens thr2) in
  let rows1 := snd (compare_pdfs_and_build_pairs origs gens thr1) in
  let rows2 := snd (compare_pdfs_and_build_pairs origs gens thr2) in
  (matched_lines s2 <= matched_lines s1)%Z
  /\ (line_accuracy s2 <= line_accuracy s1)%Q
  /\ total_chars s2 = total_chars s1
  /\ total_char_diffs s2 = total_char_diffs s1
  /\ char_accuracy s2 = char_accuracy s1
  /\ Forall2 (fun r1 r2 =>
                r2 = mkRow (gen_page r1) (gen_line_no r1) (gen_text r1)
                           (gen_html r1) (orig_page r1) (orig_line_no r1)
                           (orig_text r1) (orig_html r1) (similarity r1)
                           (char_edit_distance r1) (y_delta r1)
                           (matched r2) (error_type r2)
                /\ (matched r2 = true -> matched r1 = true))
             rows1 rows2.
Proof.
  intros Hthr s1 s2 rows1 rows2.
  destruct (summary_fields origs gens thr1) as (A1 & A2 & A3 & A4 & A5 & A6).
  destruct (summary_fields origs gens thr2) as (B1 & B2 & B3 & B4 & B5 & B6).
  cbv zeta in A1, A2, A3, A4, A5, A6, B1, B2, B3, B4, B5, B6.
  fold s1 in A1, A2, A3, A4, A5, A6. fold s2 in B1, B2, B3, B4, B5, B6.
  assert (Hm : (matched_lines s2 <= matched_lines s1)%Z).
  { rewrite A3, B3. apply inj_le, filter_length_le.
    intros g _. unfold line_matched.
    destruct (best_match (map set_norm origs) g) as [score [o|]]; [|auto].
    rewrite !ge_threshold_iff. intros H. eapply Qle_trans; eauto. }
  assert (Hc : total_chars s2 = total_chars s1) by congruence.
  assert (Hd : total_char_diffs s2 = total_char_diffs s1) by congruence.
  split; [exact Hm|]. split; [|split; [exact Hc|split; [exact Hd|split]]].
  - rewrite A6, B6. apply round4_mono.
    destruct gens as [|g gens']; [apply Qle_refl|].
    rewrite A4, B4. apply truediv_mono; [exact Hm|].
    cbn [List.length]. lia.
  - rewrite A5, B5, Hc, Hd. reflexivity.
  - pose proof (rows_Forall2 origs gens thr1) as F1. fold rows1 in F1.
    pose proof (rows_Forall2 origs gens thr2) as F2. fold rows2 in F2.
    clearbody rows1 rows2.
    clear s1 s2 A1 A2 A3 A4 A5 A6 B1 B2 B3 B4 B5 B6 Hm Hc Hd.
    revert rows2 F2.
    induction F1 as [|g r1 gens rows1 E1 F1 IH]; intros rows2 F2;
      inversion F2 as [|g' r2 gens' rows2' E2 F2' Eg Er]; subst;
      constructor; [|apply IH, F2'].
    pose proof (round_row (map set_norm origs) thr1 (set_norm g)) as R1.
    pose proof (round_row (map set_norm origs) thr2 (set_norm g)) as R2.
    destruct (best_match (map set_norm origs) (set_norm g)) as [score [o|]].
    + destruct R1 as (a1 & b1 & R1). destruct R2 as (a2 & b2 & R2).
      rewrite R1 in E1. rewrite R2 in E2.
      injection E1 as <-. injection E2 as <-. cbn.
      assert (Hab : (a1, b1) = (a2, b2)).
      { unfold round_of, compare_step, best_match in R1, R2.
        revert R1 R2.
        destruct (find_best_match (set_norm g) (map set_norm origs) 12%Q 1%Z)
          as [score' [o'|]]; cbn zeta; [|discriminate].
        destruct (word_level_diff_html (text (set_norm g)) (text o'))
          as [a b].
        cbn. intros [= -> _ _ _ -> _ _ _ _ _] [= -> _ _ _ -> _ _ _ _ _].
        reflexivity. }
      injection Hab as -> ->. split; [reflexivity|].
      rewrite !ge_threshold_iff. intros H. eapply Qle_trans; eauto.
    + rewrite R1 in E1. rewrite R2 in E2.
      injection E1 as <-. injection E2 as <-. cbn. split; [reflexivity|auto].
Qed.

Lemma threshold_monotone_example :
  (matched_lines
     (fst (compare_pdfs_and_build_pairs
             [sample_line 1 "Total amount" 100; sample_line 2 "Due date" 120]
             [sample_line 1 "Total amounts" 100; sample_line 2 "Due" 120]
             90))
   <= matched_lines
        (fst (compare_pdfs_and_build_pairs
                [sample_line 1 "Total amount" 100; sample_line 2 "Due date" 120]
                [sample_line 1 "Total amounts" 100; sample_line 2 "Due" 120]
                50)))%Z.
Proof.
  assert (H : (50 <= 90)%Q) by (unfold Qle; cbn; lia).
  exact (proj1 (threshold_monotone
                  [sample_line 1 "Total amount" 100;
                   sample_line 2 "Due date" 120]
                  [sample_line 1 "Total amounts" 100;
                   sample_line 2 "Due" 120]
                  50 90 H)).
Defined.

(** ** The content comparator, further *)

Lemma occurrences_nonneg (l : list string) (w : string) :
  (0 <= occurrences l w)%Z.
Proof. unfold occurrences. lia. Qed.

Lemma zsum_occurrences_distinct (l : list string) :
  zsum (map (occurrences l) (distinct l)) = Z.of_nat (List.length l).
Proof.
  pose proof (Counter_total l) as H.
  rewrite counter_total_zsum, Counter_entries, map_map in H. exact H.
Qed.

Lemma zsum_indicator (x : string) (keys : list string) :
  NoDup keys ->
  (0 <= zsum (map (fun w => if String.eqb x w then 1 else 0) keys) <= 1)%Z.
Proof.
  induction 1 as [|k keys Hk Hnd IH]; cbn [map zsum fold_right]; [lia|].
  unfold zsum in IH. destruct (String.eqb_spec x k) as [->|]; [|lia].
  assert (E : fold_right Z.add 0%Z
                (map (fun w => if String.eqb k w then 1%Z else 0%Z) keys)
              = 0%Z).
  { clear IH Hnd. induction keys as [|y keys IH]; [reflexivity|].
    cbn [map fold_right]. destruct (String.eqb_spec k y) as [->|].
    - exfalso. apply Hk. now left.
    - rewrite IH; [reflexivity|]. intros H. apply Hk. now right. }
  rewrite E. lia.
Qed.

(** Over distinct keys the occurrences in a list add up to its length at
    most. *)
Lemma zsum_occurrences_le (l keys : list string) :
  NoDup keys ->
  (zsum (map (occurrences l) keys) <= Z.of_nat (List.length l))%Z.
Proof.
  intros Hnd. induction l as [|x l IH].
  - induction keys as [|k keys IHk]; [reflexivity|].
    apply NoDup_cons_iff in Hnd. destruct Hnd as [_ Hnd].
    specialize (IHk Hnd). cbn [map zsum fold_right] in *.
    unfold occurrences at 1. cbn. unfold zsum in IHk. cbn in IHk. lia.
  - assert (E : zsum (map (occurrences (x :: l)) keys)
                = (zsum (map (occurrences l) keys)
                   + zsum (map (fun w => if String.eqb x w then 1 else 0)
                               keys))%Z).
    { clear. induction keys as [|k keys IH]; [reflexivity|].
      cbn [map zsum fold_right]. unfold zsum in IH. rewrite IH.
      rewrite occurrences_cons. destruct (String.eqb x k); lia. }
    rewrite E. pose proof (zsum_indicator x keys Hnd).
    cbn [List.length]. lia.
Qed.

(** The matched and the missing words of the tally account for every
    occurrence of the keys. *)
Lemma tally_accounting (ow gw keys : list string) :
  let found w := Z.min (occurrences ow w) (occurrences gw w) in
  let missing :=
    flat_map (fun w => Py.times w (occurrences ow w - found w)) keys in
  (zsum (map found keys) + Z.of_nat (List.length missing))%Z
  = zsum (map (occurrences ow) keys)
  /\ (0 <= zsum (map found keys) <= zsum (map (occurrences gw) keys))%Z
  /\ Forall (fun w => In w keys) missing.
Proof.
  cbv zeta. induction keys as [|k keys (IH1 & IH2 & IH3)].
  - repeat split; cbn; try lia. constructor.
  - cbn [map zsum fold_right flat_map]. unfold zsum in *.
    rewrite length_app. unfold Py.times at 1. rewrite repeat_length.
    pose proof (occurrences_nonneg ow k). pose proof (occurrences_nonneg gw k).
    split; [lia|]. split; [lia|].
    apply Forall_app. split.
    + apply Forall_forall. intros w Hw. apply repeat_spec in Hw. now left.
    + eapply Forall_impl; [|exact IH3]. intros w Hw. now right.
Qed.

(** Nothing is missing exactly when every word occurs in the generated
    list at least as often as in the original one. *)
Lemma tally_nothing_missing (ow gw : list string) :
  let found w := Z.min (occurrences ow w) (occurrences gw w) in
  flat_map (fun w => Py.times w (occurrences ow w - found w)) (distinct ow) = []
  <-> (forall w, (occurrences ow w <= occurrences gw w)%Z).
Proof.
  cbv zeta. split.
  - intros E w.
    pose proof (occurrences_flat_times
                  (fun w => (occurrences ow w
                             - Z.min (occurrences ow w) (occurrences gw w))%Z)
                  (distinct ow) w (distinct_NoDup ow) ltac:(lia)) as Hocc.
    cbv beta in Hocc. rewrite E in Hocc.
    change (occurrences [] w) with 0%Z in Hocc.
    destruct (existsb (String.eqb w) (distinct ow)) eqn:Hex; [lia|].
    assert (Hn : ~ In w ow).
    { intros Hin. apply distinct_In in Hin.
      assert (existsb (String.eqb w) (distinct ow) = true); [|congruence].
      apply existsb_exists. exists w.
      split; [exact Hin|apply String.eqb_refl]. }
    rewrite (occurrences_not_In ow w Hn). apply occurrences_nonneg.
  - intros H. induction (distinct ow) as [|k keys IH]; [reflexivity|].
    cbn [flat_map]. rewrite IH. unfold Py.times.
    replace (occurrences ow k - Z.min (occurrences ow k) (occurrences gw k))%Z
      with 0%Z by (specialize (H k); lia).
    reflexivity.
Qed.

(** X13: [pdf_content_accuracy] always returns, and its result adds up:
    [total_count] is the number of words of the original, [match_count]
    lies between 0 and both word counts, the missing words are as many as
    [total_count - match_count] and each is a lowercased word of the
    original, and the accuracy lies between 0 and 100. *)
Theorem content_accuracy_accounting (original generated : Document) :
  exists accuracy match_count total_count missing,
    pdf_content_accuracy original generated
    = Some (accuracy, match_count, total_count, missing)
    /\ total_count = Z.of_nat (List.length (extract_pdf_words original))
    /\ (0 <= match_count <= total_count)%Z
    /\ (match_count
        <= Z.of_nat (List.length (extract_pdf_words generated)))%Z
    /\ (match_count + Z.of_nat (List.length missing))%Z = total_count
    /\ Forall (fun w => In w (map Py.lower (extract_pdf_words original)))
              missing
    /\ (0 <= accuracy)%Q /\ (accuracy <= 100)%Q.
Proof.
  assert (D : extract_pdf_words original = []
              \/ extract_pdf_words original <> []).
  { destruct (extract_pdf_words original); [left|right]; congruence. }
  destruct D as [E|Hne].
  - exists 0%Q, 0%Z, 0%Z, []. unfold pdf_content_accuracy. rewrite E.
    repeat split; try reflexivity; try lia; try discriminate. constructor.
  - rewrite (content_accuracy_value original generated Hne).
    set (ow := map Py.lower (extract_pdf_words original)).
    set (gw := map Py.lower (extract_pdf_words generated)).
    destruct (tally_accounting ow gw (distinct ow)) as (T1 & T2 & T3).
    cbv zeta in T1, T2, T3.
    pose proof (zsum_occurrences_distinct ow) as Hs.
    pose proof (zsum_occurrences_le gw (distinct ow) (distinct_NoDup ow)) as Hg.
    assert (Hlo : List.length ow = List.length (extract_pdf_words original))
      by (unfold ow; apply length_map).
    assert (Hlg : List.length gw = List.length (extract_pdf_words generated))
      by (unfold gw; apply length_map).
    rewrite Hlo in Hs. rewrite Hlg in Hg. clear Hlo Hlg.
    assert (Htc : (0 < Z.of_nat (List.length (extract_pdf_words original)))%Z).
    { destruct (extract_pdf_words original); [congruence|cbn; lia]. }
    set (tc := Z.of_nat (List.length (extract_pdf_words original))) in *.
    set (mc := zsum (map _ (distinct ow))) in *.
    set (missing := flat_map _ (distinct ow)) in *.
    exists (inject_Z mc / inject_Z tc * 100)%Q, mc, tc, missing.
    split; [reflexivity|].
    split; [reflexivity|]. split; [lia|]. split; [lia|]. split; [lia|].
    split.
    + eapply Forall_impl; [|exact T3]. intros w Hw. now apply distinct_In.
    + assert (Hmc : (0 <= mc <= tc)%Z) by lia.
      destruct (Qfrac_unit mc tc Hmc Htc) as [H0 H1].
      set (x := (inject_Z mc / inject_Z tc)%Q) in *. clearbody x.
      unfold Qle, Qmult in *. cbn in *. lia.
Qed.

Lemma Qfrac_full (mc tc : Z) :
  (0 < tc)%Z ->
  (mc = tc <-> (inject_Z mc / inject_Z tc * 100 == 100)%Q).
Proof.
  intros Htc. destruct tc as [|tc|tc]; try lia.
  unfold Qeq, Qdiv, Qmult, Qinv, inject_Z. cbn. lia.
Qed.

(** X14: on an original that has words, nothing is missing exactly when
    every lowercased word occurs in the generated document at least as
    often as in the original; this is also exactly when [match_count]
    equals [total_count], and exactly when the accuracy is 100. *)
Theorem content_accuracy_full_iff (original generated : Document) :
  extract_pdf_words original <> [] ->
  exists accuracy match_count total_count missing,
    pdf_content_accuracy original generated
    = Some (accuracy, match_count, total_count, missing)
    /\ (missing = [] <->
        forall w,
          (occurrences (map Py.lower (extract_pdf_words original)) w
           <= occurrences (map Py.lower (extract_pdf_words generated)) w)%Z)
    /\ (missing = [] <-> match_count = total_count)
    /\ (match_count = total_count <-> (accuracy == 100)%Q).
Proof.
  intros Hne. rewrite (content_accuracy_value original generated Hne).
  set (ow := map Py.lower (extract_pdf_words original)).
  set (gw := map Py.lower (extract_pdf_words generated)).
  destruct (tally_accounting ow gw (distinct ow)) as (T1 & _ & _).
  cbv zeta in T1.
  pose proof (tally_nothing_missing ow gw) as Tn. cbv zeta in Tn.
  pose proof (zsum_occurrences_distinct ow) as Hs.
  assert (Hlo : List.length ow = List.length (extract_pdf_words original))
    by (unfold ow; apply length_map).
  rewrite Hlo in Hs. clear Hlo.
  assert (Htc : (0 < Z.of_nat (List.length (extract_pdf_words original)))%Z).
  { destruct (extract_pdf_words original); [congruence|cbn; lia]. }
  set (tc := Z.of_nat (List.length (extract_pdf_words original))) in *.
  set (mc := zsum (map _ (distinct ow))) in *.
  set (missing := flat_map _ (distinct ow)) in *.
  exists (inject_Z mc / inject_Z tc * 100)%Q, mc, tc, missing.
  split; [reflexivity|]. split; [exact Tn|]. split.
  - rewrite <- length_zero_iff_nil. lia.
  - apply Qfrac_full, Htc.
Qed.

Lemma content_accuracy_full_iff_example :
  exists accuracy match_count total_count missing,
    pdf_content_accuracy sample_original sample_generated
    = Some (accuracy, match_count, total_count, missing)
    /\ (missing = [] <->
        forall w,
          (occurrences (map Py.lower (extract_pdf_words sample_original)) w
           <= occurrences (map Py.lower (extract_pdf_words sample_generated))
                          w)%Z)
    /\ (missing = [] <-> match_count = total_count)
    /\ (match_count = total_count <-> (accuracy == 100)%Q).
Proof.
  apply (content_accuracy_full_iff sample_original sample_generated).
  vm_compute. discriminate.
Defined.

Lemma occurrences_Permutation (l1 l2 : list string) (w : string) :
  Permutation l1 l2 -> occurrences l1 w = occurrences l2 w.
Proof.
  intros H. unfold occurrences. f_equal.
  now apply (Permutation_count_occ string_dec).
Qed.

(** X15: the result of [pdf_content_accuracy] depends on the generated
    document only through the bag of its lowercased words: two generated
    documents whose words are the same up to order, page breaks and letter
    case give the same result against any original. *)
Theorem content_accuracy_generated_bag (original g1 g2 : Document) :
  Permutation (map Py.lower (extract_pdf_words g1))
              (map Py.lower (extract_pdf_words g2)) ->
  pdf_content_accuracy original g1 = pdf_content_accuracy original g2.
Proof.
  intros HP.
  assert (D : extract_pdf_words original = []
              \/ extract_pdf_words original <> []).
  { destruct (extract_pdf_words original); [left|right]; congruence. }
  destruct D as [E|Hne].
  - unfold pdf_content_accuracy. rewrite E. reflexivity.
  - rewrite (content_accuracy_value original g1 Hne),
      (content_accuracy_value original g2 Hne).
    set (ow := map Py.lower (extract_pdf_words original)).
    assert (Hocc : forall w,
              Z.min (occurrences ow w)
                    (occurrences (map Py.lower (extract_pdf_words g1)) w)
              = Z.min (occurrences ow w)
                      (occurrences (map Py.lower (extract_pdf_words g2)) w)).
    { intros w. now rewrite (occurrences_Permutation _ _ w HP). }
    rewrite (map_ext _ _ Hocc).
    rewrite (flat_map_ext _
               (fun w => Py.times w
                  (occurrences ow w
                   - Z.min (occurrences ow w)
                       (occurrences (map Py.lower (extract_pdf_words g2)) w))))
      by (intros w; now rewrite Hocc).
    reflexivity.
Qed.

Lemma content_accuracy_generated_bag_example :
  pdf_content_accuracy sample_original
    [[sample_word "Due"; sample_word "total"]]
  = pdf_content_accuracy sample_original
      [[sample_word "TOTAL"]; [sample_word "due"]].
Proof.
  apply (content_accuracy_generated_bag sample_original
           [[sample_word "Due"; sample_word "total"]]
           [[sample_word "TOTAL"]; [sample_word "due"]]).
  vm_compute. apply perm_swap.
Defined.

(** X16: the two content checks agree where the stricter one succeeds:
    when [compare_pdfs_content_only] is true and the original has words,
    [pdf_content_accuracy] reports every word matched, none missing and an
    accuracy of 100. *)
Theorem content_only_equal_full_accuracy (original generated : Document) :
  compare_pdfs_content_only original generated = true ->
  extract_pdf_words original <> [] ->
  exists accuracy,
    pdf_content_accuracy original generated
    = Some (accuracy,
            Z.of_nat (List.length (extract_pdf_words original)),
            Z.of_nat (List.length (extract_pdf_words original)),
            [])
    /\ (accuracy == 100)%Q.
Proof.
  intros Heq Hne. unfold compare_pdfs_content_only in Heq.
  apply list_eqb_eq in Heq.
  rewrite (content_accuracy_value original generated Hne). rewrite <- Heq.
  set (ow := map Py.lower (extract_pdf_words original)).
  destruct (tally_accounting ow ow (distinct ow)) as (T1 & _ & _).
  cbv zeta in T1.
  pose proof (proj2 (tally_nothing_missing ow ow) (fun w => Z.le_refl _)) as Tn.
  cbv zeta in Tn. rewrite Tn in T1 |- *. cbn [List.length] in T1.
  pose proof (zsum_occurrences_distinct ow) as Hs.
  assert (Hlo : List.length ow = List.length (extract_pdf_words original))
    by (unfold ow; apply length_map).
  rewrite Hlo in Hs. clear Hlo.
  assert (Htc : (0 < Z.of_nat (List.length (extract_pdf_words original)))%Z).
  { destruct (extract_pdf_words original); [congruence|cbn; lia]. }
  set (tc := Z.of_nat (List.length (extract_pdf_words original))) in *.
  set (mc := zsum (map _ (distinct ow))) in *.
  assert (Hmc : mc = tc) by lia. rewrite Hmc.
  eexists. split; [reflexivity|].
  exact (proj1 (Qfrac_full tc tc Htc) eq_refl).
Qed.

Lemma content_only_equal_full_accuracy_example :
  exists accuracy,
    pdf_content_accuracy sample_original sample_original
    = Some (accuracy,
            Z.of_nat (List.length (extract_pdf_words sample_original)),
            Z.of_nat (List.length (extract_pdf_words sample_original)),
            [])
    /\ (accuracy == 100)%Q.
Proof.
  apply (content_only_equal_full_accuracy sample_original sample_original).
  - reflexivity.
  - vm_compute. discriminate.
Defined.

(** *** The extracted words *)

Lemma lstrip_blank (s : string) : Py.lstrip s = "" <-> blank s = true.
Proof.
  induction s as [|c s IH]; cbn [Py.lstrip blank]; [split; reflexivity|].
  destruct (Py.isspace c); cbn [andb]; [exact IH|].
  split; discriminate.
Qed.

Lemma rstrip_blank (s : string) : Py.rstrip s = "" <-> blank s = true.
Proof.
  induction s as [|c s IH]; cbn [Py.rstrip blank]; [split; reflexivity|].
  destruct (Py.rstrip s) eqn:E.
  - rewrite (proj1 IH eq_refl). destruct (Py.isspace c); cbn [andb];
      split; congruence.
  - split; [discriminate|]. intros H. apply andb_prop in H.
    destruct H as [_ H]. apply IH in H. discriminate.
Qed.

Lemma lstrip_head (s : string) :
  match Py.lstrip s with
  | EmptyString => True
  | String c _ => Py.isspace c = false
  end.
Proof.
  induction s as [|c s IH]; cbn [Py.lstrip]; [exact I|].
  destruct (Py.isspace c) eqn:E; [exact IH|exact E].
Qed.

Lemma strip_blank (s : string) : Py.strip s = "" <-> blank s = true.
Proof.
  unfold Py.strip. split.
  - intros H. apply rstrip_blank in H. apply lstrip_blank.
    pose proof (lstrip_head s) as Hh.
    destruct (Py.lstrip s) as [|c r]; [reflexivity|].
    cbn [blank] in H. rewrite Hh in H. discriminate.
  - intros H. apply lstrip_blank in H. rewrite H. reflexivity.
Qed.

(** X17: [extract_pdf_words] keeps, in reading order, the text of exactly
    the word boxes that have a character other than white space; the words
    of a document in two parts are those of the first part followed by
    those of the second. *)
Theorem extract_pdf_words_not_blank (doc doc' : Document) :
  extract_pdf_words doc
  = map word (filter (fun w => negb (blank (word w))) (List.concat doc))
  /\ Forall (fun w => blank w = false) (extract_pdf_words doc)
  /\ extract_pdf_words (doc ++ doc')
     = extract_pdf_words doc ++ extract_pdf_words doc'.
Proof.
  assert (Hf : forall l : list WordBox,
            filter (fun w => negb (Py.falsy (Py.strip (word w)))) l
            = filter (fun w => negb (blank (word w))) l).
  { intros l. apply filter_ext. intros w. f_equal.
    pose proof (strip_blank (word w)) as H.
    destruct (Py.strip (word w)), (blank (word w)); cbn [Py.falsy];
      try reflexivity.
    - discriminate (proj1 H eq_refl).
    - discriminate (proj2 H eq_refl). }
  assert (H1 : forall d, extract_pdf_words d
                = map word (filter (fun w => negb (blank (word w)))
                                   (List.concat d))).
  { intros d. rewrite extract_pdf_words_flat. unfold words_of.
    now rewrite Hf. }
  split; [apply H1|]. split.
  - rewrite H1. apply Forall_forall. intros w Hw.
    apply in_map_iff in Hw. destruct Hw as (wb & <- & Hwb).
    apply filter_In in Hwb. destruct Hwb as [_ Hwb].
    now apply negb_true_iff in Hwb.
  - rewrite !H1, concat_app, filter_app, map_app. reflexivity.
Qed.

(** ** The line extractor *)




Lemma min_list_spec (l : list Q) (m : Q) :
  Py.min_list l = Some m -> In m l /\ forall x, In x l -> (m <= x)%Q.
Proof.
  destruct l as [|h l]; [discriminate|]. cbn [Py.min_list]. intros [= <-].
  revert h. induction l as [|y l IH]; intros h.
  - cbn. split; [now left|]. intros x [<-|[]]. apply Qle_refl.
  - cbn [fold_left]. destruct (Qlt_le_dec y h) as [Hlt|Hle].
    + destruct (IH y) as [Hin Hmin]. split.
      * destruct Hin as [Hin|Hin]; [right; left; exact Hin|].
        right. right. exact Hin.
      * intros x [<-|[<-|Hx]].
        -- apply Qle_trans with y; [apply Hmin; now left|].
           now apply Qlt_le_weak.
        -- apply Hmin. now left.
        -- apply Hmin. now right.
    + destruct (IH h) as [Hin Hmin]. split.
      * destruct Hin as [Hin|Hin]; [left; exact Hin|]. right. right. exact Hin.
      * intros x [<-|[<-|Hx]].
        -- apply Hmin. now left.
        -- apply Qle_trans with h; [apply Hmin; now left|exact Hle].
        -- apply Hmin. now right.
Qed.

Lemma max_list_spec (l : list Q) (m : Q) :
  Py.max_list l = Some m -> In m l /\ forall x, In x l -> (x <= m)%Q.
Proof.
  destruct l as [|h l]; [discriminate|]. cbn [Py.max_list]. intros [= <-].
  revert h. induction l as [|y l IH]; intros h.
  - cbn. split; [now left|]. intros x [<-|[]]. apply Qle_refl.
  - cbn [fold_left]. destruct (Qlt_le_dec h y) as [Hlt|Hle].
    + destruct (IH y) as [Hin Hmax]. split.
      * destruct Hin as [Hin|Hin]; [right; left; exact Hin|].
        right. right. exact Hin.
      * intros x [<-|[<-|Hx]].
        -- apply Qle_trans with y; [now apply Qlt_le_weak|].
           apply Hmax. now left.
        -- apply Hmax. now left.
        -- apply Hmax. now right.
    + destruct (IH h) as [Hin Hmax]. split.
      * destruct Hin as [Hin|Hin]; [left; exact Hin|]. right. right. exact Hin.
      * intros x [<-|[<-|Hx]].
        -- apply Hmax. now left.
        -- apply Qle_trans with h; [exact Hle|apply Hmax; now left].
        -- apply Hmax. now right.
Qed.

(** One text line: skipped when it has no text, else appended with the next
    number.  [min] and [max] never see an empty sequence. *)
Lemma extract_line_printed (pno k : nat) (lines : list Line) (tl : TextLine) :
  if printed tl
  then exists l, extracted pno (k, tl) l
         /\ extract_line pno (Some (lines, Z.of_nat k)) tl
            = Some (lines ++ [l], Z.of_nat (S k))
  else extract_line pno (Some (lines, Z.of_nat k)) tl
       = Some (lines, Z.of_nat k).
Proof.
  unfold printed, extract_line. cbv zeta.
  destruct (Py.get (line_spans tl) []) as [|s spans] eqn:E.
  - reflexivity.
  - destruct (Py.falsy (line_text (s :: spans))) eqn:Ef; cbn [negb];
      [reflexivity|].
    cbn [map Py.min_list Py.max_list].
    eexists (mkLine _ _ _ _ _ _ _ None). split.
    + unfold extracted. cbv zeta. cbn [snd fst]. rewrite E.
      cbn [page line_no text norm x0 y0 x1 y1 map Py.min_list Py.max_list].
      repeat split; reflexivity.
    + f_equal. f_equal. lia.
Qed.

Lemma extract_line_fold (pno : nat) (tls : list TextLine) (k : nat)
    (lines : list Line) :
  exists new,
    fold_left (extract_line pno) tls (Some (lines, Z.of_nat k))
    = Some (lines ++ new, Z.of_nat (k + List.length (filter printed tls)))
    /\ Forall2 (extracted pno)
               (combine (seq k (List.length (filter printed tls)))
                        (filter printed tls))
               new.
Proof.
  revert k lines. induction tls as [|tl tls IH]; intros k lines.
  - exists []. cbn. rewrite app_nil_r, Nat.add_0_r. split; [reflexivity|].
    constructor.
  - cbn [fold_left filter].
    pose proof (extract_line_printed pno k lines tl) as H.
    destruct (printed tl).
    + destruct H as (l & Hl & ->).
      destruct (IH (S k) (lines ++ [l])) as (new & -> & Hnew).
      exists (l :: new). rewrite <- app_assoc. cbn [app List.length seq combine].
      split; [f_equal; f_equal; lia|]. constructor; assumption.
    + rewrite H. apply IH.
Qed.

Lemma combine_app_eq {A B : Type} (l1 l2 : list A) (m1 m2 : list B) :
  List.length l1 = List.length m1 ->
  combine (l1 ++ l2) (m1 ++ m2) = combine l1 m1 ++ combine l2 m2.
Proof.
  revert m1. induction l1 as [|x l1 IH]; intros [|y m1] H; try discriminate.
  - reflexivity.
  - cbn. f_equal. apply IH. now injection H.
Qed.

Lemma extract_block_fold (pno : nat) (blocks : list Block) (k : nat)
    (lines : list Line) :
  let tls := text_lines (mkPageDict (Some blocks)) in
  exists new,
    fold_left (extract_block pno) blocks (Some (lines, Z.of_nat k))
    = Some (lines ++ new, Z.of_nat (k + List.length (filter printed tls)))
    /\ Forall2 (extracted pno)
               (combine (seq k (List.length (filter printed tls)))
                        (filter printed tls))
               new.
Proof.
  cbv zeta. unfold text_lines. cbn [page_blocks Py.get].
  revert k lines. induction blocks as [|b blocks IH]; intros k lines.
  - exists []. cbn. rewrite app_nil_r, Nat.add_0_r. split; [reflexivity|].
    constructor.
  - cbn [fold_left flat_map].
    set (tls := match block_type b with
                | Some 0%Z => Py.get (block_lines b) []
                | _ => []
                end).
    assert (Hb : exists new,
              extract_block pno (Some (lines, Z.of_nat k)) b
              = Some (lines ++ new,
                      Z.of_nat (k + List.length (filter printed tls)))
              /\ Forall2 (extracted pno)
                         (combine (seq k (List.length (filter printed tls)))
                                  (filter printed tls))
                         new).
    { unfold extract_block, tls.
      destruct (block_type b) as [[|p|p]|];
        try (exists []; cbn; rewrite app_nil_r, Nat.add_0_r;
             split; [reflexivity|constructor]).
      apply extract_line_fold. }
    destruct Hb as (new1 & -> & H1).
    destruct (IH (k + List.length (filter printed tls)) (lines ++ new1))
      as (new2 & -> & H2).
    exists (new1 ++ new2). rewrite filter_app, length_app, <- app_assoc.
    split; [f_equal; f_equal; lia|].
    rewrite seq_app.
    rewrite combine_app_eq by now rewrite length_seq.
    apply Forall2_app; assumption.
Qed.

Lemma extract_page_fold (doc : TextDocument) (n : nat) (lines : list Line) :
  exists per_page,
    fold_left extract_page (combine (seq n (List.length doc)) doc) (Some lines)
    = Some (lines ++ List.concat per_page)
    /\ Forall2 (fun p ls =>
                  Forall2 (extracted (fst p))
                          (Difflib.enumerate (printed_lines (snd p))) ls)
               (combine (seq n (List.length doc)) doc) per_page.
Proof.
  revert n lines. induction doc as [|p doc IH]; intros n lines.
  - exists []. cbn. rewrite app_nil_r. split; [reflexivity|constructor].
  - cbn [List.length seq combine fold_left].
    assert (Hp : exists new,
              extract_page (Some lines) (n, p) = Some (lines ++ new)
              /\ Forall2 (extracted n)
                         (Difflib.enumerate (printed_lines p)) new).
    { unfold extract_page. cbn [fst snd].
      destruct p as [[blocks|]].
      - destruct (extract_block_fold n blocks 0 lines) as (new & E & H).
        cbn [Z.of_nat] in E. cbn [Py.get page_blocks]. rewrite E.
        exists new. split; [reflexivity|exact H].
      - exists []. cbn. rewrite app_nil_r. split; [reflexivity|constructor]. }
    destruct Hp as (new & -> & Hnew).
    destruct (IH (S n) (lines ++ new)) as (per_page & -> & Hpp).
    exists (new :: per_page). cbn [List.concat]. rewrite <- app_assoc.
    split; [reflexivity|]. constructor; assumption.
Qed.

(** The extractor returns, page by page, one line for each printed text
    line. *)
Lemma extract_lines_shape (doc : TextDocument) :
  exists per_page,
    extract_lines_with_bbox doc = Some (List.concat per_page)
    /\ Forall2 (fun p ls =>
                  Forall2 (extracted (fst p))
                          (Difflib.enumerate (printed_lines (snd p))) ls)
               (Difflib.enumerate doc) per_page.
Proof.
  exact (extract_page_fold doc 0 []).
Qed.

Lemma Forall2_combine_seq {A B : Type} (P : nat * A -> B -> Prop)
    (R : A -> B -> Prop) (l : list A) (n : nat) (ys : list B) :
  (forall k x y, In x l -> P (k, x) y -> R x y) ->
  Forall2 P (combine (seq n (List.length l)) l) ys -> Forall2 R l ys.
Proof.
  revert n ys. induction l as [|x l IH]; intros n ys HR H.
  - inversion H. constructor.
  - cbn [List.length seq combine] in H.
    inversion H as [|kx y l' ys' Hxy Hrest]; subst. constructor.
    + apply (HR n). now left. exact Hxy.
    + apply (IH (S n)); [|exact Hrest].
      intros k x' y' Hx'. apply HR. now right.
Qed.

Lemma Forall2_combine_seq_nth {A B : Type} (P : nat * A -> B -> Prop)
    (l : list A) (n : nat) (ys : list B) (i : nat) (y : B) :
  Forall2 P (combine (seq n (List.length l)) l) ys ->
  nth_error ys i = Some y ->
  exists x, nth_error l i = Some x /\ P (n + i, x) y.
Proof.
  revert n ys i. induction l as [|x l IH]; intros n ys i H Hy.
  - inversion H; subst. destruct i; discriminate.
  - cbn [List.length seq combine] in H.
    inversion H as [|kx y0 l' ys' Hxy Hrest]; subst.
    destruct i as [|i].
    + injection Hy as <-. exists x. rewrite Nat.add_0_r. now split.
    + destruct (IH (S n) ys' i Hrest Hy) as (x' & Hx' & HP).
      exists x'. split; [exact Hx'|].
      now replace (n + S i) with (S n + i) by lia.
Qed.

Lemma Forall2_concat {A B : Type} (R : A -> B -> Prop)
    (ls : list (list A)) (ms : list (list B)) :
  Forall2 (Forall2 R) ls ms -> Forall2 R (List.concat ls) (List.concat ms).
Proof.
  induction 1; cbn [List.concat]; [constructor|].
  apply Forall2_app; assumption.
Qed.

(** The extracted lines against the printed text lines, in order. *)
Lemma extract_lines_flat (R : TextLine -> Line -> Prop) (doc : TextDocument) :
  (forall pno k tl l,
     printed tl = true -> extracted pno (k, tl) l -> R tl l) ->
  exists lines,
    extract_lines_with_bbox doc = Some lines
    /\ Forall2 R (flat_map printed_lines doc) lines.
Proof.
  intros HR. destruct (extract_lines_shape doc) as (per_page & E & H).
  exists (List.concat per_page). split; [exact E|].
  rewrite flat_map_concat_map. apply Forall2_concat.
  unfold Difflib.enumerate in H.
  assert (H' : Forall2 (fun p ls => Forall2 R (printed_lines p) ls)
                       doc per_page).
  { eapply Forall2_combine_seq; [|exact H].
    intros pno p ls _ Hp. cbn [fst snd] in Hp.
    eapply Forall2_combine_seq; [|exact Hp].
    intros k tl l Htl Hl. apply (HR pno k); [|exact Hl].
    unfold printed_lines in Htl. now apply filter_In in Htl. }
  clear H E. induction H'; cbn [map]; constructor; assumption.
Qed.

Lemma printed_spans (tl : TextLine) :
  printed tl = true -> Py.get (line_spans tl) [] <> [].
Proof.
  unfold printed. intros H E. rewrite E in H. discriminate.
Qed.


Lemma extracted_numbers (pno : nat) (tls : list TextLine) (n : nat)
    (ls : list Line) :
  Forall2 (extracted pno) (combine (seq n (List.length tls)) tls) ls ->
  Forall (fun l => page l = Z.of_nat pno + 1)%Z ls
  /\ map line_no ls = map Z.of_nat (seq (S n) (List.length ls)).
Proof.
  revert n ls. induction tls as [|tl tls IH]; intros n ls H.
  - inversion H. split; [constructor|reflexivity].
  - cbn [List.length seq combine] in H.
    inversion H as [|kx l l' ls' (Hp & Hn & _) Hrest]; subst.
    destruct (IH (S n) ls' Hrest) as [IH1 IH2].
    split; [constructor; assumption|].
    cbn [map List.length seq fst] in *. rewrite IH2, Hn. f_equal. lia.
Qed.

(** X19: the lines come page by page: the lines of the [i]-th page (from
    0) carry the page number [i + 1] and the line numbers 1, 2, 3, ... in
    order, blocks without text and lines without text taking no number. *)
Theorem extract_lines_numbering (doc : TextDocument) :
  exists per_page,
    extract_lines_with_bbox doc = Some (List.concat per_page)
    /\ List.length per_page = List.length doc
    /\ forall i ls,
         nth_error per_page i = Some ls ->
         Forall (fun l => page l = Z.of_nat i + 1)%Z ls
         /\ map line_no ls = map Z.of_nat (seq 1 (List.length ls))
         /\ exists p, nth_error doc i = Some p
                      /\ List.length ls = List.length (printed_lines p).
Proof.
  destruct (extract_lines_shape doc) as (per_page & E & H).
  exists per_page. split; [exact E|]. split.
  - apply Forall2_length in H. unfold Difflib.enumerate in H.
    rewrite length_combine, length_seq, Nat.min_id in H. now symmetry.
  - intros i ls Hi. unfold Difflib.enumerate in H.
    destruct (Forall2_combine_seq_nth _ _ _ _ _ _ H Hi) as (p & Hp & Hls).
    cbn [fst snd Nat.add] in Hls. unfold Difflib.enumerate in Hls.
    destruct (extracted_numbers i _ 0 ls Hls) as [H1 H2].
    split; [exact H1|]. split; [exact H2|].
    exists p. split; [exact Hp|].
    apply Forall2_length in Hls.
    rewrite length_combine, length_seq, Nat.min_id in Hls. now symmetry.
Qed.

(** X20: the box of an extracted line encloses the box of every span of
    its text line: [x0] and [y0] are at most, [x1] and [y1] at least, those
    of each span that has a [bbox]; and each of the four is the coordinate
    of one of the spans, or the default of a span without [bbox]. *)
Theorem extract_lines_bbox (doc : TextDocument) :
  exists lines,
    extract_lines_with_bbox doc = Some lines
    /\ Forall2
         (fun tl l =>
            let spans := Py.get (line_spans tl) [] in
            spans <> []
            /\ (forall s b, In s spans -> span_bbox s = Some b ->
                  (x0 l <= bbox_x0 b)%Q /\ (y0 l <= bbox_y0 b)%Q
                  /\ (bbox_x1 b <= x1 l)%Q /\ (bbox_y1 b <= y1 l)%Q)
            /\ In (x0 l)
                  (map (fun s => bbox_x0 (Py.get (span_bbox s) bbox_far)) spans)
            /\ In (y0 l)
                  (map (fun s => bbox_y0 (Py.get (span_bbox s) bbox_far)) spans)
            /\ In (x1 l)
                  (map (fun s => bbox_x1 (Py.get (span_bbox s) bbox_zero)) spans)
            /\ In (y1 l)
                  (map (fun s => bbox_y1 (Py.get (span_bbox s) bbox_zero)) spans))
         (flat_map printed_lines doc) lines.
Proof.
  apply extract_lines_flat.
  intros pno k tl l Hp (_ & _ & _ & _ & Hx0 & Hy0 & Hx1 & Hy1).
  cbn [snd] in Hx0, Hy0, Hx1, Hy1. cbv zeta.
  apply min_list_spec in Hx0, Hy0. apply max_list_spec in Hx1, Hy1.
  destruct Hx0 as [Ix0 Hx0], Hy0 as [Iy0 Hy0], Hx1 as [Ix1 Hx1],
    Hy1 as [Iy1 Hy1].
  split; [now apply printed_spans|].
  split; [|auto].
  intros s b Hs Hb.
  split; [|split; [|split]].
  - apply Hx0. apply in_map_iff. exists s. now rewrite Hb.
  - apply Hy0. apply in_map_iff. exists s. now rewrite Hb.
  - apply Hx1. apply in_map_iff. exists s. now rewrite Hb.
  - apply Hy1. apply in_map_iff. exists s. now rewrite Hb.
Qed.

(** ** The annotator *)

Lemma add_highlight_length (doc : PdfDocument) (k : nat) (a : Annot) :
  List.length (add_highlight doc k a) = List.length doc.
Proof.
  revert k. induction doc as [|p doc IH]; intros [|k]; cbn; auto.
Qed.

Lemma map_combine_seq_id {A : Type} (f : nat * A -> A) (l : list A)
    (n : nat) :
  (forall i x, n <= i < n + List.length l -> f (i, x) = x) ->
  map f (combine (seq n (List.length l)) l) = l.
Proof.
  revert n. induction l as [|x l IH]; intros n H; [reflexivity|].
  cbn [List.length seq combine map]. rewrite H by (cbn; lia). f_equal.
  apply IH. intros i y Hi. apply H. cbn [List.length]. lia.
Qed.

Lemma add_highlight_pages (doc : PdfDocument) (k n : nat) (a : Annot) :
  add_highlight doc k a
  = map (fun ip => if (fst ip =? n + k)%nat then snd ip ++ [a] else snd ip)
        (combine (seq n (List.length doc)) doc).
Proof.
  revert k n. induction doc as [|p doc IH]; intros k n; [now destruct k|].
  cbn [List.length seq combine map fst snd]. destruct k as [|k].
  - rewrite Nat.add_0_r, Nat.eqb_refl. cbn [add_highlight]. f_equal.
    symmetry. apply map_combine_seq_id. intros i q Hi. cbn [fst snd].
    destruct (Nat.eqb_spec i n); [lia|reflexivity].
  - cbn [add_highlight]. destruct (Nat.eqb_spec n (n + S k)); [lia|].
    f_equal. rewrite (IH k (S n)). apply map_ext. intros [i q].
    cbn [fst snd]. now replace (S n + k) with (n + S k) by lia.
Qed.

Lemma add_highlight_total (doc : PdfDocument) (k : nat) (a : Annot) :
  k < List.length doc ->
  List.length (List.concat (add_highlight doc k a))
  = S (List.length (List.concat doc)).
Proof.
  revert k. induction doc as [|p doc IH]; intros k Hk; [cbn in Hk; lia|].
  destruct k as [|k]; cbn [add_highlight List.concat].
  - rewrite !length_app. cbn. lia.
  - rewrite !length_app, IH by (cbn in Hk; lia). lia.
Qed.

Lemma marks_cons (pk lk : Row -> option Z) (i : nat) (r : Row)
    (rows : list Row) :
  marks pk lk i (r :: rows) = marks pk lk i [r] ++ marks pk lk i rows.
Proof. unfold marks. cbn [flat_map]. now rewrite app_nil_r. Qed.

(** One row: the document after the row is the document before, with the
    highlights of the row. *)
Lemma annotate_one (pk lk : Row -> option Z) (doc : PdfDocument) (r : Row) :
  numbered pk lk r ->
  annotate pk lk (Some doc) r
  = Some (map (fun ip => snd ip ++ marks pk lk (fst ip) [r])
              (Difflib.enumerate doc)).
Proof.
  intros Hn. unfold annotate, Difflib.enumerate, numbered in *.
  assert (Hsame : forall f : nat * PdfPage -> PdfPage,
            (forall i x, i < List.length doc -> f (i, x) = x) ->
            Some doc = Some (map f (combine (seq 0 (List.length doc)) doc))).
  { intros f Hf. f_equal. symmetry. apply map_combine_seq_id.
    intros i x Hi. apply Hf. lia. }
  destruct (pk r) as [p|] eqn:Ep.
  - destruct (lk r) as [n|] eqn:El; [|exfalso; now apply Hn].
    destruct (Z.eqb_spec p 0) as [H0|H0]; cbn [negb andb].
    { apply Hsame. intros i x _. cbn [fst snd]. unfold marks.
      cbn [flat_map]. rewrite Ep, El.
      destruct (Z.eqb_spec p (Z.of_nat i + 1)); [lia|].
      cbn [andb]. now rewrite app_nil_r. }
    destruct (ErrorType_eqb (error_type r) match_) eqn:Em; cbn [negb].
    { apply Hsame. intros i x _. cbn [fst snd]. unfold marks.
      cbn [flat_map]. rewrite Ep, El, Em, andb_false_r.
      now rewrite app_nil_r. }
    destruct (Z.leb_spec 0 (p - 1)) as [Hlo|Hlo]; cbn [andb].
    + destruct (Z.ltb_spec (p - 1) (Z.of_nat (List.length doc))) as [Hhi|Hhi].
      * f_equal. rewrite (add_highlight_pages doc _ 0). apply map_ext.
        intros [i x]. cbn [fst snd Nat.add]. unfold marks. cbn [flat_map].
        rewrite Ep, El, Em. cbn [negb]. rewrite andb_true_r.
        destruct (Nat.eqb_spec i (Z.to_nat (p - 1)));
          destruct (Z.eqb_spec p (Z.of_nat i + 1)); try lia;
          now rewrite ?app_nil_r.
      * apply Hsame. intros i x Hi. cbn [fst snd]. unfold marks.
        cbn [flat_map]. rewrite Ep, El.
        destruct (Z.eqb_spec p (Z.of_nat i + 1)); [lia|].
        cbn [andb]. now rewrite app_nil_r.
    + apply Hsame. intros i x Hi. cbn [fst snd]. unfold marks.
      cbn [flat_map]. rewrite Ep, El.
      destruct (Z.eqb_spec p (Z.of_nat i + 1)); [lia|].
      cbn [andb]. now rewrite app_nil_r.
  - apply Hsame. intros i x _. cbn [fst snd]. unfold marks.
    cbn [flat_map]. rewrite Ep. now rewrite app_nil_r.
Qed.

Lemma map_enumerate_map {A : Type} (g h : nat -> A -> A) (l : list A)
    (n : nat) :
  map (fun ip => h (fst ip) (snd ip))
      (combine (seq n (List.length
                         (map (fun ip => g (fst ip) (snd ip))
                              (combine (seq n (List.length l)) l))))
               (map (fun ip => g (fst ip) (snd ip))
                    (combine (seq n (List.length l)) l)))
  = map (fun ip => h (fst ip) (g (fst ip) (snd ip)))
        (combine (seq n (List.length l)) l).
Proof.
  revert n. induction l as [|x l IH]; intros n; [reflexivity|].
  cbn [List.length seq combine map fst snd]. f_equal. apply IH.
Qed.

(** A loop of the annotator: every page gets the highlights of the rows
    for it, after the annotations it had. *)
Lemma annotate_fold (pk lk : Row -> option Z) (rows : list Row)
    (doc : PdfDocument) :
  Forall (numbered pk lk) rows ->
  fold_left (annotate pk lk) rows (Some doc)
  = Some (map (fun ip => snd ip ++ marks pk lk (fst ip) rows)
              (Difflib.enumerate doc)).
Proof.
  intros Hn. revert doc. induction Hn as [|r rows Hr Hn IH]; intros doc.
  - cbn [fold_left]. f_equal. symmetry. unfold Difflib.enumerate.
    apply map_combine_seq_id. intros i x _. cbn. apply app_nil_r.
  - cbn [fold_left]. rewrite (annotate_one pk lk doc r Hr), IH.
    f_equal. unfold Difflib.enumerate.
    pose proof (map_enumerate_map (fun i p => p ++ marks pk lk i [r])
                                  (fun i p => p ++ marks pk lk i rows) doc 0)
      as M.
    cbv beta in M. etransitivity; [exact M|]. apply map_ext. intros [i p]. cbn [fst snd].
    now rewrite (marks_cons pk lk i r rows), app_assoc.
Qed.

(** The rows of a comparison run have a line number wherever they have a
    page. *)
Lemma rows_numbered (origs gens : list Line) (thr : Q) :
  Forall (fun r => numbered orig_page orig_line_no r
                   /\ (orig_page r <> None -> error_type r <> no_match)
                   /\ (orig_page r = None -> error_type r = no_match))
         (snd (compare_pdfs_and_build_pairs origs gens thr)).
Proof.
  pose proof (rows_Forall2 origs gens thr) as F.
  induction F as [|g r gens' rows E F IH]; constructor; [|exact IH].
  pose proof (round_row (map set_norm origs) thr (set_norm g)) as R.
  destruct (best_match (map set_norm origs) (set_norm g)) as [score [o|]].
  - destruct R as (a_html & b_html & R). rewrite R in E.
    injection E as <-. unfold numbered. cbn.
    repeat split; try discriminate.
    destruct (ge_threshold score thr); discriminate.
  - rewrite R in E. injection E as <-. unfold numbered. cbn.
    repeat split; congruence.
Qed.


Lemma Forall2_map_enumerate {A : Type} (R : A -> A -> Prop)
    (f : nat * A -> A) (l : list A) (n : nat) :
  (forall i x, R x (f (i, x))) ->
  Forall2 R l (map f (combine (seq n (List.length l)) l)).
Proof.
  intros H. revert n. induction l as [|x l IH]; intros n; [constructor|].
  cbn [List.length seq combine map]. constructor; [apply H|apply IH].
Qed.

Lemma marks_Forall (P : Annot -> Prop) (pk lk : Row -> option Z) (i : nat)
    (rows : list Row) :
  Forall (fun r => forall p n,
            pk r = Some p -> lk r = Some n ->
            ErrorType_eqb (error_type r) match_ = false ->
            P (highlight n (error_type r))) rows ->
  Forall P (marks pk lk i rows).
Proof.
  induction 1 as [|r rows Hr H IH]; [constructor|].
  rewrite marks_cons. apply Forall_app. split; [|exact IH].
  unfold marks. cbn [flat_map]. rewrite app_nil_r.
  destruct (pk r) as [p|]; [|constructor].
  destruct (lk r) as [n|]; [|constructor].
  destruct (ErrorType_eqb (error_type r) match_) eqn:Em.
  - rewrite andb_false_r. constructor.
  - destruct (p =? Z.of_nat i + 1)%Z; cbn [andb negb]; [|constructor].
    constructor; [|constructor]. now apply (Hr p n).
Qed.

(** X22: on the rows of a comparison run every page of the two annotated
    documents is the page it was, followed by the new highlights.  Those of
    the original are all orange and say [Error: mismatch]: a [no_match] row
    names no original page.  Those of the generated document are orange
    for a [mismatch] and red for a [no_match].  No highlight is green, and
    when every row is a [match] both documents are returned as they
    were. *)
Theorem annotation_colours (origs gens : list Line) (thr : Q)
    (orig_doc gen_doc : PdfDocument) :
  let rows := snd (compare_pdfs_and_build_pairs origs gens thr) in
  exists orig_annotated gen_annotated,
    create_annotated_pdfs orig_doc gen_doc rows
    = Some (orig_annotated, gen_annotated)
    /\ Forall2 (fun p p' =>
                  exists added,
                    p' = p ++ added
                    /\ Forall (fun a =>
                                 annot_stroke a = (1, 1 # 2, 0)%Q
                                 /\ annot_content a = "Error: mismatch")
                              added)
               orig_doc orig_annotated
    /\ Forall2 (fun p p' =>
                  exists added,
                    p' = p ++ added
                    /\ Forall (fun a =>
                                 (annot_stroke a = (1, 1 # 2, 0)%Q
                                  /\ annot_content a = "Error: mismatch")
                                 \/ (annot_stroke a = (1, 0, 0)%Q
                                     /\ annot_content a = "Error: no_match"))
                              added)
               gen_doc gen_annotated
    /\ (Forall (fun r => error_type r = match_) rows ->
        orig_annotated = orig_doc /\ gen_annotated = gen_doc).
Proof.
  intros rows.
  pose proof (rows_numbered origs gens thr) as Hrows. fold rows in Hrows.
  unfold create_annotated_pdfs.
  rewrite annotate_fold
    by (eapply Forall_impl; [|exact Hrows]; intros r H; apply H).
  rewrite annotate_fold
    by (apply Forall_forall; intros r _; unfold numbered; discriminate).
  eexists _, _. split; [reflexivity|]. unfold Difflib.enumerate.
  split; [|split].
  - apply Forall2_map_enumerate. intros i p. cbn [fst snd].
    eexists. split; [reflexivity|]. apply marks_Forall.
    eapply Forall_impl; [|exact Hrows].
    intros r (_ & Hnm & _) p' n Hp _ Hm.
    assert (Hn : error_type r <> no_match) by (apply Hnm; congruence).
    destruct (error_type r); try discriminate; [|contradiction].
    split; reflexivity.
  - apply Forall2_map_enumerate. intros i p. cbn [fst snd].
    eexists. split; [reflexivity|]. apply marks_Forall.
    apply Forall_forall. intros r _ p' n _ _ Hm.
    destruct (error_type r); try discriminate;
      [left|right]; split; reflexivity.
  - intros Hall.
    assert (Hnil : forall pk lk i, marks pk lk i rows = []).
    { intros pk lk i. clear Hrows. unfold marks.
      induction Hall as [|r rs Hr Hall IH]; [reflexivity|].
      cbn [flat_map]. rewrite IH, Hr. cbn [ErrorType_eqb negb].
      destruct (pk r) as [p|]; [|reflexivity].
      destruct (lk r) as [n|]; [|reflexivity].
      now rewrite andb_false_r. }
    split; apply map_combine_seq_id; intros i x _; cbn [fst snd];
      rewrite Hnil; apply app_nil_r.
Qed.

(** *** From the two documents to the highlights *)

Lemma extract_lines_pages (doc : TextDocument) :
  exists lines,
    extract_lines_with_bbox doc = Some lines
    /\ Forall (fun l => 1 <= page l <= Z.of_nat (List.length doc))%Z lines
    /\ Forall (fun l => text l <> "") lines.
Proof.
  destruct (extract_lines_shape doc) as (per_page & E & H).
  exists (List.concat per_page). split; [exact E|].
  assert (Hlen : List.length per_page = List.length doc).
  { apply Forall2_length in H. unfold Difflib.enumerate in H.
    rewrite length_combine, length_seq, Nat.min_id in H. now symmetry. }
  assert (Hall : forall l, In l (List.concat per_page) ->
            (1 <= page l <= Z.of_nat (List.length doc))%Z /\ text l <> "").
  { intros l Hl. apply in_concat in Hl. destruct Hl as (ls & Hls & Hl).
    apply In_nth_error in Hls. destruct Hls as (i & Hi).
    assert (Hi' : i < List.length per_page)
      by (apply nth_error_Some; congruence).
    unfold Difflib.enumerate in H.
    destruct (Forall2_combine_seq_nth _ _ _ _ _ _ H Hi) as (p & _ & Hp).
    cbn [fst snd Nat.add] in Hp. unfold Difflib.enumerate in Hp.
    apply In_nth_error in Hl. destruct Hl as (k & Hk).
    destruct (Forall2_combine_seq_nth _ _ _ _ _ _ Hp Hk)
      as (tl & Htl & Hex).
    destruct Hex as (Hpage & _ & Htext & _). cbn [snd] in Htext.
    split; [lia|].
    apply nth_error_In in Htl. unfold printed_lines in Htl.
    apply filter_In in Htl. destruct Htl as [_ Hpr].
    unfold printed in Hpr. rewrite <- Htext in Hpr.
    intros E'. rewrite E' in Hpr. discriminate. }
  split; apply Forall_forall; intros l Hl; now apply Hall.
Qed.

(** The pages the rows of a run name are pages of lines that were
    compared. *)
Lemma rows_pages (origs gens : list Line) (thr : Q) :
  Forall (fun r => (exists g, In g gens /\ gen_page r = page g
                                /\ gen_text r = text g)
                   /\ (forall p, orig_page r = Some p ->
                         exists o, In o origs /\ p = page o))
         (snd (compare_pdfs_and_build_pairs origs gens thr)).
Proof.
  pose proof (rows_Forall2 origs gens thr) as F.
  induction F as [|g r gens' rows E F IH]; constructor.
  - pose proof (round_row (map set_norm origs) thr (set_norm g)) as R.
    destruct (best_match_cases (map set_norm origs) (set_norm g))
      as [[_ Hb]|(o' & Hin & Hb & _)]; rewrite Hb in R.
    + rewrite R in E. injection E as <-. cbn. split.
      * exists g. split; [now left|split; reflexivity].
      * discriminate.
    + destruct R as (a_html & b_html & R). rewrite R in E.
      injection E as <-. cbn. split.
      * exists g. split; [now left|split; reflexivity].
      * intros p [= <-]. apply in_map_iff in Hin.
        destruct Hin as (o & <- & Hin). exists o. split; [exact Hin|].
        reflexivity.
  - eapply Forall_impl; [|exact IH]. intros r' [(g' & Hg' & Hp) Ho].
    split; [|exact Ho]. exists g'. split; [now right|exact Hp].
Qed.

Lemma filter_partition_length {A : Type} (f : A -> bool) (l : list A) :
  List.length (filter f l) + List.length (filter (fun x => negb (f x)) l)
  = List.length l.
Proof.
  induction l as [|x l IH]; [reflexivity|].
  cbn [filter]. destruct (f x); cbn [negb List.length]; lia.
Qed.

(** A loop of the annotator adds one annotation for each row that is not a
    [match] and names a page of the document. *)
Lemma annotate_count (pk lk : Row -> option Z) (rows : list Row)
    (doc : PdfDocument) :
  Forall (numbered pk lk) rows ->
  exists doc',
    fold_left (annotate pk lk) rows (Some doc) = Some doc'
    /\ List.length doc' = List.length doc
    /\ List.length (List.concat doc')
       = List.length (List.concat doc)
         + List.length
             (filter (fun r =>
                        match pk r with
                        | Some p =>
                            negb (ErrorType_eqb (error_type r) match_)
                            && (1 <=? p)%Z
                            && (p <=? Z.of_nat (List.length doc))%Z
                        | None => false
                        end) rows).
Proof.
  intros Hn. revert doc. induction Hn as [|r rows Hr Hn IH]; intros doc.
  - exists doc. cbn. repeat split; lia.
  - cbn [fold_left filter].
    assert (H1 : exists doc1,
              annotate pk lk (Some doc) r = Some doc1
              /\ List.length doc1 = List.length doc
              /\ List.length (List.concat doc1)
                 = List.length (List.concat doc)
                   + (if match pk r with
                         | Some p =>
                             negb (ErrorType_eqb (error_type r) match_)
                             && (1 <=? p)%Z
                             && (p <=? Z.of_nat (List.length doc))%Z
                         | None => false
                         end then 1 else 0)).
    { unfold annotate, numbered in *.
      destruct (pk r) as [p|]; [|exists doc; repeat split; lia].
      destruct (lk r) as [n|]; [|exfalso; now apply Hr].
      destruct (ErrorType_eqb (error_type r) match_); cbn [negb andb].
      { rewrite andb_false_r. exists doc. repeat split; lia. }
      destruct (Z.eqb_spec p 0) as [H0|H0]; cbn [negb andb].
      { destruct (Z.leb_spec 1 p); [lia|]. exists doc.
        cbn [andb]. repeat split; lia. }
      destruct (Z.leb_spec 0 (p - 1)) as [Ha|Ha];
        destruct (Z.leb_spec 1 p) as [Hb|Hb]; try lia; cbn [andb];
        [|exists doc; repeat split; lia].
      destruct (Z.ltb_spec (p - 1) (Z.of_nat (List.length doc))) as [Hc|Hc];
        destruct (Z.leb_spec p (Z.of_nat (List.length doc))) as [Hd|Hd];
        try lia; [|exists doc; repeat split; lia].
      eexists. split; [reflexivity|]. split; [apply add_highlight_length|].
      rewrite add_highlight_total by lia. lia. }
    destruct H1 as (doc1 & -> & Hl1 & Hc1).
    destruct (IH doc1) as (doc' & -> & Hl' & Hc').
    exists doc'. split; [reflexivity|]. split; [congruence|].
    rewrite Hc', Hc1, Hl1.
    destruct (match pk r with Some _ => _ | None => _ end);
      cbn [List.length]; lia.
Qed.

Lemma count_nonmatch (rows : list Row) :
  Z.of_nat (List.length
              (filter (fun r => negb (ErrorType_eqb (error_type r) match_))
                      rows))
  = (count_type mismatch rows + count_type no_match rows)%Z.
Proof.
  unfold count_type. induction rows as [|r rows IH]; [reflexivity|].
  cbn [filter]. destruct (error_type r);
    cbn [ErrorType_eqb negb List.length]; lia.
Qed.

(** X23: the two steps of [upload_and_compare] together.  When the lines
    of two documents are extracted and compared and the rows are passed to
    [create_annotated_pdfs] with the same two documents, nothing raises,
    every row names pages that exist, and the number of highlights added
    is the number of [mismatch] rows in the original and the number of
    [mismatch] and [no_match] rows in the generated document. *)
Theorem upload_highlight_counts (orig_text gen_text : TextDocument)
    (orig_doc gen_doc : PdfDocument) (thr : Q) :
  List.length orig_doc = List.length orig_text ->
  List.length gen_doc = List.length gen_text ->
  exists orig_lines gen_lines orig_annotated gen_annotated,
    extract_lines_with_bbox orig_text = Some orig_lines
    /\ extract_lines_with_bbox gen_text = Some gen_lines
    /\ create_annotated_pdfs orig_doc gen_doc
         (snd (compare_pdfs_and_build_pairs orig_lines gen_lines thr))
       = Some (orig_annotated, gen_annotated)
    /\ Z.of_nat (List.length (List.concat orig_annotated))
       = (Z.of_nat (List.length (List.concat orig_doc))
          + mismatches
              (error_breakdown
                 (fst (compare_pdfs_and_build_pairs orig_lines gen_lines
                         thr))))%Z
    /\ Z.of_nat (List.length (List.concat gen_annotated))
       = (Z.of_nat (List.length (List.concat gen_doc))
          + mismatches
              (error_breakdown
                 (fst (compare_pdfs_and_build_pairs orig_lines gen_lines
                         thr)))
          + no_matches
              (error_breakdown
                 (fst (compare_pdfs_and_build_pairs orig_lines gen_lines
                         thr))))%Z.
Proof.
  intros Hlo Hlg.
  destruct (extract_lines_pages orig_text) as (ol & Eo & Po & _).
  destruct (extract_lines_pages gen_text) as (gl & Eg & Pg & _).
  exists ol, gl.
  set (rows := snd (compare_pdfs_and_build_pairs ol gl thr)).
  change (mismatches (error_breakdown
                        (fst (compare_pdfs_and_build_pairs ol gl thr))))
    with (count_type mismatch rows).
  change (no_matches (error_breakdown
                        (fst (compare_pdfs_and_build_pairs ol gl thr))))
    with (count_type no_match rows).
  pose proof (rows_numbered ol gl thr) as Hnum. fold rows in Hnum.
  pose proof (rows_pages ol gl thr) as Hpg. fold rows in Hpg.
  destruct (annotate_count orig_page orig_line_no rows orig_doc)
    as (oa & Fo & _ & Co).
  { eapply Forall_impl; [|exact Hnum]. intros r H. apply H. }
  destruct (annotate_count (fun r => Some (gen_page r))
              (fun r => Some (gen_line_no r)) rows gen_doc)
    as (ga & Fg & _ & Cg).
  { apply Forall_forall. intros r _. unfold numbered. discriminate. }
  exists oa, ga. unfold create_annotated_pdfs. rewrite Fo, Fg.
  split; [exact Eo|]. split; [exact Eg|]. split; [reflexivity|].
  rewrite Forall_forall in Hnum, Hpg, Po, Pg.
  split.
  - rewrite Co, Nat2Z.inj_add. f_equal. unfold count_type. f_equal. f_equal.
    apply filter_ext_in. intros r Hr.
    destruct (Hnum r Hr) as (_ & Hsome & Hnone).
    destruct (Hpg r Hr) as (_ & Ho).
    destruct (orig_page r) as [p|].
    + destruct (Ho p eq_refl) as (o & Hin & ->).
      specialize (Po o Hin). cbv beta in Po. rewrite Hlo.
      destruct (Z.leb_spec 1 (page o)); [|lia].
      destruct (Z.leb_spec (page o) (Z.of_nat (List.length orig_text)));
        [|lia].
      rewrite !andb_true_r.
      specialize (Hsome ltac:(discriminate)).
      destruct (error_type r); try reflexivity. contradiction.
    + rewrite (Hnone eq_refl). reflexivity.
  - rewrite Cg, Nat2Z.inj_add, <- Z.add_assoc. f_equal.
    rewrite <- count_nonmatch. f_equal. f_equal.
    apply filter_ext_in. intros r Hr.
    destruct (Hpg r Hr) as ((g & Hin & -> & _) & _).
    specialize (Pg g Hin). cbv beta in Pg. rewrite Hlg.
    destruct (Z.leb_spec 1 (page g)); [|lia].
    destruct (Z.leb_spec (page g) (Z.of_nat (List.length gen_text))); [|lia].
    now rewrite !andb_true_r.
Qed.

Lemma upload_highlight_counts_example :
  exists orig_lines gen_lines orig_annotated gen_annotated,
    extract_lines_with_bbox
      [sample_text_page "Total amount" 100; sample_image_page]
    = Some orig_lines
    /\ extract_lines_with_bbox [sample_text_page "Total due" 100]
       = Some gen_lines
    /\ create_annotated_pdfs [[]; []] [[]]
         (snd (compare_pdfs_and_build_pairs orig_lines gen_lines 75))
       = Some (orig_annotated, gen_annotated)
    /\ Z.of_nat (List.length (List.concat orig_annotated))
       = (Z.of_nat (List.length (List.concat ([[]; []] : PdfDocument)))
          + mismatches
              (error_breakdown
                 (fst (compare_pdfs_and_build_pairs orig_lines gen_lines
                         75))))%Z
    /\ Z.of_nat (List.length (List.concat gen_annotated))
       = (Z.of_nat (List.length (List.concat ([[]] : PdfDocument)))
          + mismatches
              (error_breakdown
                 (fst (compare_pdfs_and_build_pairs orig_lines gen_lines
                         75)))
          + no_matches
              (error_breakdown
                 (fst (compare_pdfs_and_build_pairs orig_lines gen_lines
                         75))))%Z.
Proof.
  apply (upload_highlight_counts
           [sample_text_page "Total amount" 100; sample_image_page]
           [sample_text_page "Total due" 100]
           [[]; []] [[]] 75); reflexivity.
Defined.

Lemma round4_zero (x : Q) : (x == 0)%Q -> (Py.round4 x == 0)%Q.
Proof.
  destruct x as [n d]. intros H. unfold Qeq in H. cbn [Qnum Qden] in H.
  rewrite Z.mul_1_r, Z.mul_0_l in H. subst n.
  unfold Py.round4. cbn [Qnum Qden].
  pose proof (half_even_lower (0 * 10000) (Zpos d) 0 ltac:(lia) ltac:(lia)).
  pose proof (half_even_upper (0 * 10000) (Zpos d) 0 ltac:(lia) ltac:(lia)).
  replace (Py.half_even (0 * 10000) (Zpos d)) with 0%Z by lia.
  assert (E : (0 # 10000 == 0)%Q) by reflexivity.
  rewrite E. apply float64_0.
Qed.

(** X24: an original document without any printed text line (a scanned
    document, say) is compared without error: no line is extracted from
    it, every generated line becomes a [no_match] row, every character
    counts as different, and both accuracies are 0. *)
Theorem original_without_text (orig_text gen_text : TextDocument) (thr : Q) :
  flat_map printed_lines orig_text = [] ->
  exists gen_lines,
    extract_lines_with_bbox orig_text = Some []
    /\ extract_lines_with_bbox gen_text = Some gen_lines
    /\ Forall (fun r => error_type r = no_match)
              (snd (compare_pdfs_and_build_pairs [] gen_lines thr))
    /\ total_char_diffs (fst (compare_pdfs_and_build_pairs [] gen_lines thr))
       = total_chars (fst (compare_pdfs_and_build_pairs [] gen_lines thr))
    /\ matched_lines (fst (compare_pdfs_and_build_pairs [] gen_lines thr))
       = 0%Z
    /\ (char_accuracy (fst (compare_pdfs_and_build_pairs [] gen_lines thr))
        == 0)%Q
    /\ (line_accuracy (fst (compare_pdfs_and_build_pairs [] gen_lines thr))
        == 0)%Q.
Proof.
  intros Hno.
  destruct (extract_lines_flat (fun _ _ => True) orig_text
              ltac:(intros; exact I)) as (ol & Eo & Ho).
  rewrite Hno in Ho. inversion Ho; subst ol.
  destruct (extract_lines_pages gen_text) as (gl & Eg & _ & Tg).
  exists gl. split; [exact Eo|]. split; [exact Eg|].
  set (s := fst (compare_pdfs_and_build_pairs [] gl thr)).
  set (rows := snd (compare_pdfs_and_build_pairs [] gl thr)).
  destruct (summary_fields [] gl thr) as (H1 & H2 & H3 & H4 & H5 & H6).
  cbv zeta in H1, H2, H3, H4, H5, H6. fold s in H1, H2, H3, H4, H5, H6.
  cbn [map] in H1, H2, H3.
  assert (Hb : forall g, best_match [] g = (0%Q, None)) by reflexivity.
  assert (Hchars : total_char_diffs s = total_chars s).
  { rewrite H1, H2. clear -Tg Hb.
    induction Tg as [|g gl Hg Tg IH]; [reflexivity|].
    cbn [map zsum fold_right]. unfold zsum in IH. rewrite IH. f_equal.
    unfold line_diff_chars, line_chars. rewrite Hb. cbn [snd].
    change (text (set_norm g)) with (text g). unfold Py.len.
    destruct (text g); [congruence|cbn [String.length]; lia]. }
  assert (Hm : matched_lines s = 0%Z).
  { rewrite H3. clear -Hb. induction gl as [|g gl IH]; [reflexivity|].
    cbn [map filter]. unfold line_matched at 1. rewrite Hb. exact IH. }
  split; [|split; [exact Hchars|split; [exact Hm|split]]].
  - pose proof (rows_Forall2 [] gl thr) as F. fold rows in F.
    clearbody rows. clear -F Hb.
    induction F as [|g r gl rows E F IH]; constructor; [|exact IH].
    pose proof (round_row (map set_norm []) thr (set_norm g)) as R.
    cbn [map] in R, E. rewrite Hb in R. rewrite R in E.
    injection E as <-. reflexivity.
  - rewrite H5. apply round4_zero.
    destruct (Z.eqb_spec (total_chars s) 0) as [|Hne]; [reflexivity|].
    rewrite Hchars.
    assert (Hc : (0 < total_chars s)%Z).
    { destruct (sums_bounds [] thr (map set_norm gl)) as (B1 & _).
      cbn [map] in H1, H2. lia. }
    apply (proj2 (float_sub_one _)), truediv_same, Hc.
  - rewrite H6. apply round4_zero. destruct gl; [reflexivity|].
    rewrite Hm. apply truediv_zero.
Qed.

Lemma original_without_text_example :
  exists gen_lines,
    extract_lines_with_bbox [sample_image_page] = Some []
    /\ extract_lines_with_bbox [sample_text_page "Total due" 100]
       = Some gen_lines
    /\ Forall (fun r => error_type r = no_match)
              (snd (compare_pdfs_and_build_pairs [] gen_lines 75))
    /\ total_char_diffs (fst (compare_pdfs_and_build_pairs [] gen_lines 75))
       = total_chars (fst (compare_pdfs_and_build_pairs [] gen_lines 75))
    /\ matched_lines (fst (compare_pdfs_and_build_pairs [] gen_lines 75))
       = 0%Z
    /\ (char_accuracy (fst (compare_pdfs_and_build_pairs [] gen_lines 75))
        == 0)%Q
    /\ (line_accuracy (fst (compare_pdfs_and_build_pairs [] gen_lines 75))
        == 0)%Q.
Proof.
  apply (original_without_text [sample_image_page]
           [sample_text_page "Total due" 100] 75).
  reflexivity.
Defined.

(** ** The word-level differ on equal texts *)

Lemma concat_length_zero {A : Type} (ls : list (list A)) :
  List.length (List.concat ls) = 0 -> Forall (fun l => l = []) ls.
Proof.
  induction ls as [|l ls IH]; [constructor|].
  cbn [List.concat]. rewrite length_app. intros H.
  constructor; [apply length_zero_iff_nil; lia|apply IH; lia].
Qed.

(** A well-formed opcode has words on one side at least. *)
Lemma opcode_ok_words (a b : list string) (op : Difflib.opcode) :
  opcode_ok a b op -> a_run a op = [] -> b_run b op = [] -> False.
Proof.
  destruct op as [[[[t i1] i2] j1] j2]. intros [_ H] Ha Hb.
  destruct t; destruct H as [H1 H2]; congruence.
Qed.

(** An opcode that takes all of both lists is the only one. *)
Lemma sole_opcode (a b : list string) (ops : list Difflib.opcode)
    (op : Difflib.opcode) :
  Forall (opcode_ok a b) ops ->
  List.concat (map (a_run a) ops) = a ->
  List.concat (map (b_run b) ops) = b ->
  In op ops ->
  List.length (a_run a op) = List.length a ->
  List.length (b_run b op) = List.length b ->
  ops = [op].
Proof.
  intros Hok Ta Tb Hin La Lb.
  apply in_split in Hin. destruct Hin as (pre & post & ->).
  apply (f_equal (@List.length string)) in Ta, Tb.
  rewrite map_app, concat_app, length_app in Ta, Tb.
  cbn [map List.concat] in Ta, Tb. rewrite length_app in Ta, Tb.
  assert (Hnil : forall ops', Forall (opcode_ok a b) ops' ->
            List.length (List.concat (map (a_run a) ops')) = 0 ->
            List.length (List.concat (map (b_run b) ops')) = 0 ->
            ops' = []).
  { intros [|op' ops'] Hok' Ha Hb; [reflexivity|exfalso].
    apply concat_length_zero in Ha, Hb. cbn [map] in Ha, Hb.
    inversion Hok' as [|? ? Hop _]; subst.
    inversion Ha as [|? ? Ea _]; subst. inversion Hb as [|? ? Eb _]; subst.
    exact (opcode_ok_words a b op' Hop Ea Eb). }
  apply Forall_app in Hok. destruct Hok as [Hpre Hpost].
  apply Forall_cons_iff in Hpost. destruct Hpost as [_ Hpost].
  rewrite (Hnil pre Hpre) by lia. rewrite (Hnil post Hpost) by lia.
  reflexivity.
Qed.

Lemma slice_all {A : Type} (l : list A) : Py.slice l 0 (List.length l) = l.
Proof. unfold Py.slice. rewrite Nat.sub_0_r. cbn [skipn]. apply firstn_all. Qed.

(** X25: a text against itself comes back unmarked.  For a text of fewer
    than 200 words, [word_level_diff_html] returns on both sides the words
    of the text joined by single spaces, without any span. *)
Theorem word_level_diff_identical (a : string) :
  (List.length (Py.split a) < 200)%nat ->
  word_level_diff_html a a
  = (Py.join " " (Py.split a), Py.join " " (Py.split a)).
Proof.
  intros Hn. destruct a as [|c a']; [reflexivity|].
  set (t := Py.split (String c a')) in *.
  unfold word_level_diff_html. cbn [Py.falsy andb]. fold t.
  destruct (get_opcodes_tile t t) as (Hok & Ta & Tb).
  rewrite (diff_loop t t (split_nonempty _) (split_nonempty _)) by exact Hok.
  cbn [app].
  destruct (pieces_truthy t t (split_nonempty _) (split_nonempty _) _ Hok)
    as [-> ->].
  clearbody t.
  destruct (Nat.eq_dec (List.length t) 0) as [H0|H0].
  - apply length_zero_iff_nil in H0. subst t.
    destruct (Difflib.get_opcodes [] []) as [|op ops] eqn:Eo; [reflexivity|].
    exfalso. inversion Hok as [|? ? Hop _]; subst.
    cbn [map List.concat] in Ta, Tb.
    apply app_eq_nil in Ta, Tb. destruct Ta as [Ea _], Tb as [Eb _].
    exact (opcode_ok_words [] [] op Hop Ea Eb).
  - assert (Hlen : 0 < List.length t) by lia.
    destruct (get_opcodes_longest_run t t 0 0 (List.length t) Hn Hlen)
      as (i1 & i2 & j1 & j2 & Hin & Hk).
    { split; [lia|]. intros k _. reflexivity. }
    rewrite Forall_forall in Hok. pose proof (Hok _ Hin) as Hop.
    destruct Hop as [[[Hi1 Hi2] [Hj1 Hj2]] [_ Heq]].
    cbn [a_run b_run] in Heq.
    assert (i1 = 0 /\ i2 = List.length t) as [-> ->] by lia.
    assert (Hj : j2 - j1 = List.length t).
    { apply (f_equal (@List.length string)) in Heq.
      rewrite !slice_length in Heq by lia. lia. }
    assert (j1 = 0 /\ j2 = List.length t) as [-> ->] by lia.
    rewrite <- Forall_forall in Hok.
    rewrite (sole_opcode t t _ _ Hok Ta Tb Hin).
    + cbn [flat_map gen_piece orig_piece fst a_run b_run app].
      rewrite slice_all. reflexivity.
    + cbn [a_run]. now rewrite slice_all.
    + cbn [b_run]. now rewrite slice_all.
Qed.

Lemma word_level_diff_identical_example :
  word_level_diff_html "Total  amount due" "Total  amount due"
  = ("Total amount due", "Total amount due").
Proof.
  apply (word_level_diff_identical "Total  amount due").
  vm_compute. lia.
Defined.

(** ** The word-level differ on texts without a common word *)



